(** * SCFS cluster compression and metadata engine (fs/scfs/scfs.c)

    A shallow embedding of the functions of [fs/scfs/scfs.c] that resolve
    cluster descriptors, run the codecs, commit the footer, own the lower
    file session, admit writes and truncate, followed by the theorems that
    settle what the specification says about them.  The functions that stage
    clusters, copy pages, read the mount options and set up the slab caches
    follow the first group, and their properties the first group's.

    Conventions.
    - C integers are modelled as [Z]; where the C type wraps and the wrap
      matters for a statement ([size_t] arithmetic of [scfs_check_space])
      the reduction modulo [2^w] is written out.
    - Pointers to buffers are modelled by their identity ([buffer]) and by
      whether they are NULL ([bool]); the bytes they hold are modelled
      only where pages are copied in and out of the cluster buffer.
    - Everything the file calls outside itself (VFS, crypto, LZO, allocator,
      other files of scfs) answers through [kernel_env]: a family of
      responses indexed by the number of external calls made so far, so any
      sequence of kernel answers can be supplied.
    - A function of the file is a computation [M A] over [world]: it either
      returns ([Done]) or does not ([Halt]): blocked on a held mutex, a failed
      ASSERT, a wild pointer, or a loop that is still running when its
      iteration budget is used up. *)

From Stdlib Require Import ZArith List Bool Lia.
From Stdlib Require Ascii String.
Import ListNotations.
Local Open Scope Z_scope.

(** ** Constants *)

(** include/uapi/asm-generic/errno-base.h and errno.h *)
Definition EINTR : Z := 4.
Definition EIO : Z := 5.
Definition EAGAIN : Z := 11.
Definition ENOMEM : Z := 12.
Definition EINVAL : Z := 22.
Definition ENOSPC : Z := 28.
Definition ERANGE : Z := 34.
Arguments EINTR : simpl never.
Arguments EIO : simpl never.
Arguments EAGAIN : simpl never.
Arguments ENOMEM : simpl never.
Arguments EINVAL : simpl never.
Arguments ENOSPC : simpl never.
Arguments ERANGE : simpl never.

(** [enum comp_type] of scfs.h, in the order of [tfm_names]. *)
Inductive comp_type := LZO | BZIP2 | ZLIB | FASTLZO.

Definition comp_type_eqb (a b : comp_type) : bool :=
  match a, b with
  | LZO, LZO | BZIP2, BZIP2 | ZLIB, ZLIB | FASTLZO, FASTLZO => true
  | _, _ => false
  end.

(** What scfs.c takes from scfs.h, which is not part of the sources at
    hand: sizes of the on-disk structures, tunables and the platform's
    page size and [size_t] width. *)
Record scfs_h := {
  sizeof_scfs_cinfo : Z;        (* sizeof(struct scfs_cinfo) *)
  sizeof_comp_footer : Z;       (* sizeof(struct comp_footer) *)
  CF_SIZE : Z;
  SCFS_IO_MAX_RETRY : Z;
  SCFS_CLUSTER_ALIGN_BYTE : Z;
  PAGE_SIZE : Z;
  size_t_bits : Z;
  SCFS_REMOVE_NO_COMPRESSED_UPPER_MEMCPY : bool
}.

(** ** Data model *)

(** [struct scfs_cinfo] *)
Record scfs_cinfo := mk_cinfo { offset : Z; size : Z }.

(** [struct cinfo_entry]: one node of [sii->cinfo_list]. *)
Record cinfo_entry := mk_entry {
  current_cluster_idx : Z;
  cinfo : scfs_cinfo;
  pad : Z
}.

(** [sii->cluster_buffer] *)
Record scfs_cluster_buffer := mk_cbuf {
  c_buffer : bool;
  c_page : bool;
  u_buffer : bool;
  u_page : bool;
  original_size : Z
}.

(** [struct scfs_inode_info], the fields scfs.c reads or writes.  The two
    bits of [sii->flags] the file tests are kept as two booleans. *)
Record scfs_inode_info := mk_sii {
  data_compressable : bool;          (* flags & SCFS_DATA_COMPRESSABLE *)
  meta_invalid : bool;               (* IS_INVALID_META(sii) *)
  cluster_size : Z;
  sii_comp_type : comp_type;
  compressed : bool;
  cinfo_array : option (list scfs_cinfo);   (* None: NULL; Some: what can be read *)
  cinfo_array_size : Z;
  cinfo_list : list cinfo_entry;
  cinfo_list_mutex : bool;           (* true: held *)
  lower_file : option nat;           (* None: NULL *)
  lower_file_count : Z;
  lower_file_mutex : bool;
  upper_file_size : Z;
  i_size : Z;                        (* vfs_inode.i_size *)
  cluster_buffer : scfs_cluster_buffer
}.

(** [struct scfs_sb_info] *)
Record scfs_sb_info := mk_sbi {
  total_cluster_count : Z;
  current_file_count : Z;
  current_data_size : Z;
  comp_threshold : Z                 (* options.comp_threshold *)
}.

(** [struct kstatfs]: the number of free blocks, which the file reads, and
    the size of the blocks it counts, which the file does not read. *)
Record kstatfs := mk_kstatfs { f_bavail : Z; f_bsize : Z }.

Inductive buffer := U_BUFFER | C_BUFFER | CINFO_ARRAY | COMP_FOOTER | PAGE_BUF.

Inductive mutex := CINFO_LIST_MUTEX | LOWER_FILE_MUTEX | LOWER_I_MUTEX.

Inductive inode_id := UPPER | LOWER.

(** What the file does to the rest of the kernel, in program order. *)
Inductive event :=
| ev_mutex_lock (m : mutex)
| ev_mutex_unlock (m : mutex)
| ev_vfs_read (buf : buffer) (count pos ret : Z)
| ev_vfs_write (buf : buffer) (count pos ret : Z)
| ev_filemap_write_and_wait
| ev_fput
| ev_privileged_open (ret : Z)
| ev_truncate_setsize (i : inode_id) (newsize : Z)
| ev_notify_change (ia_size ret : Z)
| ev_statfs (ret : Z)
| ev_codec (compress : bool) (algo : comp_type) (len ret out_len : Z)
| ev_alloc (ok : bool)
| ev_unlock_page
| ev_ClearPageUptodate
| ev_footer_read (ret : Z)
| ev_initialize_file (ret : Z).

Record world := mk_world {
  sii : scfs_inode_info;
  sbi : scfs_sb_info;
  lower_i_size : Z;                  (* i_size of the lower inode *)
  lower_i_mutex : bool;
  lzo_workmem : bool;                (* static void *lzo_workmem, non-NULL *)
  tfm_handles : comp_type -> bool;   (* static tfm_handles[], non-NULL *)
  clock : nat;                       (* external calls made so far *)
  log : list event
}.

(** The kernel's answers.  Every field takes the value of [clock] at the
    call first. *)
Record kernel_env := {
  vfs_read : nat -> Z -> Z;                     (* count -> ret *)
  vfs_write : nat -> Z -> Z;
  lzo1x_1_compress : nat -> Z -> Z * Z;         (* in_len -> ret, out_len *)
  lzo1x_decompress_safe : nat -> Z -> Z * Z;
  crypto_comp_compress : nat -> comp_type -> Z -> Z * Z;
  crypto_comp_decompress : nat -> comp_type -> Z -> Z * Z;
  alloc_ok : nat -> bool;                       (* vmalloc, kmalloc, crypto_alloc_comp *)
  scfs_privileged_open : nat -> Z;
  notify_change : nat -> Z -> Z;                (* ia_size -> ret *)
  statfs : nat -> Z * kstatfs;
  read_cinfo_array : nat -> list scfs_cinfo;    (* what a read into cinfo_array delivers *)
  scfs_footer_read : nat -> scfs_inode_info -> Z * scfs_inode_info;
  scfs_initialize_file : nat -> scfs_inode_info -> Z * scfs_inode_info
}.

(** ** Field updates *)

Definition set_cinfo_size (c : scfs_cinfo) (s : Z) : scfs_cinfo :=
  mk_cinfo (offset c) s.

Definition set_entry_size (e : cinfo_entry) (s : Z) : cinfo_entry :=
  mk_entry (current_cluster_idx e) (set_cinfo_size (cinfo e) s) (pad e).

Definition set_entry_pad (e : cinfo_entry) (p : Z) : cinfo_entry :=
  mk_entry (current_cluster_idx e) (cinfo e) p.

Definition set_original_size (b : scfs_cluster_buffer) (n : Z) :=
  mk_cbuf (c_buffer b) (c_page b) (u_buffer b) (u_page b) n.

Definition set_data_compressable (s : scfs_inode_info) (v : bool) :=
  mk_sii v (meta_invalid s) (cluster_size s) (sii_comp_type s) (compressed s)
    (cinfo_array s) (cinfo_array_size s) (cinfo_list s) (cinfo_list_mutex s)
    (lower_file s) (lower_file_count s) (lower_file_mutex s)
    (upper_file_size s) (i_size s) (cluster_buffer s).

Definition set_meta_invalid (s : scfs_inode_info) (v : bool) :=
  mk_sii (data_compressable s) v (cluster_size s) (sii_comp_type s) (compressed s)
    (cinfo_array s) (cinfo_array_size s) (cinfo_list s) (cinfo_list_mutex s)
    (lower_file s) (lower_file_count s) (lower_file_mutex s)
    (upper_file_size s) (i_size s) (cluster_buffer s).

Definition set_compressed (s : scfs_inode_info) (v : bool) :=
  mk_sii (data_compressable s) (meta_invalid s) (cluster_size s) (sii_comp_type s) v
    (cinfo_array s) (cinfo_array_size s) (cinfo_list s) (cinfo_list_mutex s)
    (lower_file s) (lower_file_count s) (lower_file_mutex s)
    (upper_file_size s) (i_size s) (cluster_buffer s).

Definition set_cinfo_array (s : scfs_inode_info) (v : option (list scfs_cinfo)) :=
  mk_sii (data_compressable s) (meta_invalid s) (cluster_size s) (sii_comp_type s)
    (compressed s) v (cinfo_array_size s) (cinfo_list s) (cinfo_list_mutex s)
    (lower_file s) (lower_file_count s) (lower_file_mutex s)
    (upper_file_size s) (i_size s) (cluster_buffer s).

Definition set_cinfo_array_size (s : scfs_inode_info) (v : Z) :=
  mk_sii (data_compressable s) (meta_invalid s) (cluster_size s) (sii_comp_type s)
    (compressed s) (cinfo_array s) v (cinfo_list s) (cinfo_list_mutex s)
    (lower_file s) (lower_file_count s) (lower_file_mutex s)
    (upper_file_size s) (i_size s) (cluster_buffer s).

Definition set_cinfo_list (s : scfs_inode_info) (v : list cinfo_entry) :=
  mk_sii (data_compressable s) (meta_invalid s) (cluster_size s) (sii_comp_type s)
    (compressed s) (cinfo_array s) (cinfo_array_size s) v (cinfo_list_mutex s)
    (lower_file s) (lower_file_count s) (lower_file_mutex s)
    (upper_file_size s) (i_size s) (cluster_buffer s).

Definition set_cinfo_list_mutex (s : scfs_inode_info) (v : bool) :=
  mk_sii (data_compressable s) (meta_invalid s) (cluster_size s) (sii_comp_type s)
    (compressed s) (cinfo_array s) (cinfo_array_size s) (cinfo_list s) v
    (lower_file s) (lower_file_count s) (lower_file_mutex s)
    (upper_file_size s) (i_size s) (cluster_buffer s).

Definition set_lower_file (s : scfs_inode_info) (v : option nat) :=
  mk_sii (data_compressable s) (meta_invalid s) (cluster_size s) (sii_comp_type s)
    (compressed s) (cinfo_array s) (cinfo_array_size s) (cinfo_list s)
    (cinfo_list_mutex s) v (lower_file_count s) (lower_file_mutex s)
    (upper_file_size s) (i_size s) (cluster_buffer s).

Definition set_lower_file_count (s : scfs_inode_info) (v : Z) :=
  mk_sii (data_compressable s) (meta_invalid s) (cluster_size s) (sii_comp_type s)
    (compressed s) (cinfo_array s) (cinfo_array_size s) (cinfo_list s)
    (cinfo_list_mutex s) (lower_file s) v (lower_file_mutex s)
    (upper_file_size s) (i_size s) (cluster_buffer s).

Definition set_lower_file_mutex (s : scfs_inode_info) (v : bool) :=
  mk_sii (data_compressable s) (meta_invalid s) (cluster_size s) (sii_comp_type s)
    (compressed s) (cinfo_array s) (cinfo_array_size s) (cinfo_list s)
    (cinfo_list_mutex s) (lower_file s) (lower_file_count s) v
    (upper_file_size s) (i_size s) (cluster_buffer s).

Definition set_upper_file_size (s : scfs_inode_info) (v : Z) :=
  mk_sii (data_compressable s) (meta_invalid s) (cluster_size s) (sii_comp_type s)
    (compressed s) (cinfo_array s) (cinfo_array_size s) (cinfo_list s)
    (cinfo_list_mutex s) (lower_file s) (lower_file_count s) (lower_file_mutex s)
    v (i_size s) (cluster_buffer s).

Definition set_i_size (s : scfs_inode_info) (v : Z) :=
  mk_sii (data_compressable s) (meta_invalid s) (cluster_size s) (sii_comp_type s)
    (compressed s) (cinfo_array s) (cinfo_array_size s) (cinfo_list s)
    (cinfo_list_mutex s) (lower_file s) (lower_file_count s) (lower_file_mutex s)
    (upper_file_size s) v (cluster_buffer s).

Definition set_cluster_buffer (s : scfs_inode_info) (v : scfs_cluster_buffer) :=
  mk_sii (data_compressable s) (meta_invalid s) (cluster_size s) (sii_comp_type s)
    (compressed s) (cinfo_array s) (cinfo_array_size s) (cinfo_list s)
    (cinfo_list_mutex s) (lower_file s) (lower_file_count s) (lower_file_mutex s)
    (upper_file_size s) (i_size s) v.

Definition add_total_cluster_count (b : scfs_sb_info) (d : Z) :=
  mk_sbi (total_cluster_count b + d) (current_file_count b) (current_data_size b)
    (comp_threshold b).

Definition add_current_file_count (b : scfs_sb_info) (d : Z) :=
  mk_sbi (total_cluster_count b) (current_file_count b + d) (current_data_size b)
    (comp_threshold b).

Definition add_current_data_size (b : scfs_sb_info) (d : Z) :=
  mk_sbi (total_cluster_count b) (current_file_count b) (current_data_size b + d)
    (comp_threshold b).

Definition with_sii (w : world) (s : scfs_inode_info) :=
  mk_world s (sbi w) (lower_i_size w) (lower_i_mutex w) (lzo_workmem w)
    (tfm_handles w) (clock w) (log w).

Definition with_sbi (w : world) (b : scfs_sb_info) :=
  mk_world (sii w) b (lower_i_size w) (lower_i_mutex w) (lzo_workmem w)
    (tfm_handles w) (clock w) (log w).

Definition with_lower_i_size (w : world) (n : Z) :=
  mk_world (sii w) (sbi w) n (lower_i_mutex w) (lzo_workmem w)
    (tfm_handles w) (clock w) (log w).

Definition with_lower_i_mutex (w : world) (v : bool) :=
  mk_world (sii w) (sbi w) (lower_i_size w) v (lzo_workmem w)
    (tfm_handles w) (clock w) (log w).

Definition with_lzo_workmem (w : world) (v : bool) :=
  mk_world (sii w) (sbi w) (lower_i_size w) (lower_i_mutex w) v
    (tfm_handles w) (clock w) (log w).

Definition with_tfm_handle (w : world) (algo : comp_type) (v : bool) :=
  mk_world (sii w) (sbi w) (lower_i_size w) (lower_i_mutex w) (lzo_workmem w)
    (fun a => if comp_type_eqb a algo then v else tfm_handles w a) (clock w) (log w).

Definition tick (w : world) (e : event) :=
  mk_world (sii w) (sbi w) (lower_i_size w) (lower_i_mutex w) (lzo_workmem w)
    (tfm_handles w) (S (clock w)) (log w ++ [e]).

Definition emit (w : world) (e : event) :=
  mk_world (sii w) (sbi w) (lower_i_size w) (lower_i_mutex w) (lzo_workmem w)
    (tfm_handles w) (clock w) (log w ++ [e]).

(** ** Computations *)

Inductive halt := Blocked (m : mutex) | AssertFailed | WildPointer | StillRunning.

Inductive outcome (A : Type) :=
| Done (a : A) (w : world)
| Halt (h : halt) (w : world).
Arguments Done {A} a w.
Arguments Halt {A} h w.

Definition M (A : Type) := world -> outcome A.

Definition Return {A} (a : A) : M A := fun w => Done a w.

Definition bind {A B} (m : M A) (k : A -> M B) : M B :=
  fun w => match m w with
           | Done a w' => k a w'
           | Halt h w' => Halt h w'
           end.

Declare Scope scfs_scope.
Delimit Scope scfs_scope with scfs.
Notation "x <- c1 ;; c2" := (bind c1 (fun x => c2))
  (at level 61, c1 at next level, right associativity) : scfs_scope.
Notation "' pat <- c1 ;; c2" := (bind c1 (fun x => match x with pat => c2 end))
  (at level 61, pat pattern, c1 at next level, right associativity) : scfs_scope.
Notation "c1 ;; c2" := (bind c1 (fun _ => c2))
  (at level 61, right associativity) : scfs_scope.
Local Open Scope scfs_scope.

Definition get_sii : M scfs_inode_info := fun w => Done (sii w) w.
Definition get_sbi : M scfs_sb_info := fun w => Done (sbi w) w.
Definition get_world : M world := fun w => Done w w.
Definition modify_sii (f : scfs_inode_info -> scfs_inode_info) : M unit :=
  fun w => Done tt (with_sii w (f (sii w))).
Definition modify_sbi (f : scfs_sb_info -> scfs_sb_info) : M unit :=
  fun w => Done tt (with_sbi w (f (sbi w))).
Definition modify_world (f : world -> world) : M unit :=
  fun w => Done tt (f w).
Definition halt_with {A} (h : halt) : M A := fun w => Halt h w.

(** An action on the kernel that asks nothing back. *)
Definition do_event (e : event) : M unit := fun w => Done tt (emit w e).

(** A call out of the file: the answer is the environment's at the current
    [clock]; the call is logged and the clock advances. *)
Definition call {A} (answer : nat -> A) (e : A -> event) : M A :=
  fun w => let a := answer (clock w) in Done a (tick w (e a)).

(** ASSERT() of scfs.h: the file does not go on past a failed assertion. *)
Definition ASSERT (b : bool) : M unit :=
  if b then Return tt else halt_with AssertFailed.

Definition mutex_held (m : mutex) (w : world) : bool :=
  match m with
  | CINFO_LIST_MUTEX => cinfo_list_mutex (sii w)
  | LOWER_FILE_MUTEX => lower_file_mutex (sii w)
  | LOWER_I_MUTEX => lower_i_mutex w
  end.

Definition set_mutex (m : mutex) (v : bool) (w : world) : world :=
  match m with
  | CINFO_LIST_MUTEX => with_sii w (set_cinfo_list_mutex (sii w) v)
  | LOWER_FILE_MUTEX => with_sii w (set_lower_file_mutex (sii w) v)
  | LOWER_I_MUTEX => with_lower_i_mutex w v
  end.

(** A kernel mutex is not recursive: locking a held one waits for ever. *)
Definition mutex_lock (m : mutex) : M unit :=
  fun w => if mutex_held m w then Halt (Blocked m) w
           else Done tt (emit (set_mutex m true w) (ev_mutex_lock m)).

Definition mutex_unlock (m : mutex) : M unit :=
  fun w => Done tt (emit (set_mutex m false w) (ev_mutex_unlock m)).

Definition make_meta_invalid : M unit := modify_sii (fun s => set_meta_invalid s true).
Definition clear_meta_invalid : M unit := modify_sii (fun s => set_meta_invalid s false).

(** ALIGN(x, a) of linux/kernel.h, [a] a power of two. *)
Definition ALIGN (x a : Z) : Z := Z.land (x + (a - 1)) (Z.lnot (a - 1)).

(** The two fields of [struct scfs_cinfo] are unsigned and 32 bits wide
    (the file prints them with [%u] and hands [&last->cinfo.size] to the
    [int *] of [scfs_compress]): arithmetic on them alone is done in that
    type, and [u32] is what it keeps of a result. *)
Definition u32 (x : Z) : Z := x mod 2 ^ 32.

Section SCFS.

Variable hdr : scfs_h.
Variable env : kernel_env.

(** ** Lower I/O (scfs_lower_read, scfs_lower_write)

    The two bodies are the same loop, one over [vfs_read] and one over
    [vfs_write]: [io] is the primitive, [ev] its record in the log, and
    [grows] says whether a transfer can extend the lower file.  [done] is
    the C variable [read] (resp. [written]); [fuel] bounds the number of
    iterations that are followed. *)
Fixpoint lower_io_loop (io : nat -> Z -> Z) (ev : Z -> Z -> Z -> event)
    (grows : bool) (fuel : nat) (count done retry pos : Z) : M (Z * Z) :=
  if done <? count then
    match fuel with
    | O => halt_with StillRunning
    | S fuel' =>
        ret <- call (fun t => io t (count - done)) (ev (count - done) pos) ;;
        if ret <? 0 then
          if (ret =? - EINTR) || (ret =? - EAGAIN) then
            lower_io_loop io ev grows fuel' count done retry pos
          else Return (ret, pos)
        else
          let done' := done + ret in
          let pos' := pos + ret in
          modify_world (fun w =>
            if grows then with_lower_i_size w (Z.max (lower_i_size w) pos') else w) ;;
          let retry' := retry + 1 in
          if retry' >? SCFS_IO_MAX_RETRY hdr then Return (- EIO, pos')
          else lower_io_loop io ev grows fuel' count done' retry' pos'
    end
  else Return (done, pos).

(** [scfs_lower_read(file, buf, count, &pos)]: the value returned and the
    new [*pos]. *)
Definition scfs_lower_read (fuel : nat) (buf : buffer) (count pos : Z) : M (Z * Z) :=
  lower_io_loop (vfs_read env) (ev_vfs_read buf) false fuel count 0 0 pos.

Definition scfs_lower_write (fuel : nat) (buf : buffer) (count pos : Z) : M (Z * Z) :=
  lower_io_loop (vfs_write env) (ev_vfs_write buf) true fuel count 0 0 pos.

(** ** Codec (scfs_decompress, scfs_compress)

    Both return the C return value and the final [*actual]. *)
Definition scfs_decompress (algo : comp_type) (len actual : Z) : M (Z * Z) :=
  let tmp_len := actual in
  match algo with
  | LZO =>
      '(r, out) <- call (fun t => lzo1x_decompress_safe env t len)
                        (fun a => ev_codec false LZO len (fst a) (snd a)) ;;
      let tmp_len := out in
      let ret := if r =? 0 then 0 else - EIO in
      Return (ret, tmp_len)
  | _ =>
      w <- get_world ;;
      ok <- (if tfm_handles w algo then Return true
             else
               ok <- call (alloc_ok env) ev_alloc ;;
               modify_world (fun w => with_tfm_handle w algo ok) ;;
               Return ok) ;;
      if negb ok then Return (- ENOMEM, actual)
      else
        '(r, out) <- call (fun t => crypto_comp_decompress env t algo len)
                          (fun a => ev_codec false algo len (fst a) (snd a)) ;;
        let actual := out in                  (* written through the pointer *)
        let ret := if r =? 0 then 0 else - EIO in
        let actual := tmp_len in              (* *actual = tmp_len; *)
        Return (ret, actual)
  end.

Definition scfs_compress (algo : comp_type) (len actual : Z) : M (Z * Z) :=
  let tmp_len := actual in
  match algo with
  | LZO =>
      w <- get_world ;;
      ok <- (if lzo_workmem w then Return true
             else
               ok <- call (alloc_ok env) ev_alloc ;;
               modify_world (fun w => with_lzo_workmem w ok) ;;
               Return ok) ;;
      if negb ok then Return (- ENOMEM, actual)
      else
        '(r, out) <- call (fun t => lzo1x_1_compress env t len)
                          (fun a => ev_codec true LZO len (fst a) (snd a)) ;;
        let tmp_len := out in
        let ret := if r =? 0 then 0 else - EIO in
        Return (ret, tmp_len)
  | _ =>
      w <- get_world ;;
      ok <- (if tfm_handles w algo then Return true
             else
               ok <- call (alloc_ok env) ev_alloc ;;
               modify_world (fun w => with_tfm_handle w algo ok) ;;
               Return ok) ;;
      if negb ok then Return (- ENOMEM, actual)
      else
        '(r, out) <- call (fun t => crypto_comp_compress env t algo len)
                          (fun a => ev_codec true algo len (fst a) (snd a)) ;;
        let actual := out in                  (* written through the pointer *)
        let ret := if r =? 0 then 0 else - EIO in
        let actual := tmp_len in              (* *actual = tmp_len; *)
        Return (ret, actual)
  end.

(** ** Space admission (scfs_check_space)

    [min_space] is a [size_t]; [buf.f_bavail * PAGE_SIZE] is a [u64]. *)
Definition min_space (b : scfs_sb_info) : Z :=
  (total_cluster_count b * sizeof_scfs_cinfo hdr
   + current_file_count b * sizeof_comp_footer hdr
   + current_data_size b + PAGE_SIZE hdr) mod 2 ^ size_t_bits hdr.

Definition scfs_check_space : M Z :=
  b <- get_sbi ;;
  let min_space := min_space b in
  '(ret, buf) <- call (statfs env) (fun a => ev_statfs (fst a)) ;;
  if negb (ret =? 0) then Return ret
  else if (f_bavail buf * PAGE_SIZE hdr) mod 2 ^ 64 <? min_space then Return (- ENOSPC)
  else Return ret.

(** ** Footer commit (scfs_write_cinfo, scfs_write_meta) *)

Definition list_empty {A} (l : list A) : bool :=
  match l with [] => true | _ => false end.

(** The body of the [list_for_each_safe] loop of [scfs_write_cinfo]: [l] is
    what is left of [sii->cinfo_list], [buf_pos] the offset of the C pointer
    [buf_pos] from [u_buffer]. *)
Fixpoint write_cinfo_loop (fuel : nat) (l : list cinfo_entry)
    (buf_pos written pos : Z) : M (Z * Z) :=
  match l with
  | [] => Return (written, pos)
  | cinfo_entry :: rest =>
      let cinfo_size := sizeof_scfs_cinfo hdr in
      let buf_pos := buf_pos + cinfo_size in                 (* memcpy; buf_pos += *)
      modify_sii (fun s => set_cinfo_list s rest) ;;         (* list_del; free *)
      s <- get_sii ;;
      if (buf_pos >? cluster_size s * 2 - cinfo_size) || list_empty rest then
        '(ret, pos) <- scfs_lower_write fuel U_BUFFER buf_pos pos ;;
        if ret <? 0 then
          make_meta_invalid ;; Return (ret, pos)
        else
          let written := written + ret in
          modify_sbi (fun b =>
            add_total_cluster_count b (- Z.quot ret (sizeof_scfs_cinfo hdr))) ;;
          write_cinfo_loop fuel rest 0 written pos
      else write_cinfo_loop fuel rest buf_pos written pos
  end.

Definition scfs_write_cinfo (fuel : nat) (pos : Z) : M (Z * Z) :=
  s <- get_sii ;;
  ASSERT (compressed s) ;;
  if negb (cinfo_array_size s =? 0) then
    ASSERT (negb (list_empty (cinfo_list s))) ;;
    match cinfo_list s with
    | [] => halt_with WildPointer
    | cinfo_entry :: _ =>
        '(ret, pos) <- scfs_lower_write fuel CINFO_ARRAY
            (sizeof_scfs_cinfo hdr * current_cluster_idx cinfo_entry) pos ;;
        if ret <? 0 then
          make_meta_invalid ;; Return (ret, pos)
        else
          write_cinfo_loop fuel (cinfo_list s) 0 ret pos
    end
  else write_cinfo_loop fuel (cinfo_list s) 0 0 pos.

Definition dummy_entry : cinfo_entry := mk_entry 0 (mk_cinfo 0 0) 0.

(** [last] points at the tail node of the list: a store through it changes
    the node in the list. *)
Definition store_last (e : cinfo_entry) : M unit :=
  modify_sii (fun s => set_cinfo_list s (removelast (cinfo_list s) ++ [e])).

(** Lines 832-870 of [scfs_write_meta]: the staged last cluster is
    compressed and written.  [Some ret]: control goes to [free_out] with
    that [ret]; [None]: control falls through. *)
Definition write_last_cluster (fuel : nat) : M (option Z) :=
  s <- get_sii ;;
  b <- get_sbi ;;
  let last := List.last (cinfo_list s) dummy_entry in
  let orig := original_size (cluster_buffer s) in
  '(ret, sz) <- scfs_compress (sii_comp_type s) orig (size (cinfo last)) ;;
  let last := set_entry_size last sz in
  store_last last ;;
  if negb (ret =? 0) then Return (Some ret)               (* goto free_out *)
  else
    let last := set_entry_pad last
        (ALIGN (size (cinfo last)) (SCFS_CLUSTER_ALIGN_BYTE hdr) - size (cinfo last)) in
    let pos := offset (cinfo last) in
    '(last, source) <-
      (if size (cinfo last) <? Z.quot (orig * comp_threshold b) 100 then
         modify_sii (fun s => set_compressed s true) ;;
         Return (last, C_BUFFER)
       else
         Return (set_entry_size last orig, U_BUFFER)) ;;
    store_last last ;;
    '(ret, pos) <- scfs_lower_write fuel source (size (cinfo last) + pad last) pos ;;
    if ret <? 0 then
      make_meta_invalid ;; Return (Some ret)               (* goto free_out *)
    else
      modify_sbi (fun b => add_current_data_size b (- orig)) ;;
      modify_sii (fun s =>
        set_cluster_buffer s (set_original_size (cluster_buffer s) 0)) ;;
      Return None.

(** Lines 887-922: the fixed footer is composed and written at [pos]; a
    lower file that was longer than the end of the footer is cut back to it;
    the flags are settled.  [footer_size] is [cf.footer_size] as line 887
    finds it.  The value is [ret] where control reaches [free_out]. *)
Definition write_footer (fuel : nat) (footer_size pos : Z) : M Z :=
  let footer_size := footer_size + CF_SIZE hdr in
  '(ret, pos) <- scfs_lower_write fuel COMP_FOOTER (CF_SIZE hdr) pos ;;
  if ret <? 0 then
    make_meta_invalid ;; Return ret                        (* goto free_out *)
  else
    w <- get_world ;;
    r2 <- (if pos <? lower_i_size w then
             do_event (ev_truncate_setsize LOWER pos) ;;
             modify_world (fun w => with_lower_i_size w pos) ;;
             mutex_lock LOWER_I_MUTEX ;;
             ret <- call (fun t => notify_change env t pos) (ev_notify_change pos) ;;
             mutex_unlock LOWER_I_MUTEX ;;
             if negb (ret =? 0) then make_meta_invalid ;; Return (Some ret)
             else Return None
           else Return None) ;;
    match r2 with
    | Some ret => Return ret                               (* goto free_out *)
    | None =>
        (if footer_size >? CF_SIZE hdr then make_meta_invalid
         else modify_sii (fun s => set_data_compressable s false)) ;;
        Return 0
    end.

(** Line 871: [ALIGN(last->cinfo.offset + last->cinfo.size,
    SCFS_CLUSTER_ALIGN_BYTE)].  The sum and the ALIGN of it are computed in
    the 32-bit type of the two fields, and only the result is widened to the
    [loff_t] of [pos]. *)
Definition index_pos (last : cinfo_entry) : Z :=
  u32 (ALIGN (u32 (offset (cinfo last) + size (cinfo last)))
             (SCFS_CLUSTER_ALIGN_BYTE hdr)).

(** Lines 871-878, then the footer: the index is flushed behind the last
    cluster when the file used compression. *)
Definition write_index_and_footer (fuel : nat) : M Z :=
  s <- get_sii ;;
  let last := List.last (cinfo_list s) dummy_entry in
  let pos := index_pos last in
  if compressed s then
    '(ret, pos) <- scfs_write_cinfo fuel pos ;;
    if ret <? 0 then Return ret                            (* goto free_out *)
    else write_footer fuel ret pos                         (* cf.footer_size = ret *)
  else write_footer fuel 0 pos.

(** From the first statement after the empty-list test to the point where
    control reaches [free_out]; the value is [ret] there. *)
Definition write_meta_body (fuel : nat) : M Z :=
  s <- get_sii ;;
  if data_compressable s then
    r1 <- (if original_size (cluster_buffer s) >? 0
           then write_last_cluster fuel else Return None) ;;
    match r1 with
    | Some ret => Return ret                               (* goto free_out *)
    | None => write_index_and_footer fuel
    end
  else
    let pos := i_size s in
    modify_sii (fun s => set_cinfo_list s (removelast (cinfo_list s))) ;;
    modify_sbi (fun b => add_total_cluster_count b (- 1)) ;;
    write_footer fuel 0 pos.

Definition buf_free_out (ret : Z) : M Z :=
  s <- get_sii ;;
  (if c_page (cluster_buffer s) then
     modify_sii (fun s => let b := cluster_buffer s in
       set_cluster_buffer s (mk_cbuf false false (u_buffer b) (u_page b) (original_size b)))
   else Return tt) ;;
  s <- get_sii ;;
  (if u_page (cluster_buffer s) then
     modify_sii (fun s => let b := cluster_buffer s in
       set_cluster_buffer s (mk_cbuf (c_buffer b) (c_page b) false false (original_size b))) ;;
     modify_sbi (fun b => add_current_file_count b (- 1))
   else Return tt) ;;
  Return ret.

Definition free_out (ret : Z) : M Z :=
  modify_sii (fun s => set_cinfo_list s []) ;;      (* every node freed *)
  mutex_unlock CINFO_LIST_MUTEX ;;
  buf_free_out ret.

Definition scfs_write_meta (fuel : nat) : M Z :=
  mutex_lock CINFO_LIST_MUTEX ;;
  s <- get_sii ;;
  if list_empty (cinfo_list s) then
    mutex_unlock CINFO_LIST_MUTEX ;;
    buf_free_out 0
  else
    ret <- write_meta_body fuel ;;
    free_out ret.

(** ** Lower-file session (scfs_initialize_lower_file, scfs_get_lower_file,
       scfs_put_lower_file) *)

Definition scfs_initialize_lower_file : M Z :=
  w <- get_world ;;
  ret <- call (scfs_privileged_open env) ev_privileged_open ;;
  if negb (ret =? 0) then
    modify_sii (fun s => set_lower_file s None) ;;
    Return ret
  else
    modify_sii (fun s => set_lower_file s (Some (clock w))) ;;
    Return ret.

Definition scfs_get_lower_file : M Z :=
  mutex_lock LOWER_FILE_MUTEX ;;
  s <- get_sii ;;
  let count := lower_file_count s + 1 in                   (* atomic_inc_return *)
  modify_sii (fun s => set_lower_file_count s count) ;;
  ret <- (if count <? 1 then Return (- EINVAL)
          else if count =? 1 then
            ret <- scfs_initialize_lower_file ;;
            (if negb (ret =? 0)
             then modify_sii (fun s => set_lower_file_count s 0)
             else Return tt) ;;
            Return ret
          else Return 0) ;;
  mutex_unlock LOWER_FILE_MUTEX ;;
  Return ret.

(** [atomic_dec_and_mutex_lock(cnt, lock)] of the kernel: the count is
    decremented; when that makes it zero the mutex is taken first and the
    result is true. *)
Definition atomic_dec_and_mutex_lock : M bool :=
  s <- get_sii ;;
  if lower_file_count s =? 1 then
    mutex_lock LOWER_FILE_MUTEX ;;
    modify_sii (fun s => set_lower_file_count s 0) ;;
    Return true
  else
    modify_sii (fun s => set_lower_file_count s (lower_file_count s - 1)) ;;
    Return false.

Definition scfs_put_lower_file (fuel : nat) : M unit :=
  zero <- atomic_dec_and_mutex_lock ;;
  if zero then
    do_event ev_filemap_write_and_wait ;;
    ret <- scfs_write_meta fuel ;;
    do_event ev_fput ;;
    modify_sii (fun s => set_lower_file s None) ;;
    mutex_unlock LOWER_FILE_MUTEX
  else Return tt.

(** ** Cluster index (scfs_reload_meta, get_cluster_info) *)

Definition call_footer_read : M Z :=
  fun w => let '(ret, s') := scfs_footer_read env (clock w) (sii w) in
           Done ret (tick (with_sii w s') (ev_footer_read ret)).

(** [scfs_cinfo_free(sii, sii->cinfo_array)] (lines 1351-1370) hands the
    block back with [kfree] or [vfree].  [sii->cinfo_array] is not written:
    it still holds the address, so it is not NULL, and there is no longer a
    descriptor that can be read through it. *)
Definition scfs_cinfo_free : M unit :=
  modify_sii (fun s => set_cinfo_array s (Some [])).

(** Lines 111-128 of [scfs_reload_meta]: the array is allocated and read
    from the lower file.  The value is [ret] where control reaches [out]. *)
Definition reload_cinfo_array (fuel : nat) : M Z :=
  s <- get_sii ;;
  r <- (if negb (cinfo_array_size s =? 0) then
          ok <- call (alloc_ok env) ev_alloc ;;
          if negb ok then Return (inl (- ENOMEM))
          else
            w <- get_world ;;
            let pos := lower_i_size w - cinfo_array_size s - sizeof_comp_footer hdr in
            ASSERT (pos >? 0) ;;
            '(ret, _) <- scfs_lower_read fuel CINFO_ARRAY (cinfo_array_size s) pos ;;
            if ret <? 0 then Return (inl ret)
            else
              w <- get_world ;;
              Return (inr (Some (read_cinfo_array env (clock w))))
        else Return (inr None)) ;;
  match r with
  | inl ret => Return ret                                  (* goto out *)
  | inr buf =>
      modify_sii (fun s => set_cinfo_array s buf) ;;
      clear_meta_invalid ;;
      Return 0
  end.

Definition scfs_reload_meta (fuel : nat) : M Z :=
  s <- get_sii ;;
  ASSERT (meta_invalid s) ;;
  ret <- call_footer_read ;;
  if negb (ret =? 0) then Return ret
  else
    ret <- scfs_get_lower_file ;;
    if negb (ret =? 0) then Return ret
    else
      s <- get_sii ;;
      (match cinfo_array s with                              (* lines 106-107 *)
       | Some _ => scfs_cinfo_free
       | None => Return tt
       end) ;;
      ret <- reload_cinfo_array fuel ;;
      scfs_put_lower_file fuel ;;                            (* out: *)
      Return ret.

(** CLUSTER_COUNT(sii), PAGE_TO_CLUSTER_INDEX(page, sii) and
    PGOFF_IN_CLUSTER(page, sii) are macros of scfs.h; a page is given by its
    [index]. *)
Variable CLUSTER_COUNT : scfs_inode_info -> Z.
Variable PAGE_TO_CLUSTER_INDEX : Z -> scfs_inode_info -> Z.
Variable PGOFF_IN_CLUSTER : Z -> scfs_inode_info -> Z.

Definition to_size_t (x : Z) : Z := x mod 2 ^ size_t_bits hdr.

(** The test of line 181, negated: the index is past the committed array. *)
Definition past_cinfo_array (s : scfs_inode_info) (cluster_idx : Z) : bool :=
  negb (to_size_t (cluster_idx * sizeof_scfs_cinfo hdr) <? to_size_t (cinfo_array_size s)).

(** How the [list_for_each_safe] loop of [get_cluster_info] is left. *)
Inductive scan_exit :=
| exit_below (e : cinfo_entry)       (* line 195: return -EINVAL *)
| exit_found (e : cinfo_entry)       (* line 201: goto out *)
| exit_end.                          (* the loop ran off the list *)

Fixpoint scan_cinfo_list (l : list cinfo_entry) (cluster_idx : Z) : scan_exit :=
  match l with
  | [] => exit_end
  | cinfo_entry :: rest =>
      if current_cluster_idx cinfo_entry <? cluster_idx then exit_below cinfo_entry
      else if current_cluster_idx cinfo_entry =? cluster_idx then exit_found cinfo_entry
      else scan_cinfo_list rest cluster_idx
  end.

(** Lines 181-214: the C return value and the final [*target]. *)
Definition cluster_info_lookup (cluster_idx : Z) (target : scfs_cinfo)
  : M (Z * scfs_cinfo) :=
  s <- get_sii ;;
  if negb (past_cinfo_array s cluster_idx) then
    match cinfo_array s with
    | None => halt_with WildPointer
    | Some arr =>
        match nth_error arr (Z.to_nat cluster_idx) with
        | None => halt_with WildPointer
        | Some cinfo => Return (0, mk_cinfo (offset cinfo) (size cinfo))
        end
    end
  else
    mutex_lock CINFO_LIST_MUTEX ;;
    s <- get_sii ;;
    if list_empty (cinfo_list s) then Return (- EINVAL, target)
    else
      match scan_cinfo_list (cinfo_list s) cluster_idx with
      | exit_below _ => Return (- EINVAL, target)
      | exit_found e =>
          mutex_unlock CINFO_LIST_MUTEX ;;
          Return (0, mk_cinfo (offset (cinfo e)) (size (cinfo e)))
      | exit_end =>
          mutex_unlock CINFO_LIST_MUTEX ;;
          Return (- EIO, target)
      end.

Definition get_cluster_info (fuel : nat) (cluster_idx : Z) (target : scfs_cinfo)
  : M (Z * scfs_cinfo) :=
  s <- get_sii ;;
  ASSERT (data_compressable s) ;;
  ret <- (if meta_invalid s then scfs_reload_meta fuel else Return 0) ;;
  if negb (ret =? 0) then Return (ret, target)
  else
    s <- get_sii ;;
    if cluster_idx + 1 >? CLUSTER_COUNT s then Return (- EINVAL, target)
    else cluster_info_lookup cluster_idx target.

(** ** Cluster read (scfs_read_cluster) *)

(** Lines 495-502: with SCFS_REMOVE_NO_COMPRESSED_UPPER_MEMCPY a raw
    cluster is read page-wise into the mapped page; otherwise the whole
    cluster goes to [buf_c]. *)
Definition lower_read_args (index : Z) (s : scfs_inode_info)
    (compressed size pos : Z) : buffer * Z * Z :=
  if SCFS_REMOVE_NO_COMPRESSED_UPPER_MEMCPY hdr && (compressed =? 0) then
    let size := size - PGOFF_IN_CLUSTER index s * PAGE_SIZE hdr in
    let size := if size >? PAGE_SIZE hdr then PAGE_SIZE hdr else size in
    (PAGE_BUF, size, pos + PGOFF_IN_CLUSTER index s * PAGE_SIZE hdr)
  else (C_BUFFER, size, pos).

(** Lines 526-544: the cluster read into [buf_c] is decompressed. *)
Definition decompress_cluster (s : scfs_inode_info) (size compressed : Z) : M (Z * Z) :=
  '(ret, actual) <- scfs_decompress (sii_comp_type s) size (cluster_size s) ;;
  if negb (ret =? 0) then
    do_event ev_ClearPageUptodate ;;
    do_event ev_unlock_page ;;
    Return (ret, compressed)
  else Return (ret, compressed).

(** [page->index * PAGE_SIZE] of line 426.  Both factors are
    [unsigned long], which is as wide as [size_t]: a product that does not
    fit is cut to its low bits.  ([index] is the value of an unsigned
    field: it is not negative.) *)
Definition page_offset (index : Z) : Z :=
  let product := index * PAGE_SIZE hdr in
  if product <? 2 ^ size_t_bits hdr then product else to_size_t product.

(** [scfs_read_cluster]: [index] is [page->index], [lf] is [scfs_lower_file(file)], [compressed]
    the value of [*compressed] on entry; the result is the C return value
    and the final [*compressed]. *)
Definition scfs_read_cluster (fuel : nat) (index : Z) (lf : option nat)
    (compressed : Z) : M (Z * Z) :=
  s <- get_sii ;;
  let i_size := i_size s in
  if i_size =? 0 then
    do_event ev_unlock_page ;; Return (0, compressed)
  else if page_offset index >=? i_size then
    do_event ev_unlock_page ;; Return (0, compressed)
  else
    let tmp := Z.quot i_size (cluster_size s) in
    let left := Z.rem i_size (cluster_size s) in           (* do_div *)
    let tmp := if negb (left =? 0) then tmp + 1 else tmp in
    let last_cluster_idx := tmp - 1 in
    let cluster_idx := PAGE_TO_CLUSTER_INDEX index s in
    if cluster_idx >? last_cluster_idx then Return (- ERANGE, compressed)
    else
      r <- (if data_compressable s then
              '(ret, cinfo) <- get_cluster_info fuel cluster_idx (mk_cinfo 0 0) ;;
              if negb (ret =? 0) then Return (inl ret)
              else
                s <- get_sii ;;
                if (size cinfo =? 0) || (size cinfo >? cluster_size s) then
                  Return (inl (- EINVAL))
                else
                  let compressed :=
                    if size cinfo =? cluster_size s then 0
                    else if (cluster_idx =? last_cluster_idx) && (left =? size cinfo)
                         then 0 else 1 in
                  Return (inr (compressed, size cinfo, offset cinfo))
            else
              let size := if (cluster_idx =? last_cluster_idx) && negb (left =? 0)
                          then left else cluster_size s in
              Return (inr (0, size, cluster_idx * cluster_size s))) ;;
      match r with
      | inl ret => Return (ret, compressed)
      | inr (compressed, size, pos) =>
          match lf with
          | None => Return (- EINVAL, compressed)
          | Some _ =>
              s <- get_sii ;;
              let '(buf, size, pos) := lower_read_args index s compressed size pos in
              '(ret, _) <- scfs_lower_read fuel buf size pos ;;
              if ret <? 0 then
                do_event ev_unlock_page ;; Return (ret, compressed)
              else if negb (compressed =? 0) then
                decompress_cluster s size compressed
              else Return (0, compressed)
          end
      end.

(** ** Truncate (scfs_truncate) *)

Definition call_initialize_file : M Z :=
  fun w => let '(ret, s') := scfs_initialize_file env (clock w) (sii w) in
           Done ret (tick (with_sii w s') (ev_initialize_file ret)).

Definition scfs_truncate (size : Z) : M Z :=
  if negb (size =? 0) then Return (- EINVAL)
  else
    do_event (ev_truncate_setsize UPPER size) ;;
    modify_sii (fun s => set_i_size s size) ;;
    mutex_lock CINFO_LIST_MUTEX ;;
    modify_sii (fun s => set_cinfo_list s []) ;;            (* list_del; free, each node *)
    mutex_unlock CINFO_LIST_MUTEX ;;
    mutex_lock LOWER_I_MUTEX ;;
    ret <- call (fun t => notify_change env t size) (ev_notify_change size) ;;
    modify_world (fun w => if ret =? 0 then with_lower_i_size w size else w) ;;
    mutex_unlock LOWER_I_MUTEX ;;
    if negb (ret =? 0) then Return ret
    else
      ret <- call_initialize_file ;;
      if negb (ret =? 0) then
        make_meta_invalid ;; Return ret
      else
        modify_sii (fun s => set_cinfo_array s None) ;;
        modify_sii (fun s => set_cinfo_array_size s 0) ;;
        modify_sii (fun s => set_upper_file_size s 0) ;;
        modify_sii (fun s =>
          set_cluster_buffer s (set_original_size (cluster_buffer s) 0)) ;;
        clear_meta_invalid ;;
        Return ret.

End SCFS.

(** * The rest of the file

    The functions of scfs.c that stage clusters for the commit, move pages
    in and out of the cluster buffer, read the mount options and set up the
    slab caches. *)

(** ** Staging (scfs_alloc_cinfo_entry, scfs_get_cluster_from_lower,
       scfs_get_comp_buffer) *)

Section Staging.

Variable hdr : scfs_h.
Variable env : kernel_env.

(** [page_address(page)] of the kernel, for the page handed out at the
    current [clock]: whether the result is non-NULL. *)
Variable page_address : nat -> bool.

(** [scfs_alloc_cinfo_entry(cluster_index, sii)]: [None] is NULL.  The node
    comes zeroed from [kmem_cache_zalloc] and goes to the tail of
    [sii->cinfo_list]. *)
Definition scfs_alloc_cinfo_entry (cluster_index : Z) : M (option cinfo_entry) :=
  ok <- call (alloc_ok env) ev_alloc ;;
  if negb ok then Return None
  else
    let new_entry := mk_entry cluster_index (mk_cinfo 0 0) 0 in
    modify_sii (fun s => set_cinfo_list s (cinfo_list s ++ [new_entry])) ;;
    modify_sbi (fun b => add_total_cluster_count b 1) ;;
    Return (Some new_entry).

Definition store_original_size (n : Z) : M unit :=
  modify_sii (fun s => set_cluster_buffer s (set_original_size (cluster_buffer s) n)).

(** [scfs_get_cluster_from_lower(sii, lower_file, clust_info)] *)
Definition scfs_get_cluster_from_lower (fuel : nat) (clust_info : scfs_cinfo) : M Z :=
  s <- get_sii ;;
  if size clust_info >? cluster_size s then Return (- EINVAL)
  else
    let pos := offset clust_info in
    if data_compressable s && (size clust_info <? cluster_size s) then
      let i_size := i_size s in
      if Z.rem i_size (cluster_size s) =? size clust_info then      (* do_div *)
        '(ret, _) <- scfs_lower_read hdr env fuel U_BUFFER (size clust_info) pos ;;
        if ret <? 0 then Return ret
        else
          store_original_size (size clust_info) ;;
          Return 0
      else
        let len := cluster_size s in
        '(ret, _) <- scfs_lower_read hdr env fuel C_BUFFER (size clust_info) pos ;;
        if ret <? 0 then Return ret
        else
          '(ret, len) <- scfs_decompress env (sii_comp_type s) (size clust_info) len ;;
          if negb (ret =? 0) then Return (- EIO)
          else
            store_original_size len ;;
            Return 0
    else
      '(ret, _) <- scfs_lower_read hdr env fuel U_BUFFER (size clust_info) pos ;;
      if ret <? 0 then Return ret
      else
        store_original_size (size clust_info) ;;
        Return 0.

Definition set_u_page (b : scfs_cluster_buffer) (v : bool) :=
  mk_cbuf (c_buffer b) (c_page b) (u_buffer b) v (original_size b).

Definition set_u_buffer (b : scfs_cluster_buffer) (v : bool) :=
  mk_cbuf (c_buffer b) (c_page b) v (u_page b) (original_size b).

Definition set_c_page (b : scfs_cluster_buffer) (v : bool) :=
  mk_cbuf (c_buffer b) v (u_buffer b) (u_page b) (original_size b).

Definition set_c_buffer (b : scfs_cluster_buffer) (v : bool) :=
  mk_cbuf v (c_page b) (u_buffer b) (u_page b) (original_size b).

Definition modify_cluster_buffer (f : scfs_cluster_buffer -> scfs_cluster_buffer) : M unit :=
  modify_sii (fun s => set_cluster_buffer s (f (cluster_buffer s))).

(** Lines 1049-1060: [Some ret] is an early return. *)
Definition get_u_buffer : M (option Z) :=
  s <- get_sii ;;
  if negb (u_buffer (cluster_buffer s)) then
    ok <- call (alloc_ok env) ev_alloc ;;                  (* alloc_pages *)
    modify_cluster_buffer (fun b => set_u_page b ok) ;;
    if negb ok then Return (Some (- ENOMEM))
    else
      w <- get_world ;;
      let addr := page_address (clock w) in
      modify_cluster_buffer (fun b => set_u_buffer b addr) ;;
      if negb addr then Return (Some (- ENOMEM))
      else
        modify_sbi (fun b => add_current_file_count b 1) ;;
        Return None
  else Return None.

(** Lines 1062-1072 *)
Definition get_c_buffer : M (option Z) :=
  s <- get_sii ;;
  if negb (c_buffer (cluster_buffer s)) then
    ok <- call (alloc_ok env) ev_alloc ;;                  (* alloc_pages *)
    modify_cluster_buffer (fun b => set_c_page b ok) ;;
    if negb ok then Return (Some (- ENOMEM))
    else
      w <- get_world ;;
      let addr := page_address (clock w) in
      modify_cluster_buffer (fun b => set_c_buffer b addr) ;;
      if negb addr then Return (Some (- ENOMEM))
      else Return None
  else Return None.

Definition scfs_get_comp_buffer : M Z :=
  r <- get_u_buffer ;;
  match r with
  | Some ret => Return ret
  | None =>
      r <- get_c_buffer ;;
      match r with
      | Some ret => Return ret
      | None => Return 0
      end
  end.

End Staging.

(** ** Pages and the cluster buffer (sync_page_to_buffer,
       sync_page_from_buffer)

    Here the bytes matter: a mapped page and the cluster buffer are lists of
    bytes, and a copy that would leave either of them has no result. *)

Section Pages.

Variable hdr : scfs_h.
Variable PGOFF_IN_CLUSTER : Z -> scfs_inode_info -> Z.

(** [memcpy(dest + doff, src + soff, n)]: the new contents of [dest]. *)
Definition memcpy (dest : list Byte.byte) (doff : Z) (src : list Byte.byte)
    (soff n : Z) : option (list Byte.byte) :=
  if (0 <=? n) && (0 <=? doff) && (doff + n <=? Z.of_nat (length dest))
     && (0 <=? soff) && (soff + n <=? Z.of_nat (length src)) then
    Some (firstn (Z.to_nat doff) dest
          ++ firstn (Z.to_nat n) (skipn (Z.to_nat soff) src)
          ++ skipn (Z.to_nat (doff + n)) dest)
  else None.

(** [sync_page_to_buffer(page, buffer)]: the new contents of [buffer];
    [index] is [page->index], [s] the inode information of its mapping. *)
Definition sync_page_to_buffer (index : Z) (s : scfs_inode_info)
    (page buffer : list Byte.byte) : option (list Byte.byte) :=
  let source_addr := page in                                  (* kmap_atomic *)
  memcpy buffer (PAGE_SIZE hdr * PGOFF_IN_CLUSTER index s) source_addr 0 (PAGE_SIZE hdr).

(** [sync_page_from_buffer(page, buffer)]: the new contents of the page. *)
Definition sync_page_from_buffer (index : Z) (s : scfs_inode_info)
    (page buffer : list Byte.byte) : option (list Byte.byte) :=
  let dest_addr := page in                                    (* kmap_atomic *)
  memcpy dest_addr 0 buffer (PAGE_SIZE hdr * PGOFF_IN_CLUSTER index s) (PAGE_SIZE hdr).

End Pages.

(** ** Mount options (scfs_parse_options, copy_mount_flags_to_inode_flags) *)

(** The tokens of the [match_table_t] of lines 217-231. *)
Inductive scfs_opt :=
| scfs_opt_nocompress
| scfs_opt_cluster_size
| scfs_opt_comp_threshold
| scfs_opt_comp_type
| scfs_opt_err.

(** [sbi->options]; the two bits of [options.flags] the file tests are two
    booleans. *)
Record scfs_mount_options := mk_options {
  opt_data_compressable : bool;      (* flags & SCFS_DATA_COMPRESSABLE *)
  opt_xattr_meta : bool;             (* flags & SCFS_MOUNT_XATTR_META *)
  opt_cluster_size : Z;
  opt_comp_threshold : Z;
  opt_comp_type : comp_type
}.

Definition set_opt_data_compressable (o : scfs_mount_options) (v : bool) :=
  mk_options v (opt_xattr_meta o) (opt_cluster_size o) (opt_comp_threshold o)
    (opt_comp_type o).

Definition set_opt_cluster_size (o : scfs_mount_options) (v : Z) :=
  mk_options (opt_data_compressable o) (opt_xattr_meta o) v (opt_comp_threshold o)
    (opt_comp_type o).

Definition set_opt_comp_threshold (o : scfs_mount_options) (v : Z) :=
  mk_options (opt_data_compressable o) (opt_xattr_meta o) (opt_cluster_size o) v
    (opt_comp_type o).

Definition set_opt_comp_type (o : scfs_mount_options) (v : comp_type) :=
  mk_options (opt_data_compressable o) (opt_xattr_meta o) (opt_cluster_size o)
    (opt_comp_threshold o) v.

Definition set_cluster_size (s : scfs_inode_info) (v : Z) :=
  mk_sii (data_compressable s) (meta_invalid s) v (sii_comp_type s) (compressed s)
    (cinfo_array s) (cinfo_array_size s) (cinfo_list s) (cinfo_list_mutex s)
    (lower_file s) (lower_file_count s) (lower_file_mutex s)
    (upper_file_size s) (i_size s) (cluster_buffer s).

Definition set_sii_comp_type (s : scfs_inode_info) (v : comp_type) :=
  mk_sii (data_compressable s) (meta_invalid s) (cluster_size s) v (compressed s)
    (cinfo_array s) (cinfo_array_size s) (cinfo_list s) (cinfo_list_mutex s)
    (lower_file s) (lower_file_count s) (lower_file_mutex s)
    (upper_file_size s) (i_size s) (cluster_buffer s).

Section Mount.

Import Ascii String.

(** lib/parser.c: [match_token(p, tokens, args)] gives the token and
    [args[0]] as the C string that starts at [args[0].from];
    [match_int(&args[0], &option)] gives the number, or [None] when it
    returns an error. *)
Variable match_token : string -> scfs_opt * string.
Variable match_int : string -> option Z.

(** scfs.h and the kernel configuration. *)
Variable SCFS_CLUSTER_SIZE_MAX : Z.
Variable SCFS_CLUSTER_SIZE_MIN : Z.
Variable IS_POW2 : Z -> bool.
Variable CONFIG_CRYPTO_ZLIB : bool.
Variable CONFIG_CRYPTO_FASTLZO : bool.

(** What the calls [strsep(&options, ",")] return one after the other, until
    the call that returns NULL. *)
Fixpoint strsep_all (options : string) : list string :=
  match options with
  | EmptyString => [EmptyString]
  | String c rest =>
      if Ascii.eqb c ","%char then EmptyString :: strsep_all rest
      else match strsep_all rest with
           | p :: ps => String c p :: ps
           | [] => [String c EmptyString]
           end
  end.

(** How the [switch] is left. *)
Inductive switch_exit :=
| switch_break (o : scfs_mount_options)
| switch_return (ret : Z).

(** Lines 248-302, for one token [p] that is not empty. *)
Definition parse_option (o : scfs_mount_options) (p : string) : switch_exit :=
  let '(token, arg) := match_token p in
  match token with
  | scfs_opt_nocompress => switch_break (set_opt_data_compressable o false)
  | scfs_opt_cluster_size =>
      match match_int arg with
      | None => switch_return 0
      | Some option =>
          if (option >? SCFS_CLUSTER_SIZE_MAX) || (option <? SCFS_CLUSTER_SIZE_MIN)
          then switch_return (- EINVAL)
          else if negb (IS_POW2 option) then switch_return (- EINVAL)
          else switch_break (set_opt_cluster_size o option)
      end
  | scfs_opt_comp_threshold =>
      match match_int arg with
      | None => switch_return 0
      | Some option =>
          if (option >? 100) || (option <? 0) then switch_return (- EINVAL)
          else switch_break (set_opt_comp_threshold o option)
      end
  | scfs_opt_comp_type =>
      let type := arg in
      if String.eqb type "lzo"%string then switch_break (set_opt_comp_type o LZO)
      else if CONFIG_CRYPTO_ZLIB && String.eqb type "zlib"%string
           then switch_break (set_opt_comp_type o ZLIB)
      else if CONFIG_CRYPTO_FASTLZO && String.eqb type "fastlzo"%string
           then switch_break (set_opt_comp_type o FASTLZO)
      else switch_return (- EINVAL)
  | scfs_opt_err => switch_return (- EINVAL)
  end.

(** The [while] loop over the tokens still to come: the value returned and
    [sbi->options] at the return. *)
Fixpoint parse_loop (o : scfs_mount_options) (ps : list string)
  : Z * scfs_mount_options :=
  match ps with
  | [] => (0, o)
  | p :: ps =>
      match p with
      | EmptyString => parse_loop o ps                          (* continue *)
      | _ =>
          match parse_option o p with
          | switch_break o' => parse_loop o' ps
          | switch_return ret => (ret, o)
          end
      end
  end.

(** [scfs_parse_options(sbi, options)]; [None] is a NULL [options]. *)
Definition scfs_parse_options (o : scfs_mount_options) (options : option string)
  : Z * scfs_mount_options :=
  match options with
  | None => (0, o)
  | Some options => parse_loop o (strsep_all options)
  end.

(** [copy_mount_flags_to_inode_flags(inode, sb)]: the inode information and
    the SCFS_META_XATTR bit of [sii->flags], which comes in as [meta_xattr]. *)
Definition copy_mount_flags_to_inode_flags (s : scfs_inode_info) (meta_xattr : bool)
    (o : scfs_mount_options) : scfs_inode_info * bool :=
  let s := set_cluster_size s (opt_cluster_size o) in
  let s := set_sii_comp_type s (opt_comp_type o) in
  let s := if opt_data_compressable o then set_data_compressable s true else s in
  let meta_xattr := if opt_xattr_meta o then true else meta_xattr in
  (s, meta_xattr).

End Mount.

(** ** Slab caches (scfs_init_kmem_caches, scfs_free_kmem_caches) *)

(** The eight [struct kmem_cache *] of lines 41-48. *)
Inductive scfs_cache :=
| scfs_file_info_cache
| scfs_dentry_info_cache
| scfs_open_req_cache
| scfs_inode_info_cache
| scfs_sb_info_cache
| scfs_header_cache
| scfs_xattr_cache
| scfs_info_entry_list.

Definition scfs_cache_eqb (a b : scfs_cache) : bool :=
  match a, b with
  | scfs_file_info_cache, scfs_file_info_cache
  | scfs_dentry_info_cache, scfs_dentry_info_cache
  | scfs_open_req_cache, scfs_open_req_cache
  | scfs_inode_info_cache, scfs_inode_info_cache
  | scfs_sb_info_cache, scfs_sb_info_cache
  | scfs_header_cache, scfs_header_cache
  | scfs_xattr_cache, scfs_xattr_cache
  | scfs_info_entry_list, scfs_info_entry_list => true
  | _, _ => false
  end.

(** [scfs_cache_infos[]], by the pointer each entry is for. *)
Definition scfs_cache_infos : list scfs_cache :=
  [scfs_file_info_cache; scfs_dentry_info_cache; scfs_inode_info_cache;
   scfs_sb_info_cache; scfs_header_cache; scfs_xattr_cache;
   scfs_info_entry_list; scfs_open_req_cache].

Inductive cache_event :=
| ev_kmem_cache_create (c : scfs_cache) (ok : bool)
| ev_kmem_cache_destroy (c : scfs_cache).

(** The pointers (true: not NULL) and what was asked of the slab allocator,
    in order. *)
Record cache_state := mk_caches {
  cache_ptr : scfs_cache -> bool;
  cache_log : list cache_event
}.

Definition set_cache_ptr (st : cache_state) (c : scfs_cache) (v : bool) :=
  mk_caches (fun c' => if scfs_cache_eqb c' c then v else cache_ptr st c')
            (cache_log st).

Definition cache_emit (st : cache_state) (e : cache_event) :=
  mk_caches (cache_ptr st) (cache_log st ++ [e]).

Section Caches.

(** [kmem_cache_create] for the [n]-th request made of the allocator:
    whether the result is non-NULL. *)
Variable kmem_cache_create : nat -> scfs_cache -> bool.

(** The [for] loop of [scfs_free_kmem_caches] over the entries still to
    come. *)
Fixpoint free_caches_loop (infos : list scfs_cache) (st : cache_state) : cache_state :=
  match infos with
  | [] => st
  | info :: infos =>
      let st := if cache_ptr st info
                then cache_emit st (ev_kmem_cache_destroy info) else st in
      free_caches_loop infos st
  end.

Definition scfs_free_kmem_caches (st : cache_state) : cache_state :=
  free_caches_loop scfs_cache_infos st.

(** The [for] loop of [scfs_init_kmem_caches]. *)
Fixpoint init_caches_loop (infos : list scfs_cache) (st : cache_state)
  : Z * cache_state :=
  match infos with
  | [] => (0, st)
  | info :: infos =>
      let ok := kmem_cache_create (length (cache_log st)) info in
      let st := cache_emit (set_cache_ptr st info ok) (ev_kmem_cache_create info ok) in
      if negb ok then (- ENOMEM, scfs_free_kmem_caches st)
      else init_caches_loop infos st
  end.

Definition scfs_init_kmem_caches (st : cache_state) : Z * cache_state :=
  init_caches_loop scfs_cache_infos st.

End Caches.

(** * Configurations and vocabulary of the statements *)

(** Values of the kind scfs.h has on a 32-bit ARM build. *)
Definition hdr0 : scfs_h := {|
  sizeof_scfs_cinfo := 8;
  sizeof_comp_footer := 24;
  CF_SIZE := 24;
  SCFS_IO_MAX_RETRY := 10;
  SCFS_CLUSTER_ALIGN_BYTE := 4;
  PAGE_SIZE := 4096;
  size_t_bits := 32;
  SCFS_REMOVE_NO_COMPRESSED_UPPER_MEMCPY := false
|}.

(** A kernel in which every call succeeds in full: transfers are complete,
    codecs produce [out] bytes, allocations and opens succeed, the lower
    file system reports [bavail] free blocks of 4096 bytes. *)
Definition env_ok (out : Z) (bavail : Z) : kernel_env := {|
  vfs_read := fun _ count => count;
  vfs_write := fun _ count => count;
  lzo1x_1_compress := fun _ _ => (0, out);
  lzo1x_decompress_safe := fun _ _ => (0, out);
  crypto_comp_compress := fun _ _ _ => (0, out);
  crypto_comp_decompress := fun _ _ _ => (0, out);
  alloc_ok := fun _ => true;
  scfs_privileged_open := fun _ => 0;
  notify_change := fun _ _ => 0;
  statfs := fun _ => (0, mk_kstatfs bavail 4096);
  read_cinfo_array := fun _ => [];
  scfs_footer_read := fun _ s => (0, s);
  scfs_initialize_file := fun _ s => (0, s)
|}.

(** The same kernel with one field replaced. *)
Definition with_vfs_io (e : kernel_env) (rd wr : nat -> Z -> Z) : kernel_env := {|
  vfs_read := rd;
  vfs_write := wr;
  lzo1x_1_compress := lzo1x_1_compress e;
  lzo1x_decompress_safe := lzo1x_decompress_safe e;
  crypto_comp_compress := crypto_comp_compress e;
  crypto_comp_decompress := crypto_comp_decompress e;
  alloc_ok := alloc_ok e;
  scfs_privileged_open := scfs_privileged_open e;
  notify_change := notify_change e;
  statfs := statfs e;
  read_cinfo_array := read_cinfo_array e;
  scfs_footer_read := scfs_footer_read e;
  scfs_initialize_file := scfs_initialize_file e
|}.

Definition with_codec (e : kernel_env) (c d : Z * Z) : kernel_env := {|
  vfs_read := vfs_read e;
  vfs_write := vfs_write e;
  lzo1x_1_compress := fun _ _ => c;
  lzo1x_decompress_safe := fun _ _ => d;
  crypto_comp_compress := fun _ _ _ => c;
  crypto_comp_decompress := fun _ _ _ => d;
  alloc_ok := alloc_ok e;
  scfs_privileged_open := scfs_privileged_open e;
  notify_change := notify_change e;
  statfs := statfs e;
  read_cinfo_array := read_cinfo_array e;
  scfs_footer_read := scfs_footer_read e;
  scfs_initialize_file := scfs_initialize_file e
|}.



(** A compressible file of 4096-byte clusters with [pending] in its list,
    nothing committed, [staged] bytes in the cluster buffer, opened once. *)
Definition sii0 (pending : list cinfo_entry) (staged : Z) : scfs_inode_info := {|
  data_compressable := true;
  meta_invalid := false;
  cluster_size := 4096;
  sii_comp_type := LZO;
  compressed := false;
  cinfo_array := None;
  cinfo_array_size := 0;
  cinfo_list := pending;
  cinfo_list_mutex := false;
  lower_file := Some 0%nat;
  lower_file_count := 1;
  lower_file_mutex := false;
  upper_file_size := 10000;
  i_size := 10000;
  cluster_buffer := mk_cbuf true true true true staged
|}.

Definition sbi0 : scfs_sb_info := {|
  total_cluster_count := 3;
  current_file_count := 1;
  current_data_size := 1808;
  comp_threshold := 100
|}.

Definition world0 (s : scfs_inode_info) : world := {|
  sii := s;
  sbi := sbi0;
  lower_i_size := 0;
  lower_i_mutex := false;
  lzo_workmem := false;
  tfm_handles := fun _ => false;
  clock := 0;
  log := []
|}.

Definition entry (idx off sz : Z) : cinfo_entry := mk_entry idx (mk_cinfo off sz) 0.

(** [m] returns from [w], with a result and a world that satisfy [Q]. *)
Definition returns {A} (m : M A) (w : world) (Q : A -> world -> Prop) : Prop :=
  exists a w', m w = Done a w' /\ Q a w'.

(** [w'] is [w] after kernel traffic only: the inode and superblock
    information and the lower inode's mutex are as they were. *)
Definition io_frame (w w' : world) : Prop :=
  sii w' = sii w /\ sbi w' = sbi w /\ lower_i_mutex w' = lower_i_mutex w.

(** The log of [w'] is the log of [w] and what happened since. *)
Definition log_grows (w w' : world) : Prop := exists evs, log w' = log w ++ evs.

(** The primitive never answers a request with [-EINTR] or [-EAGAIN]. *)
Definition no_transient (io : nat -> Z -> Z) : Prop :=
  forall t c, 0 < c -> io t c <> - EINTR /\ io t c <> - EAGAIN.

(** A lower file system whose every transfer is interrupted. *)
Definition env_eintr : kernel_env :=
  with_vfs_io (env_ok 0 0) (fun _ _ => - EINTR) (fun _ _ => - EINTR).

(** A kernel that moves 30 bytes a time: 100 bytes arrive in four reads. *)
Definition env_short : kernel_env :=
  with_vfs_io (env_ok 0 0) (fun _ c => Z.max 0 (Z.min c 30)) (fun _ c => c).

(** The codecs answer [c] to a compression and [d] to a decompression. *)
Definition env_codec (c d : Z * Z) : kernel_env := with_codec (env_ok 0 0) c d.

(** A stand-in for CLUSTER_COUNT(sii): the clusters of [i_size] bytes. *)
Definition CLUSTER_COUNT0 (s : scfs_inode_info) : Z :=
  (i_size s + cluster_size s - 1) / cluster_size s.

(** The entry is for a cluster behind [cluster_idx]. *)
Definition above (cluster_idx : Z) (e : cinfo_entry) : Prop :=
  cluster_idx < current_cluster_idx e.

(** Clusters 0 and 1 are committed, cluster 2 is pending. *)
Definition sii_committed2 : scfs_inode_info :=
  set_cinfo_array_size
    (set_cinfo_array (sii0 [entry 2 5096 900] 0)
                     (Some [mk_cinfo 0 4096; mk_cinfo 4096 1000])) 16.




(** A lower file system whose transfers are interrupted every time, by
    a signal and by a busy device in turn. *)
Definition env_eintr_eagain : kernel_env :=
  with_vfs_io (env_ok 0 0)
    (fun t _ => if Nat.even t then - EINTR else - EAGAIN)
    (fun t _ => if Nat.even t then - EAGAIN else - EINTR).

(** The file of [sii0] with zlib as its algorithm and a last descriptor
    that holds [stale] as its size when the commit begins. *)
Definition sii_zlib (stale staged : Z) : scfs_inode_info :=
  set_sii_comp_type
    (sii0 [entry 0 0 4096; entry 1 4096 4096; entry 2 8192 stale] staged) ZLIB.


(** Stand-ins for the page macros of scfs.h. *)
Definition PAGE_TO_CLUSTER_INDEX0 (index : Z) (s : scfs_inode_info) : Z :=
  index / (cluster_size s / PAGE_SIZE hdr0).

Definition PGOFF_IN_CLUSTER0 (index : Z) (s : scfs_inode_info) : Z :=
  index mod (cluster_size s / PAGE_SIZE hdr0).

(** What the commit keeps while it runs on behalf of [w0]: the lower
    inode's mutex is free and the log has only grown. *)
Definition Inv (w0 w : world) : Prop :=
  lower_i_mutex w = false /\ log_grows w0 w.

(** The same, and [sii->compressed] is as it was in [w0]. *)
Definition Keeps (w0 w : world) : Prop :=
  Inv w0 w /\ compressed (sii w) = compressed (sii w0).

(** Between [w1] and [w'] the lower file was written from [buf] only, and
    the first transfer asked for [n] bytes at [pos]. *)
Definition stored_from (buf : buffer) (n pos : Z) (w1 w' : world) : Prop :=
  exists evs,
    log w' = log w1 ++ evs /\
    Forall (fun e => exists c q x, e = ev_vfs_write buf c q x) evs /\
    (0 < n -> exists x rest, evs = ev_vfs_write buf n pos x :: rest).

(** The last release, up to the commit: the count is 0, [lower_file_mutex]
    is held, dirty pages have been flushed. *)
Definition release_start (w : world) : world :=
  emit (with_sii (emit (set_mutex LOWER_FILE_MUTEX true w) (ev_mutex_lock LOWER_FILE_MUTEX))
                 (set_lower_file_count (set_lower_file_mutex (sii w) true) 0))
       ev_filemap_write_and_wait.

(** A lock or unlock of a mutex: no traffic with the lower file. *)
Definition is_mutex_event (e : event) : Prop :=
  exists m, e = ev_mutex_lock m \/ e = ev_mutex_unlock m.


(** [sbi->options] holds values that [scfs_parse_options] accepts: a cluster
    size in range that IS_POW2 passes, a threshold that is a percentage, an
    algorithm the configuration has. *)
Definition options_valid (SCFS_CLUSTER_SIZE_MAX SCFS_CLUSTER_SIZE_MIN : Z)
    (IS_POW2 : Z -> bool) (CONFIG_CRYPTO_ZLIB CONFIG_CRYPTO_FASTLZO : bool)
    (o : scfs_mount_options) : Prop :=
  SCFS_CLUSTER_SIZE_MIN <= opt_cluster_size o <= SCFS_CLUSTER_SIZE_MAX /\
  IS_POW2 (opt_cluster_size o) = true /\
  0 <= opt_comp_threshold o <= 100 /\
  (opt_comp_type o = LZO \/
   (opt_comp_type o = ZLIB /\ CONFIG_CRYPTO_ZLIB = true) \/
   (opt_comp_type o = FASTLZO /\ CONFIG_CRYPTO_FASTLZO = true)).

(** What [scfs_compress] needs for [algo] is there: the LZO work memory, or
    the transform of the crypto API. *)
Definition codec_ready (algo : comp_type) (w : world) : bool :=
  match algo with
  | LZO => lzo_workmem w
  | _ => tfm_handles w algo
  end.

(** A lower file at whose end every read stands: [vfs_read] delivers
    nothing. *)
Definition env_eof : kernel_env :=
  with_vfs_io (env_ok 0 0) (fun _ _ => 0) (fun _ c => c).


(** A lower file system that takes one byte a call. *)
Definition env_bytewise : kernel_env :=
  with_vfs_io (env_ok 0 0) (fun _ c => c) (fun _ _ => 1).

(** A file that is not compressible, with its one descriptor. *)
Definition sii_plain : scfs_inode_info :=
  set_data_compressable (sii0 [entry 0 0 0] 0) false.

(** A compressed file with three pending clusters and nothing staged. *)
Definition sii_pending3 : scfs_inode_info :=
  set_compressed (sii0 [entry 0 0 4096; entry 1 4096 1000; entry 2 5096 900] 0) true.

(** A compressed file whose one pending cluster ends 3800 bytes past 4 GiB:
    296 bytes below [2^32] it begins, and it is 4096 bytes long. *)
Definition sii_pending_high : scfs_inode_info :=
  set_compressed (sii0 [entry 0 4294967000 4096] 0) true.


(** A file that has no staging buffers yet. *)
Definition sii_unbuffered : scfs_inode_info :=
  set_cluster_buffer (sii0 [] 0) (mk_cbuf false false false false 0).

(** Clusters of two pages. *)
Definition sii_two_pages : scfs_inode_info := set_cluster_size (sii0 [] 0) 8192.

Section MountStandIns.

Import Ascii String.

(** Stand-ins for lib/parser.c and the macros of scfs.h the mount path uses:
    a token is recognized by its prefix, a number is a run of decimal digits
    that fits an [int]. *)
Fixpoint strip_prefix (pre s : string) : option string :=
  match pre, s with
  | EmptyString, _ => Some s
  | String a pre, String b s =>
      if Ascii.eqb a b then strip_prefix pre s else None
  | String _ _, EmptyString => None
  end.

Definition digit (c : ascii) : option Z :=
  let n := Z.of_nat (nat_of_ascii c) in
  if (48 <=? n) && (n <=? 57) then Some (n - 48) else None.

Fixpoint decimal (acc : Z) (s : string) : option Z :=
  match s with
  | EmptyString => Some acc
  | String c s =>
      match digit c with
      | Some d => decimal (10 * acc + d) s
      | None => None
      end
  end.

Definition match_int0 (s : string) : option Z :=
  match s with
  | EmptyString => None
  | _ => match decimal 0 s with
         | Some n => if n <? 2 ^ 31 then Some n else None
         | None => None
         end
  end.

Definition match_token0 (p : string) : scfs_opt * string :=
  if String.eqb p "nocomp"%string then (scfs_opt_nocompress, EmptyString)
  else match strip_prefix "cluster_size="%string p with
  | Some a => (scfs_opt_cluster_size, a)
  | None =>
  match strip_prefix "comp_threshold="%string p with
  | Some a => (scfs_opt_comp_threshold, a)
  | None =>
  match strip_prefix "comp_type="%string p with
  | Some a => (scfs_opt_comp_type, a)
  | None => (scfs_opt_err, EmptyString)
  end end end.

Definition IS_POW2_0 (n : Z) : bool := negb (n =? 0) && (Z.land n (n - 1) =? 0).

Definition options0 : scfs_mount_options := {|
  opt_data_compressable := true;
  opt_xattr_meta := false;
  opt_cluster_size := 16384;
  opt_comp_threshold := 75;
  opt_comp_type := LZO
|}.

(** [scfs_parse_options] with the stand-ins, cluster sizes from 4 KiB to
    1 MiB, and a kernel without zlib and fastlzo. *)
Definition scfs_parse_options0 :=
  scfs_parse_options match_token0 match_int0 1048576 4096 IS_POW2_0 false false.

End MountStandIns.

(** No cache set up, nothing asked of the slab allocator. *)
Definition caches0 : cache_state := mk_caches (fun _ => false) [].

(** A slab allocator that refuses its third request. *)
Definition kmem_cache_create_third_fails (n : nat) (c : scfs_cache) : bool :=
  negb (Nat.eqb n 2).

(** The events are writes to the lower file, each in full and each
    starting where the one before ended: together they fill the bytes from
    [pos] to [pos']. *)
Inductive write_chain : Z -> list event -> Z -> Prop :=
| chain_nil pos : write_chain pos [] pos
| chain_cons buf n pos evs pos' :
    0 < n ->
    write_chain (pos + n) evs pos' ->
    write_chain pos (ev_vfs_write buf n pos n :: evs) pos'.

(** * Properties *)

(** ** Reasoning about computations *)

Lemma returns_bind {A B} (m : M A) (k : A -> M B) w Q :
  returns m w (fun a w' => returns (k a) w' Q) -> returns (bind m k) w Q.
Proof.
  intros (a & w' & Hm & b & w'' & Hk & HQ).
  exists b, w''. unfold bind. rewrite Hm. auto.
Qed.

Lemma returns_weaken {A} (m : M A) w (Q Q' : A -> world -> Prop) :
  returns m w Q -> (forall a w', Q a w' -> Q' a w') -> returns m w Q'.
Proof. intros (a & w' & Hm & HQ) H. exists a, w'. auto. Qed.

Lemma returns_done {A} (m : M A) w a w' (Q : A -> world -> Prop) :
  m w = Done a w' -> Q a w' -> returns m w Q.
Proof. intros. exists a, w'. auto. Qed.

Lemma log_grows_refl w : log_grows w w.
Proof. exists []. now rewrite app_nil_r. Qed.

Lemma log_grows_trans w1 w2 w3 : log_grows w1 w2 -> log_grows w2 w3 -> log_grows w1 w3.
Proof.
  intros [e1 H1] [e2 H2]. exists (e1 ++ e2). now rewrite H2, H1, app_assoc.
Qed.

Ltac run := unfold bind, call, Return, modify_world, modify_sii, modify_sbi,
  get_sii, get_sbi, get_world, do_event, halt_with, make_meta_invalid,
  clear_meta_invalid in *; cbv beta zeta in *.

(** Case analysis on the test that decides how a computation goes on. *)
Ltac branch H :=
  match type of H with
  | (if ?b then _ else _) _ = _ => destruct b eqn:?
  | (if ?b then _ else _) = _ => destruct b eqn:?
  end.

(** One case analysis on whatever test or pair stands in the way in [H]. *)
Ltac step H :=
  cbn [negb fst snd] in H; cbv beta zeta in H;
  match type of H with
  | context [if ?b then _ else _] => destruct b eqn:?
  | context [let (_, _) := ?p in _] => destruct p eqn:?
  end.

Lemma Done_inv {A} (a b : A) (w w' : world) : Done a w = Done b w' -> a = b /\ w = w'.
Proof. intros H; inversion H; auto. Qed.

(** The events a lower transfer adds are transfers of its own buffer. *)
Lemma lower_io_loop_frame hdr io ev grows fuel :
  forall count done retry pos w r p w',
    lower_io_loop hdr io ev grows fuel count done retry pos w = Done (r, p) w' ->
    io_frame w w' /\
    exists evs, log w' = log w ++ evs /\
                Forall (fun e => exists c q x, e = ev c q x) evs.
Proof.
  induction fuel as [|fuel IH]; intros count done retry pos w r p w' H; simpl in H.
  - branch H; run; inversion H; subst.
    split; [repeat split|]. exists []. rewrite app_nil_r. auto.
  - branch H; run.
    + branch H.
      * branch H.
        -- apply IH in H. destruct H as [(Hs & Hb & Hm) (evs & Hl & Hf)].
           split; [repeat split; assumption|].
           simpl in Hl. rewrite <- app_assoc in Hl. eexists; split; [exact Hl|].
           constructor; eauto.
        -- inversion H; subst. split; [repeat split|].
           eexists; split; [reflexivity|]. constructor; eauto.
      * branch H.
        -- inversion H; subst. split; [destruct grows; repeat split|].
           destruct grows; (eexists; split; [reflexivity|]; constructor; eauto).
        -- apply IH in H. destruct H as [(Hs & Hb & Hm) (evs & Hl & Hf)].
           split; [destruct grows; repeat split; assumption|].
           assert (Hl' : log w' = log w
             ++ ev (count - done) pos (io (clock w) (count - done)) :: evs).
           { destruct grows; simpl in Hl; rewrite <- app_assoc in Hl; exact Hl. }
           eexists; split; [exact Hl'|]. constructor; eauto.
    + inversion H; subst. split; [repeat split|]. exists []. rewrite app_nil_r. auto.
Qed.

(** A transfer that returns delivers all of [count], or [-EIO] from the
    retry ceiling, or the primitive's own error, provided the primitive
    never claims more than it was asked for. *)
Lemma lower_io_loop_result hdr io ev grows fuel :
  forall count done retry pos w r p w',
    (forall t c, 0 < c -> io t c <= c) ->
    done <= count ->
    lower_io_loop hdr io ev grows fuel count done retry pos w = Done (r, p) w' ->
    r = count \/ r = - EIO \/ (r < 0 /\ exists t c, r = io t c).
Proof.
  induction fuel as [|fuel IH]; intros count done retry pos w r p w' Hio Hle H;
    simpl in H.
  - branch H; run; inversion H; subst.
    apply Z.ltb_ge in Heqb. left; lia.
  - branch H; run.
    + branch H.
      * branch H.
        -- eapply IH; eauto.
        -- inversion H; subst. apply Z.ltb_lt in Heqb0. right; right. eauto.
      * branch H.
        -- inversion H; subst. right; left; reflexivity.
        -- eapply IH; [exact Hio| |exact H].
           apply Z.ltb_lt in Heqb.
           specialize (Hio (clock w) (count - done)). lia.
    + inversion H; subst. apply Z.ltb_ge in Heqb. left; lia.
Qed.

(** Without transient results the loop is over after at most
    [SCFS_IO_MAX_RETRY + 1] transfers. *)
Lemma lower_io_loop_returns hdr io ev grows fuel :
  forall count done retry pos w,
    no_transient io ->
    0 <= retry <= SCFS_IO_MAX_RETRY hdr ->
    (Z.to_nat (SCFS_IO_MAX_RETRY hdr + 1 - retry) <= fuel)%nat ->
    exists r p w',
      lower_io_loop hdr io ev grows fuel count done retry pos w = Done (r, p) w' /\
      Z.of_nat (clock w') <= Z.of_nat (clock w) + (SCFS_IO_MAX_RETRY hdr + 1 - retry).
Proof.
  induction fuel as [|fuel IH]; intros count done retry pos w Hnt Hr Hf.
  - lia.
  - simpl. destruct (done <? count) eqn:Elt; run.
    + destruct (io (clock w) (count - done) <? 0).
      * destruct (Hnt (clock w) (count - done)) as [H1 H2];
          [apply Z.ltb_lt in Elt; lia|].
        apply Z.eqb_neq in H1, H2. unfold EINTR, EAGAIN in H1, H2.
        simpl in H1, H2. rewrite H1, H2. simpl.
        do 3 eexists; split; [reflexivity|]. cbn [clock tick]. lia.
      * destruct (retry + 1 >? SCFS_IO_MAX_RETRY hdr) eqn:E.
        -- do 3 eexists; split; [reflexivity|].
           destruct grows; cbn [clock tick with_lower_i_size]; lia.
        -- assert (retry + 1 <= SCFS_IO_MAX_RETRY hdr) by
             (rewrite Z.gtb_ltb in E; apply Z.ltb_ge in E; lia).
           match goal with |- context [lower_io_loop _ _ _ _ _ _ _ _ _ ?w1] =>
             destruct (IH count (done + io (clock w) (count - done)) (retry + 1)
                          (pos + io (clock w) (count - done)) w1 Hnt)
               as (r & p & w' & Hd & Hc); [lia|lia|] end.
           exists r, p, w'. split; [exact Hd|].
           destruct grows; cbn [clock tick with_lower_i_size] in Hc; lia.
    + do 3 eexists; split; [reflexivity|]. lia.
Qed.

(** While the primitive answers [-EINTR] or [-EAGAIN] the loop goes round
    without counting: after any number [fuel] of iterations it has called
    the primitive [fuel] times and is still in the loop. *)
Lemma lower_io_loop_transient hdr io ev grows fuel :
  forall count done retry pos w,
    (forall t c, io t c = - EINTR \/ io t c = - EAGAIN) ->
    done < count ->
    exists w',
      lower_io_loop hdr io ev grows fuel count done retry pos w = Halt StillRunning w' /\
      clock w' = (clock w + fuel)%nat.
Proof.
  induction fuel as [|fuel IH]; intros count done retry pos w Hio Hlt;
    simpl; pose proof Hlt as Hlt'; apply Z.ltb_lt in Hlt'; rewrite Hlt'.
  - exists w. split; [reflexivity | lia].
  - run.
    assert (Hneg : (io (clock w) (count - done) <? 0) = true).
    { apply Z.ltb_lt. destruct (Hio (clock w) (count - done)) as [-> | ->];
        unfold EINTR, EAGAIN; lia. }
    assert (Htr : (io (clock w) (count - done) =? - EINTR)
                  || (io (clock w) (count - done) =? - EAGAIN) = true).
    { destruct (Hio (clock w) (count - done)) as [-> | ->];
        rewrite Z.eqb_refl; [reflexivity | apply orb_true_r]. }
    change (- EINTR) with (-4) in Htr. change (- EAGAIN) with (-11) in Htr.
    rewrite Hneg, Htr.
    destruct (IH count done retry pos
                (tick w (ev (count - done) pos (io (clock w) (count - done)))) Hio Hlt)
      as (w' & Hh & Hc).
    exists w'. split; [exact Hh|]. cbn [tick clock] in Hc. lia.
Qed.

(** C5 does not hold of the code.  A lower file system whose transfers
    are interrupted every time (by [-EINTR] always, or by [-EINTR] and
    [-EAGAIN] in turn) keeps [scfs_lower_read] and [scfs_lower_write] of one
    byte in their loop: after any number of iterations they have called the
    primitive that many times and have not returned, so the retry ceiling
    the loop carries ([retry], SCFS_IO_MAX_RETRY) never ends it with
    [-EIO]. *)
Theorem scfs_lower_io_unbounded_on_eintr :
  ~ (exists fuel a w',
       scfs_lower_read hdr0 env_eintr fuel U_BUFFER 1 0 (world0 (sii0 [] 0)) = Done a w') /\
  ~ (exists fuel a w',
       scfs_lower_write hdr0 env_eintr fuel U_BUFFER 1 0 (world0 (sii0 [] 0)) = Done a w') /\
  (forall fuel, exists w',
       scfs_lower_read hdr0 env_eintr_eagain fuel U_BUFFER 1 0 (world0 (sii0 [] 0))
       = Halt StillRunning w' /\ clock w' = fuel) /\
  (forall fuel, exists w',
       scfs_lower_write hdr0 env_eintr_eagain fuel U_BUFFER 1 0 (world0 (sii0 [] 0))
       = Halt StillRunning w' /\ clock w' = fuel).
Proof.
  assert (Hr : forall t c, vfs_read env_eintr t c = - EINTR \/ vfs_read env_eintr t c = - EAGAIN)
    by (intros; left; reflexivity).
  assert (Hw : forall t c, vfs_write env_eintr t c = - EINTR \/ vfs_write env_eintr t c = - EAGAIN)
    by (intros; left; reflexivity).
  assert (Hr2 : forall t c, vfs_read env_eintr_eagain t c = - EINTR
                            \/ vfs_read env_eintr_eagain t c = - EAGAIN)
    by (intros t c; cbn; destruct (Nat.even t); auto).
  assert (Hw2 : forall t c, vfs_write env_eintr_eagain t c = - EINTR
                            \/ vfs_write env_eintr_eagain t c = - EAGAIN)
    by (intros t c; cbn; destruct (Nat.even t); auto).
  split; [|split; [|split]].
  - intros (fuel & a & w' & H). unfold scfs_lower_read in H.
    destruct (lower_io_loop_transient hdr0 _ (ev_vfs_read U_BUFFER) false fuel 1 0 0 0
                (world0 (sii0 [] 0)) Hr ltac:(lia)) as (w2 & Hh & _).
    rewrite Hh in H. discriminate.
  - intros (fuel & a & w' & H). unfold scfs_lower_write in H.
    destruct (lower_io_loop_transient hdr0 _ (ev_vfs_write U_BUFFER) true fuel 1 0 0 0
                (world0 (sii0 [] 0)) Hw ltac:(lia)) as (w2 & Hh & _).
    rewrite Hh in H. discriminate.
  - intros fuel. unfold scfs_lower_read.
    destruct (lower_io_loop_transient hdr0 _ (ev_vfs_read U_BUFFER) false fuel 1 0 0 0
                (world0 (sii0 [] 0)) Hr2 ltac:(lia)) as (w2 & Hh & Hc).
    exists w2. split; [exact Hh | exact Hc].
  - intros fuel. unfold scfs_lower_write.
    destruct (lower_io_loop_transient hdr0 _ (ev_vfs_write U_BUFFER) true fuel 1 0 0 0
                (world0 (sii0 [] 0)) Hw2 ltac:(lia)) as (w2 & Hh & Hc).
    exists w2. split; [exact Hh | exact Hc].
Qed.

(** What the two functions give when they do return: the full requested
    count or a negative value ([-EIO] from the retry ceiling, or the error
    of [vfs_read]/[vfs_write]), never a short count; and when the primitive
    gives no [-EINTR]/[-EAGAIN] they return after at most
    [SCFS_IO_MAX_RETRY + 1] transfers. *)
Lemma scfs_lower_io_full_or_error hdr env fuel buf count pos w :
  0 <= count ->
  0 <= SCFS_IO_MAX_RETRY hdr ->
  (forall t c, 0 < c -> vfs_read env t c <= c) ->
  (forall t c, 0 < c -> vfs_write env t c <= c) ->
  (forall r p w',
      scfs_lower_read hdr env fuel buf count pos w = Done (r, p) w' ->
      r = count \/ r = - EIO \/ (r < 0 /\ exists t c, r = vfs_read env t c)) /\
  (forall r p w',
      scfs_lower_write hdr env fuel buf count pos w = Done (r, p) w' ->
      r = count \/ r = - EIO \/ (r < 0 /\ exists t c, r = vfs_write env t c)) /\
  (no_transient (vfs_read env) ->
   (Z.to_nat (SCFS_IO_MAX_RETRY hdr + 1) <= fuel)%nat ->
   exists r p w',
     scfs_lower_read hdr env fuel buf count pos w = Done (r, p) w' /\
     Z.of_nat (clock w') <= Z.of_nat (clock w) + (SCFS_IO_MAX_RETRY hdr + 1)) /\
  (no_transient (vfs_write env) ->
   (Z.to_nat (SCFS_IO_MAX_RETRY hdr + 1) <= fuel)%nat ->
   exists r p w',
     scfs_lower_write hdr env fuel buf count pos w = Done (r, p) w' /\
     Z.of_nat (clock w') <= Z.of_nat (clock w) + (SCFS_IO_MAX_RETRY hdr + 1)).
Proof.
  intros Hc Hmax Hr Hw. unfold scfs_lower_read, scfs_lower_write.
  repeat split.
  - intros r p w' H. eapply lower_io_loop_result; eauto.
  - intros r p w' H. eapply lower_io_loop_result; eauto.
  - intros Hnt Hf.
    destruct (lower_io_loop_returns hdr (vfs_read env) (ev_vfs_read buf) false fuel
                count 0 0 pos w Hnt) as (r & p & w' & Hd & Hk);
      [lia | now rewrite Z.sub_0_r | ].
    exists r, p, w'. split; [exact Hd | lia].
  - intros Hnt Hf.
    destruct (lower_io_loop_returns hdr (vfs_write env) (ev_vfs_write buf) true fuel
                count 0 0 pos w Hnt) as (r & p & w' & Hd & Hk);
      [lia | now rewrite Z.sub_0_r | ].
    exists r, p, w'. split; [exact Hd | lia].
Qed.

Lemma scfs_lower_io_full_or_error_witness :
  exists r p w',
    scfs_lower_read hdr0 env_short 11 U_BUFFER 100 0 (world0 (sii0 [] 0)) = Done (r, p) w'
    /\ r = 100 /\ clock w' = 4%nat.
Proof.
  destruct (scfs_lower_io_full_or_error hdr0 env_short 11 U_BUFFER 100 0
              (world0 (sii0 [] 0))) as (Hres & _ & Hret & _).
  - lia.
  - simpl; lia.
  - intros t c; simpl; lia.
  - intros t c; simpl; lia.
  - destruct Hret as (r & p & w' & Hd & _).
    + intros t c _; simpl; unfold EINTR, EAGAIN; lia.
    + simpl; lia.
    + exists r, p, w'. split; [exact Hd|].
      vm_compute in Hd. inversion Hd; subst. split; reflexivity.
Defined.

(** ** Codec *)

(** For the algorithms behind the crypto API, [*actual] leaves
    [scfs_compress] and [scfs_decompress] with the value it came in with. *)
Lemma scfs_compress_crypto_keeps_actual env algo len actual w r a w' :
  algo <> LZO ->
  scfs_compress env algo len actual w = Done (r, a) w' -> a = actual.
Proof.
  intros Hne H. destruct algo; [congruence | | | ];
    unfold scfs_compress in H; run; repeat step H;
    cbn [negb fst snd] in H; inversion H; reflexivity.
Qed.

Lemma scfs_decompress_crypto_keeps_actual env algo len actual w r a w' :
  algo <> LZO ->
  scfs_decompress env algo len actual w = Done (r, a) w' -> a = actual.
Proof.
  intros Hne H. destruct algo; [congruence | | | ];
    unfold scfs_decompress in H; run; repeat step H;
    cbn [negb fst snd] in H; inversion H; reflexivity.
Qed.

(** C4 at its failing input.  A 4096-byte cluster that the codec turns into
    100 bytes: through LZO [*actual] comes back as 100, through zlib it comes
    back as the 4096 it held on entry; a zlib decompression that produced
    1808 bytes reports 4096.  A failed decompression does return [-EIO]. *)
Theorem scfs_codec_actual_at_zlib :
  let w := world0 (sii0 [] 0) in
  (exists w', scfs_compress (env_codec (0, 100) (0, 1808)) LZO 4096 4096 w
              = Done (0, 100) w') /\
  (exists w', scfs_compress (env_codec (0, 100) (0, 1808)) ZLIB 4096 4096 w
              = Done (0, 4096) w' /\
              In (ev_codec true ZLIB 4096 0 100) (log w')) /\
  (exists w', scfs_decompress (env_codec (0, 100) (0, 1808)) ZLIB 100 4096 w
              = Done (0, 4096) w' /\
              In (ev_codec false ZLIB 100 0 1808) (log w')) /\
  (exists w', scfs_decompress (env_codec (0, 100) (-1, 37)) LZO 100 4096 w
              = Done (- EIO, 37) w') /\
  (exists w', scfs_decompress (env_codec (0, 100) (-1, 37)) ZLIB 100 4096 w
              = Done (- EIO, 4096) w').
Proof.
  cbv zeta. repeat split.
  - eexists; reflexivity.
  - eexists; split; [reflexivity|]. vm_compute. auto.
  - eexists; split; [reflexivity|]. vm_compute. auto.
  - eexists; reflexivity.
  - eexists; reflexivity.
Qed.

(** ** Cluster index *)

Lemma scan_cinfo_list_below pre e rest cluster_idx :
  Forall (above cluster_idx) pre ->
  current_cluster_idx e < cluster_idx ->
  scan_cinfo_list (pre ++ e :: rest) cluster_idx = exit_below e.
Proof.
  intros Hpre He. induction Hpre as [|x pre Hx _ IH]; simpl.
  - apply Z.ltb_lt in He. now rewrite He.
  - unfold above in Hx.
    replace (current_cluster_idx x <? cluster_idx) with false
      by (symmetry; apply Z.ltb_ge; lia).
    replace (current_cluster_idx x =? cluster_idx) with false
      by (symmetry; apply Z.eqb_neq; lia).
    exact IH.
Qed.

Lemma scan_cinfo_list_found pre e rest cluster_idx :
  Forall (above cluster_idx) pre ->
  current_cluster_idx e = cluster_idx ->
  scan_cinfo_list (pre ++ e :: rest) cluster_idx = exit_found e.
Proof.
  intros Hpre He. induction Hpre as [|x pre Hx _ IH]; simpl.
  - rewrite He, Z.ltb_irrefl, Z.eqb_refl. reflexivity.
  - unfold above in Hx.
    replace (current_cluster_idx x <? cluster_idx) with false
      by (symmetry; apply Z.ltb_ge; lia).
    replace (current_cluster_idx x =? cluster_idx) with false
      by (symmetry; apply Z.eqb_neq; lia).
    exact IH.
Qed.

Lemma scan_cinfo_list_end l cluster_idx :
  Forall (above cluster_idx) l ->
  scan_cinfo_list l cluster_idx = exit_end.
Proof.
  intros Hl. induction Hl as [|x l Hx _ IH]; simpl.
  - reflexivity.
  - unfold above in Hx.
    replace (current_cluster_idx x <? cluster_idx) with false
      by (symmetry; apply Z.ltb_ge; lia).
    replace (current_cluster_idx x =? cluster_idx) with false
      by (symmetry; apply Z.eqb_neq; lia).
    exact IH.
Qed.

(** With valid metadata and an index inside the file, [get_cluster_info] is
    its lines 181-214. *)
Lemma get_cluster_info_lookup hdr env CLUSTER_COUNT fuel cluster_idx target w :
  data_compressable (sii w) = true ->
  meta_invalid (sii w) = false ->
  cluster_idx + 1 <= CLUSTER_COUNT (sii w) ->
  get_cluster_info hdr env CLUSTER_COUNT fuel cluster_idx target w
  = cluster_info_lookup hdr cluster_idx target w.
Proof.
  intros Hc Hm Hi. unfold get_cluster_info, ASSERT. run.
  rewrite Hc, Hm. cbn [negb Z.eqb].
  replace (cluster_idx + 1 >? CLUSTER_COUNT (sii w)) with false
    by (symmetry; rewrite Z.gtb_ltb; apply Z.ltb_ge; lia).
  reflexivity.
Qed.

(** The pending-list branch of the lookup, by the way the scan ends. *)
Lemma cluster_info_lookup_pending hdr cluster_idx target w :
  past_cinfo_array hdr (sii w) cluster_idx = true ->
  cinfo_list_mutex (sii w) = false ->
  exists w1,
    sii w1 = set_cinfo_list_mutex (sii w) true /\
    cluster_info_lookup hdr cluster_idx target w =
    match cinfo_list (sii w) with
    | [] => Done (- EINVAL, target) w1
    | _ :: _ =>
        match scan_cinfo_list (cinfo_list (sii w)) cluster_idx with
        | exit_below _ => Done (- EINVAL, target) w1
        | exit_found e =>
            Done (0, mk_cinfo (offset (cinfo e)) (size (cinfo e)))
                 (emit (set_mutex CINFO_LIST_MUTEX false w1)
                       (ev_mutex_unlock CINFO_LIST_MUTEX))
        | exit_end =>
            Done (- EIO, target)
                 (emit (set_mutex CINFO_LIST_MUTEX false w1)
                       (ev_mutex_unlock CINFO_LIST_MUTEX))
        end
    end.
Proof.
  intros Hp Hm.
  exists (emit (set_mutex CINFO_LIST_MUTEX true w) (ev_mutex_lock CINFO_LIST_MUTEX)).
  split; [reflexivity|].
  unfold cluster_info_lookup, mutex_lock, mutex_unlock. run.
  rewrite Hp. cbn [negb mutex_held]. rewrite Hm.
  cbn [sii emit set_mutex with_sii set_cinfo_list_mutex cinfo_list].
  destruct (cinfo_list (sii w)) as [|e l]; [reflexivity|].
  cbn [list_empty].
  destruct (scan_cinfo_list (e :: l) cluster_idx); reflexivity.
Qed.

(** C1 does not hold of the code.  The pending list is built in ascending
    order ([scfs_alloc_cinfo_entry] adds at the tail, and the commit takes
    the head for the lowest and the tail for the last cluster), and the scan
    of line 192 stops with [-EINVAL] at an entry with a smaller index.  A
    new file of three clusters, all three pending: cluster 1 is in the list,
    and the resolve answers [-EINVAL] because the entry scanned first has
    the smaller index 0, where a match is to be copied and 0 returned.  And
    with only cluster 2 pending, a resolve of cluster 1 meets a larger index
    first, goes on, and answers [-EIO] at the end of the list, where the
    larger index is to be answered with [-EINVAL]. *)
Theorem get_cluster_info_rejects_listed_cluster :
  let pending := [entry 0 0 4096; entry 1 4096 1000; entry 2 5096 900] in
  let w := world0 (sii0 pending 0) in
  let w2 := world0 (sii0 [entry 2 5096 900] 0) in
  In (entry 1 4096 1000) pending /\
  past_cinfo_array hdr0 (sii w) 1 = true /\
  (exists w', get_cluster_info hdr0 (env_ok 0 0) CLUSTER_COUNT0 11 1 (mk_cinfo 0 0) w
              = Done (- EINVAL, mk_cinfo 0 0) w') /\
  (exists w', get_cluster_info hdr0 (env_ok 0 0) CLUSTER_COUNT0 11 1 (mk_cinfo 0 0) w2
              = Done (- EIO, mk_cinfo 0 0) w').
Proof.
  cbv zeta. repeat split.
  - simpl; auto.
  - eexists; reflexivity.
  - eexists; reflexivity.
Qed.

(** What the scan of the pending list does.  For a resolve past the
    committed array, with valid metadata and the index inside the file,
    [get_cluster_info] scans the pending list in order and
    - returns [-EINVAL] and leaves the caller's descriptor alone if the list
      is empty, or if the first entry whose index is not above [cluster_idx]
      has an index below it;
    - copies offset and size of the first entry whose index is not above
      [cluster_idx] and returns 0 if that index equals [cluster_idx];
    - returns [-EIO] if every entry of a non-empty list has an index above
      [cluster_idx]. *)
Lemma get_cluster_info_pending_scan hdr env CLUSTER_COUNT fuel cluster_idx target w :
  data_compressable (sii w) = true ->
  meta_invalid (sii w) = false ->
  cluster_idx + 1 <= CLUSTER_COUNT (sii w) ->
  past_cinfo_array hdr (sii w) cluster_idx = true ->
  cinfo_list_mutex (sii w) = false ->
  (cinfo_list (sii w) = [] ->
   exists w', get_cluster_info hdr env CLUSTER_COUNT fuel cluster_idx target w
              = Done (- EINVAL, target) w') /\
  (forall pre e rest,
      cinfo_list (sii w) = pre ++ e :: rest ->
      Forall (above cluster_idx) pre ->
      current_cluster_idx e < cluster_idx ->
      exists w', get_cluster_info hdr env CLUSTER_COUNT fuel cluster_idx target w
                 = Done (- EINVAL, target) w') /\
  (forall pre e rest,
      cinfo_list (sii w) = pre ++ e :: rest ->
      Forall (above cluster_idx) pre ->
      current_cluster_idx e = cluster_idx ->
      exists w', get_cluster_info hdr env CLUSTER_COUNT fuel cluster_idx target w
                 = Done (0, mk_cinfo (offset (cinfo e)) (size (cinfo e))) w') /\
  (cinfo_list (sii w) <> [] ->
   Forall (above cluster_idx) (cinfo_list (sii w)) ->
   exists w', get_cluster_info hdr env CLUSTER_COUNT fuel cluster_idx target w
              = Done (- EIO, target) w').
Proof.
  intros Hc Hm Hi Hp Hl.
  rewrite (get_cluster_info_lookup hdr env CLUSTER_COUNT fuel cluster_idx target w Hc Hm Hi).
  destruct (cluster_info_lookup_pending hdr cluster_idx target w Hp Hl) as (w1 & _ & Heq).
  rewrite Heq. clear Heq. repeat split.
  - intros E. rewrite E. eauto.
  - intros pre e rest E Hpre He. rewrite E.
    rewrite (scan_cinfo_list_below pre e rest cluster_idx Hpre He).
    destruct (pre ++ e :: rest); eauto.
  - intros pre e rest E Hpre He. rewrite E.
    rewrite (scan_cinfo_list_found pre e rest cluster_idx Hpre He).
    destruct pre; simpl; eauto.
  - intros Hne Hall. rewrite (scan_cinfo_list_end _ cluster_idx Hall).
    destruct (cinfo_list (sii w)); [congruence | eauto].
Qed.

Lemma get_cluster_info_pending_scan_witness :
  exists w',
    get_cluster_info hdr0 (env_ok 0 0) CLUSTER_COUNT0 11 2 (mk_cinfo 0 0)
                     (world0 sii_committed2)
    = Done (0, mk_cinfo 5096 900) w'.
Proof.
  destruct (get_cluster_info_pending_scan hdr0 (env_ok 0 0) CLUSTER_COUNT0 11 2
              (mk_cinfo 0 0) (world0 sii_committed2)) as (_ & _ & Hfound & _).
  - reflexivity.
  - reflexivity.
  - vm_compute; discriminate.
  - reflexivity.
  - reflexivity.
  - apply (Hfound [] (entry 2 5096 900) []).
    + reflexivity.
    + constructor.
    + reflexivity.
Defined.

(** C10 at its failing inputs.  From a state in which nobody holds
    [cinfo_list_mutex], a resolve against an empty pending list returns
    [-EINVAL] with the mutex held, and so does a resolve that meets a smaller
    index; the found and the not-found exits release it.  The footer commit
    that follows a leaked lock waits on the mutex for ever. *)
Theorem get_cluster_info_leaves_mutex_held :
  let gci := get_cluster_info hdr0 (env_ok 0 0) CLUSTER_COUNT0 11 in
  let pending := [entry 0 0 4096; entry 1 4096 1000; entry 2 5096 900] in
  (exists w', gci 0 (mk_cinfo 0 0) (world0 (sii0 [] 0)) = Done (- EINVAL, mk_cinfo 0 0) w'
              /\ cinfo_list_mutex (sii w') = true
              /\ log w' = [ev_mutex_lock CINFO_LIST_MUTEX]
              /\ scfs_write_meta hdr0 (env_ok 0 0) 11 w' = Halt (Blocked CINFO_LIST_MUTEX) w') /\
  (exists w', gci 1 (mk_cinfo 0 0) (world0 (sii0 pending 0)) = Done (- EINVAL, mk_cinfo 0 0) w'
              /\ cinfo_list_mutex (sii w') = true
              /\ log w' = [ev_mutex_lock CINFO_LIST_MUTEX]) /\
  (exists w', gci 0 (mk_cinfo 0 0) (world0 (sii0 pending 0)) = Done (0, mk_cinfo 0 4096) w'
              /\ cinfo_list_mutex (sii w') = false) /\
  (exists w', gci 1 (mk_cinfo 0 0) (world0 (sii0 [entry 2 5096 900] 0))
              = Done (- EIO, mk_cinfo 0 0) w'
              /\ cinfo_list_mutex (sii w') = false).
Proof.
  cbv zeta. repeat split.
  - eexists. split; [reflexivity|]. repeat split; reflexivity.
  - eexists. split; [reflexivity|]. repeat split; reflexivity.
  - eexists. split; [reflexivity|]. reflexivity.
  - eexists. split; [reflexivity|]. reflexivity.
Qed.


(** ** Space admission *)




(** ** Truncate *)




(** ** Cluster read *)

(** With valid metadata a resolve only takes and releases the mutex. *)
Lemma get_cluster_info_valid_meta_log hdr env CLUSTER_COUNT fuel cluster_idx target w a w1 :
  data_compressable (sii w) = true ->
  meta_invalid (sii w) = false ->
  get_cluster_info hdr env CLUSTER_COUNT fuel cluster_idx target w = Done a w1 ->
  exists evs, log w1 = log w ++ evs /\ Forall is_mutex_event evs.
Proof.
  intros Hc Hm H.
  assert (Hnil : exists evs, log w = log w ++ evs /\ Forall is_mutex_event evs)
    by (exists []; rewrite app_nil_r; auto).
  unfold get_cluster_info, ASSERT, cluster_info_lookup, mutex_lock, mutex_unlock in H.
  run. rewrite Hc, Hm in H. cbn [negb Z.eqb] in H.
  repeat match type of H with
         | context [if ?b then _ else _] => destruct b eqn:?
         | context [match ?x with _ => _ end] => destruct x eqn:?
         end;
    try discriminate; apply Done_inv in H; destruct H as [_ <-]; try exact Hnil;
    (eexists; split; [cbn; rewrite <- ?app_assoc; reflexivity|]);
    repeat constructor; unfold is_mutex_event; eauto.
Qed.

(** The wrap of [page->index * PAGE_SIZE] makes the product no larger. *)
Lemma page_offset_below hdr index n :
  index * PAGE_SIZE hdr < n -> page_offset hdr index < n.
Proof.
  intros H. unfold page_offset. cbv zeta.
  destruct (index * PAGE_SIZE hdr <? 2 ^ size_t_bits hdr) eqn:E; [exact H|].
  apply Z.ltb_ge in E. unfold to_size_t.
  assert (Hp : 0 <= 2 ^ size_t_bits hdr) by (apply Z.pow_nonneg; lia).
  destruct (Z.eq_dec (2 ^ size_t_bits hdr) 0) as [E0 | E0].
  - rewrite E0, Z.mod_0_r. exact H.
  - pose proof (Z.mod_le (index * PAGE_SIZE hdr) (2 ^ size_t_bits hdr)). lia.
Qed.

(** C9: once [get_cluster_info] has delivered descriptor [c] for the
    cluster of a compressible file, [scfs_read_cluster]
    - returns [-EINVAL] at once, in the very state the resolve left, when
      [c.size] is 0 or above the cluster size (and with valid metadata the
      resolve has done nothing but take and release the mutex, so nothing
      was read from the lower file);
    - otherwise reads the cluster and is done, with [*compressed = 0], when
      [c.size] is the cluster size, or when the cluster is the last one and
      [c.size] is the file size modulo the cluster size;
    - otherwise reads [c.size] bytes into [buf_c] and hands them to
      [scfs_decompress], with [*compressed = 1]. *)
Theorem scfs_read_cluster_raw_or_compressed
    hdr env CLUSTER_COUNT PAGE_TO_CLUSTER_INDEX PGOFF_IN_CLUSTER
    fuel index lf compressed0 w c w1 :
  let s := sii w in
  let left := Z.rem (i_size s) (cluster_size s) in
  let last_cluster_idx :=
    (if negb (left =? 0) then Z.quot (i_size s) (cluster_size s) + 1
     else Z.quot (i_size s) (cluster_size s)) - 1 in
  let cluster_idx := PAGE_TO_CLUSTER_INDEX index s in
  let read_cluster :=
    scfs_read_cluster hdr env CLUSTER_COUNT PAGE_TO_CLUSTER_INDEX PGOFF_IN_CLUSTER
                      fuel index lf compressed0 w in
  i_size s <> 0 ->
  index * PAGE_SIZE hdr < i_size s ->
  cluster_idx <= last_cluster_idx ->
  data_compressable s = true ->
  get_cluster_info hdr env CLUSTER_COUNT fuel cluster_idx (mk_cinfo 0 0) w
  = Done (0, c) w1 ->
  let cs := cluster_size (sii w1) in
  (meta_invalid s = false ->
   exists evs, log w1 = log w ++ evs /\ Forall is_mutex_event evs) /\
  (size c = 0 \/ cs < size c -> read_cluster = Done (- EINVAL, compressed0) w1) /\
  (0 < size c <= cs ->
   forall h, lf = Some h ->
   (size c = cs \/ (cluster_idx = last_cluster_idx /\ left = size c) ->
    read_cluster =
    let '(buf, sz, pos) :=
      lower_read_args hdr PGOFF_IN_CLUSTER index (sii w1) 0 (size c) (offset c) in
    match scfs_lower_read hdr env fuel buf sz pos w1 with
    | Done (ret, _) w2 =>
        if ret <? 0 then Done (ret, 0) (emit w2 ev_unlock_page) else Done (0, 0) w2
    | Halt h w2 => Halt h w2
    end) /\
   (size c <> cs /\ ~ (cluster_idx = last_cluster_idx /\ left = size c) ->
    read_cluster =
    match scfs_lower_read hdr env fuel C_BUFFER (size c) (offset c) w1 with
    | Done (ret, _) w2 =>
        if ret <? 0 then Done (ret, 1) (emit w2 ev_unlock_page)
        else decompress_cluster env (sii w1) (size c) 1 w2
    | Halt h w2 => Halt h w2
    end)).
Proof.
  intros s left last_cluster_idx cluster_idx read_cluster Hsz Hidx Hlast Hc Hg cs.
  assert (E : read_cluster =
    (if (size c =? 0) || (size c >? cs) then Done (- EINVAL, compressed0) w1
     else
       let compressed :=
         if size c =? cs then 0
         else if (cluster_idx =? last_cluster_idx) && (left =? size c) then 0 else 1 in
       match lf with
       | None => Done (- EINVAL, compressed) w1
       | Some _ =>
           let '(buf, sz, pos) :=
             lower_read_args hdr PGOFF_IN_CLUSTER index (sii w1) compressed
                             (size c) (offset c) in
           match scfs_lower_read hdr env fuel buf sz pos w1 with
           | Done (ret, _) w2 =>
               if ret <? 0 then Done (ret, compressed) (emit w2 ev_unlock_page)
               else if negb (compressed =? 0)
                    then decompress_cluster env (sii w1) sz compressed w2
                    else Done (0, compressed) w2
           | Halt h w2 => Halt h w2
           end
       end)).
  { subst read_cluster. unfold scfs_read_cluster. run.
    fold s. fold left. fold last_cluster_idx. fold cluster_idx.
    replace (i_size s =? 0) with false by (symmetry; now apply Z.eqb_neq).
    replace (page_offset hdr index >=? i_size s) with false
      by (symmetry; rewrite Z.geb_leb; apply Z.leb_gt;
          now apply page_offset_below).
    replace (cluster_idx >? last_cluster_idx) with false
      by (symmetry; rewrite Z.gtb_ltb; apply Z.ltb_ge; lia).
    rewrite Hc, Hg. cbn [negb Z.eqb]. fold cs.
    destruct ((size c =? 0) || (size c >? cs)); [reflexivity|].
    cbv zeta. destruct lf; [|reflexivity].
    destruct (lower_read_args _ _ _ _ _ _ _) as [[buf sz] pos].
    destruct (scfs_lower_read hdr env fuel buf sz pos w1) as [[ret p] w2|];
      [|reflexivity].
    destruct (ret <? 0); [reflexivity|].
    match goal with |- context [negb ?b] => destruct (negb b) end; reflexivity. }
  rewrite E. clear E. split; [|split].
  - intros Hmeta.
    exact (get_cluster_info_valid_meta_log _ _ _ _ _ _ _ _ _ Hc Hmeta Hg).
  - intros [H0 | Hbig].
    + rewrite H0. reflexivity.
    + replace (size c >? cs) with true by (symmetry; rewrite Z.gtb_ltb; now apply Z.ltb_lt).
      now rewrite orb_true_r.
  - intros [Hpos Hle] h ->.
    replace (size c =? 0) with false by (symmetry; apply Z.eqb_neq; lia).
    replace (size c >? cs) with false by (symmetry; rewrite Z.gtb_ltb; apply Z.ltb_ge; lia).
    cbn [orb]. cbv zeta. split.
    + intros Hraw.
      assert (Hz : (if size c =? cs then 0
                    else if (cluster_idx =? last_cluster_idx) && (left =? size c)
                         then 0 else 1) = 0).
      { destruct Hraw as [-> | [-> ->]].
        - now rewrite Z.eqb_refl.
        - rewrite !Z.eqb_refl. cbn. now destruct (size c =? cs). }
      rewrite Hz.
      destruct (lower_read_args _ _ _ _ _ _ _) as [[buf sz] pos].
      reflexivity.
    + intros [Hne Hnl].
      assert (Hz : (if size c =? cs then 0
                    else if (cluster_idx =? last_cluster_idx) && (left =? size c)
                         then 0 else 1) = 1).
      { replace (size c =? cs) with false by (symmetry; now apply Z.eqb_neq).
        destruct (cluster_idx =? last_cluster_idx) eqn:E1; [|reflexivity].
        destruct (left =? size c) eqn:E2; [|reflexivity].
        apply Z.eqb_eq in E1, E2. tauto. }
      rewrite Hz. unfold lower_read_args. cbn [Z.eqb andb].
      rewrite andb_false_r. reflexivity.
Qed.

(** Page 1 of a 10000-byte file lies in cluster 1, committed with 1000
    bytes: it is read and decompressed. *)
Lemma scfs_read_cluster_raw_or_compressed_witness :
  exists w',
    scfs_read_cluster hdr0 (env_codec (0, 100) (0, 4096)) CLUSTER_COUNT0
      PAGE_TO_CLUSTER_INDEX0 PGOFF_IN_CLUSTER0 11 1 (Some 0%nat) 0 (world0 sii_committed2)
    = Done (0, 1) w' /\
    log w' = [ev_vfs_read C_BUFFER 1000 4096 1000; ev_codec false LZO 1000 0 4096].
Proof.
  destruct (scfs_read_cluster_raw_or_compressed hdr0 (env_codec (0, 100) (0, 4096))
              CLUSTER_COUNT0 PAGE_TO_CLUSTER_INDEX0 PGOFF_IN_CLUSTER0 11 1 (Some 0%nat) 0
              (world0 sii_committed2) (mk_cinfo 4096 1000) (world0 sii_committed2))
    as (_ & _ & H).
  - vm_compute; discriminate.
  - vm_compute; reflexivity.
  - vm_compute; discriminate.
  - reflexivity.
  - vm_compute; reflexivity.
  - destruct (H ltac:(vm_compute; split; [reflexivity | discriminate]) 0%nat eq_refl)
      as [_ Hcomp].
    rewrite Hcomp.
    + eexists. split; vm_compute; reflexivity.
    + split; [vm_compute; discriminate|]. intros [Hx _]. vm_compute in Hx. discriminate.
Defined.

(** ** Frames and termination of the commit *)

Lemma Inv_refl w : lower_i_mutex w = false -> Inv w w.
Proof. intros H. split; [exact H | apply log_grows_refl]. Qed.

Lemma Inv_with_sii w0 w s : Inv w0 w -> Inv w0 (with_sii w s).
Proof. intros H. exact H. Qed.

Lemma Inv_with_sbi w0 w b : Inv w0 w -> Inv w0 (with_sbi w b).
Proof. intros H. exact H. Qed.

Lemma Inv_with_lower_i_size w0 w n : Inv w0 w -> Inv w0 (with_lower_i_size w n).
Proof. intros H. exact H. Qed.

Lemma Inv_with_lzo_workmem w0 w v : Inv w0 w -> Inv w0 (with_lzo_workmem w v).
Proof. intros H. exact H. Qed.

Lemma Inv_with_tfm_handle w0 w a v : Inv w0 w -> Inv w0 (with_tfm_handle w a v).
Proof. intros H. exact H. Qed.

Lemma Inv_emit w0 w e : Inv w0 w -> Inv w0 (emit w e).
Proof.
  intros [Hm [evs Hl]]. split; [exact Hm|].
  exists (evs ++ [e]). cbn. now rewrite Hl, app_assoc.
Qed.

Lemma Inv_tick w0 w e : Inv w0 w -> Inv w0 (tick w e).
Proof.
  intros [Hm [evs Hl]]. split; [exact Hm|].
  exists (evs ++ [e]). cbn. now rewrite Hl, app_assoc.
Qed.

Lemma Inv_frame w0 w w' : Inv w0 w -> io_frame w w' -> log_grows w w' -> Inv w0 w'.
Proof.
  intros [Hm Hl] (_ & _ & Hm') Hl'. split.
  - now rewrite Hm'.
  - eapply log_grows_trans; eauto.
Qed.

Create HintDb inv0.
#[local] Hint Resolve Inv_with_sii Inv_with_sbi Inv_with_lower_i_size
  Inv_with_lzo_workmem Inv_with_tfm_handle Inv_emit Inv_tick : inv0.

Lemma Inv_trans w0 w1 w2 : Inv w0 w1 -> Inv w1 w2 -> Inv w0 w2.
Proof.
  intros [_ Hl] [Hm Hl']. split; [exact Hm | eapply log_grows_trans; eauto].
Qed.

Lemma Keeps_refl w : lower_i_mutex w = false -> Keeps w w.
Proof. intros Hm. split; [apply Inv_refl; exact Hm | reflexivity]. Qed.

Lemma Keeps_with_sii w0 w s :
  compressed s = compressed (sii w) -> Keeps w0 w -> Keeps w0 (with_sii w s).
Proof. intros Hs [HI Hc]. split; [exact HI|]. cbn. now rewrite Hs. Qed.

Lemma Keeps_with_sbi w0 w b : Keeps w0 w -> Keeps w0 (with_sbi w b).
Proof. intros H. exact H. Qed.

Lemma Keeps_with_lower_i_size w0 w n : Keeps w0 w -> Keeps w0 (with_lower_i_size w n).
Proof. intros H. exact H. Qed.

Lemma Keeps_emit w0 w e : Keeps w0 w -> Keeps w0 (emit w e).
Proof. intros [HI Hc]. split; [apply Inv_emit; exact HI | exact Hc]. Qed.

Lemma Keeps_tick w0 w e : Keeps w0 w -> Keeps w0 (tick w e).
Proof. intros [HI Hc]. split; [apply Inv_tick; exact HI | exact Hc]. Qed.

Create HintDb inv.
#[local] Hint Resolve Keeps_with_sbi Keeps_with_lower_i_size Keeps_emit Keeps_tick : inv.
#[local] Hint Extern 1 (Keeps _ (with_sii _ _)) =>
  apply Keeps_with_sii; [reflexivity|] : inv.


(** One step of a computation that starts with a primitive. *)
Ltac wp1 :=
  apply returns_bind;
  lazymatch goal with
  | |- returns get_sii _ _ => idtac
  | |- returns get_sbi _ _ => idtac
  | |- returns get_world _ _ => idtac
  | |- returns (modify_sii _) _ _ => idtac
  | |- returns (modify_sbi _) _ _ => idtac
  | |- returns (modify_world _) _ _ => idtac
  | |- returns (do_event _) _ _ => idtac
  | |- returns (call _ _) _ _ => idtac
  | |- returns make_meta_invalid _ _ => idtac
  | |- returns clear_meta_invalid _ _ => idtac
  | |- returns (mutex_unlock _) _ _ => idtac
  | |- returns (store_last _) _ _ => idtac
  | |- returns (Return _) _ _ => idtac
  end;
  (eapply returns_done; [reflexivity|]); cbv beta.

Ltac wp_ret := (eapply returns_done; [reflexivity|]); cbv beta.

Lemma scfs_lower_write_returns hdr env fuel buf count pos w :
  no_transient (vfs_write env) ->
  0 <= SCFS_IO_MAX_RETRY hdr ->
  (Z.to_nat (SCFS_IO_MAX_RETRY hdr + 1) <= fuel)%nat ->
  returns (scfs_lower_write hdr env fuel buf count pos) w
    (fun _ w' =>
       io_frame w w' /\
       exists evs, log w' = log w ++ evs /\
                   Forall (fun e => exists c q x, e = ev_vfs_write buf c q x) evs).
Proof.
  intros Hnt Hmax Hf. unfold scfs_lower_write.
  destruct (lower_io_loop_returns hdr (vfs_write env) (ev_vfs_write buf) true fuel
              count 0 0 pos w Hnt) as (r & p & w' & Hd & _);
    [lia | now rewrite Z.sub_0_r |].
  exists (r, p), w'. split; [exact Hd|].
  exact (lower_io_loop_frame _ _ _ _ _ _ _ _ _ _ _ _ _ Hd).
Qed.

(** The first transfer of a lower write asks for all of [count] at [pos]. *)
Lemma scfs_lower_write_first hdr env fuel buf count pos w r p w' :
  0 < count ->
  scfs_lower_write hdr env fuel buf count pos w = Done (r, p) w' ->
  exists x rest, log w' = log w ++ ev_vfs_write buf count pos x :: rest.
Proof.
  intros Hc H. unfold scfs_lower_write in H.
  destruct fuel as [|fuel]; simpl in H;
    replace (0 <? count) with true in H by (symmetry; now apply Z.ltb_lt).
  - discriminate.
  - run. rewrite Z.sub_0_r in H.
    assert (Hlog : forall w1 evs,
               log w1 = log (tick w (ev_vfs_write buf count pos (vfs_write env (clock w) count)))
                        ++ evs ->
               exists x rest, log w1 = log w ++ ev_vfs_write buf count pos x :: rest).
    { intros w1 evs E. cbn in E. rewrite <- app_assoc in E. cbn in E. eauto. }
    branch H.
    + branch H.
      * apply lower_io_loop_frame in H. destruct H as [_ (evs & Hl & _)].
        eapply Hlog; eauto.
      * inversion H; subst. apply (Hlog _ []). now rewrite app_nil_r.
    + branch H.
      * inversion H; subst. apply (Hlog _ []). now rewrite app_nil_r.
      * apply lower_io_loop_frame in H. destruct H as [_ (evs & Hl & _)].
        eapply Hlog; eauto.
Qed.

(** [w'] has the log of [w] and some more, by computation. *)
Ltac log_grows_by_cbn :=
  first [ apply log_grows_refl
        | unfold log_grows; eexists; cbn; rewrite <- ?app_assoc; reflexivity ].

Ltac cases_goal :=
  repeat match goal with
         | |- context [if ?b then _ else _] => destruct b eqn:?
         | |- context [let (_, _) := ?p in _] => destruct p eqn:?
         end.

Lemma scfs_compress_returns env algo len actual w :
  returns (scfs_compress env algo len actual) w
    (fun _ w' => io_frame w w' /\ lower_i_size w' = lower_i_size w /\ log_grows w w').
Proof.
  unfold returns.
  destruct algo; unfold scfs_compress; run; cases_goal;
    (eexists _, _; split; [reflexivity|]; repeat split; log_grows_by_cbn).
Qed.

(** ** The staged last cluster *)

Lemma stored_from_write hdr env fuel buf n pos w1 wb r p w2 w' :
  log wb = log w1 ->
  scfs_lower_write hdr env fuel buf n pos wb = Done (r, p) w2 ->
  log w' = log w2 ->
  stored_from buf n pos w1 w'.
Proof.
  intros Hb Hw Hl.
  destruct (lower_io_loop_frame _ _ _ _ _ _ _ _ _ _ _ _ _ Hw) as [_ (evs & He & Hall)].
  exists evs. rewrite Hl, He, Hb. repeat split; [exact Hall|].
  intros Hn. destruct (scfs_lower_write_first _ _ _ _ _ _ _ _ _ _ Hn Hw) as (x & rest & Hf).
  exists x, rest. rewrite He in Hf. now apply app_inv_head in Hf.
Qed.

(** What the block that finalizes the staged cluster decides, given the
    length [c] that [scfs_compress] left in its descriptor. *)
Lemma write_last_cluster_decides hdr env fuel w c w1 :
  let s := sii w in
  let orig := original_size (cluster_buffer s) in
  let last := List.last (cinfo_list s) dummy_entry in
  let limit := Z.quot (orig * comp_threshold (sbi w)) 100 in
  let pad_c := ALIGN c (SCFS_CLUSTER_ALIGN_BYTE hdr) - c in
  scfs_compress env (sii_comp_type s) orig (size (cinfo last)) w = Done (0, c) w1 ->
  no_transient (vfs_write env) ->
  0 <= SCFS_IO_MAX_RETRY hdr ->
  (Z.to_nat (SCFS_IO_MAX_RETRY hdr + 1) <= fuel)%nat ->
  exists ret w',
    write_last_cluster hdr env fuel w = Done ret w' /\
    let last' := List.last (cinfo_list (sii w')) dummy_entry in
    (c < limit ->
     size (cinfo last') = c /\ compressed (sii w') = true /\
     stored_from C_BUFFER (c + pad_c) (offset (cinfo last)) w1 w') /\
    (limit <= c ->
     size (cinfo last') = orig /\ compressed (sii w') = compressed s /\
     stored_from U_BUFFER (orig + pad_c) (offset (cinfo last)) w1 w').
Proof.
  intros s orig last limit pad_c Hcomp Hnt Hmax Hf.
  destruct (scfs_compress_returns env (sii_comp_type s) orig (size (cinfo last)) w)
    as (a & w1' & Hd & (Hs1 & Hb1 & _) & _ & _).
  rewrite Hcomp in Hd. apply Done_inv in Hd. destruct Hd as [_ <-].
  unfold write_last_cluster, store_last. run.
  fold s. fold orig. fold last. rewrite Hcomp. cbn [negb Z.eqb fst snd].
  cbn [size cinfo set_entry_size set_entry_pad set_cinfo_size offset pad].
  fold limit. fold pad_c.
  destruct (c <? limit) eqn:Elim.
  - apply Z.ltb_lt in Elim.
    match goal with |- context [scfs_lower_write hdr env fuel ?b ?n ?p ?wb] =>
      destruct (scfs_lower_write_returns hdr env fuel b n p wb Hnt Hmax Hf)
        as ([r q] & w2 & Hw & (Hs2 & _ & _) & _); rewrite Hw end.
    destruct (r <? 0).
    + eexists _, _. split; [reflexivity|]. cbv zeta. split; [|lia]. intros _.
      cbn [sii with_sii cinfo_list compressed set_meta_invalid]. rewrite Hs2.
      cbn [sii with_sii cinfo_list compressed set_cinfo_list set_compressed].
      rewrite last_last. repeat split.
      eapply stored_from_write; [|exact Hw|]; reflexivity.
    + eexists _, _. split; [reflexivity|]. cbv zeta. split; [|lia]. intros _.
      cbn [sii with_sii with_sbi cinfo_list compressed set_cluster_buffer].
      rewrite Hs2.
      cbn [sii with_sii cinfo_list compressed set_cinfo_list set_compressed].
      rewrite last_last. repeat split.
      eapply stored_from_write; [|exact Hw|]; reflexivity.
  - apply Z.ltb_ge in Elim.
    match goal with |- context [scfs_lower_write hdr env fuel ?b ?n ?p ?wb] =>
      destruct (scfs_lower_write_returns hdr env fuel b n p wb Hnt Hmax Hf)
        as ([r q] & w2 & Hw & (Hs2 & _ & _) & _); rewrite Hw end.
    destruct (r <? 0).
    + eexists _, _. split; [reflexivity|]. cbv zeta. split; [lia|]. intros _.
      cbn [sii with_sii cinfo_list compressed set_meta_invalid]. rewrite Hs2.
      cbn [sii with_sii cinfo_list compressed set_cinfo_list set_compressed].
      rewrite last_last, Hs1. repeat split.
      eapply stored_from_write; [|exact Hw|]; reflexivity.
    + eexists _, _. split; [reflexivity|]. cbv zeta. split; [lia|]. intros _.
      cbn [sii with_sii with_sbi cinfo_list compressed set_cluster_buffer].
      rewrite Hs2.
      cbn [sii with_sii cinfo_list compressed set_cinfo_list set_compressed].
      rewrite last_last, Hs1. repeat split.
      eapply stored_from_write; [|exact Hw|]; reflexivity.
Qed.

(** ** The commit returns *)

Section Commit.

Variable hdr : scfs_h.
Variable env : kernel_env.
Variable fuel : nat.
Hypothesis Hnt : no_transient (vfs_write env).
Hypothesis Hmax : 0 <= SCFS_IO_MAX_RETRY hdr.
Hypothesis Hfuel : (Z.to_nat (SCFS_IO_MAX_RETRY hdr + 1) <= fuel)%nat.

Lemma lower_write_Inv w0 buf count pos w :
  Inv w0 w ->
  returns (scfs_lower_write hdr env fuel buf count pos) w
    (fun _ w' => Inv w0 w' /\ sii w' = sii w).
Proof.
  intros HI. eapply returns_weaken;
    [apply scfs_lower_write_returns; assumption|].
  intros a w' (Hfr & evs & Hl & _). split.
  - eapply Inv_frame; eauto. now exists evs.
  - apply Hfr.
Qed.

Lemma lower_write_Keeps w0 buf count pos w :
  Keeps w0 w ->
  returns (scfs_lower_write hdr env fuel buf count pos) w (fun _ w' => Keeps w0 w').
Proof.
  intros [HI Hc]. eapply returns_weaken; [apply (lower_write_Inv w0); exact HI|].
  intros a w' [HI' Hs]. split; [exact HI'|]. now rewrite Hs.
Qed.

Lemma buf_free_out_returns w0 ret w :
  Keeps w0 w -> returns (buf_free_out ret) w (fun r w' => r = ret /\ Keeps w0 w').
Proof.
  intros HI. unfold returns, buf_free_out. run. cases_goal;
    (eexists _, _; split; [reflexivity|]; split; [reflexivity|]; auto 10 with inv).
Qed.

Lemma free_out_returns w0 ret w :
  Keeps w0 w -> returns (free_out ret) w (fun r w' => r = ret /\ Keeps w0 w').
Proof.
  intros HI. unfold free_out. wp1. wp1.
  apply buf_free_out_returns. unfold set_mutex. auto 10 with inv.
Qed.

Lemma write_cinfo_loop_returns w0 l :
  forall buf_pos written pos w,
    Keeps w0 w ->
    returns (write_cinfo_loop hdr env fuel l buf_pos written pos) w
      (fun _ w' => Keeps w0 w').
Proof.
  induction l as [|e rest IH]; intros buf_pos written pos w HI; simpl.
  - wp_ret. exact HI.
  - wp1. wp1.
    match goal with |- context [if ?b then _ else _] => destruct b end.
    + apply returns_bind. eapply returns_weaken;
        [apply (lower_write_Keeps w0); auto with inv|].
      intros [r p] w2 HI2. cbv beta iota.
      destruct (r <? 0).
      * wp1. wp_ret. auto with inv.
      * wp1. apply IH. auto with inv.
    + apply IH. auto with inv.
Qed.

Lemma scfs_write_cinfo_returns w0 pos w :
  Keeps w0 w ->
  compressed (sii w) = true ->
  cinfo_list (sii w) <> [] ->
  returns (scfs_write_cinfo hdr env fuel pos) w (fun _ w' => Keeps w0 w').
Proof.
  intros HI Hc Hl. unfold scfs_write_cinfo. wp1. rewrite Hc.
  apply returns_bind. wp_ret.
  destruct (negb (cinfo_array_size (sii w) =? 0)).
  - destruct (cinfo_list (sii w)) as [|e l] eqn:El; [congruence|].
    apply returns_bind. wp_ret.
    apply returns_bind. eapply returns_weaken;
      [apply (lower_write_Keeps w0); auto with inv|].
    intros [r p] w2 HI2. cbv beta iota.
    destruct (r <? 0).
    + wp1. wp_ret. auto with inv.
    + apply write_cinfo_loop_returns. exact HI2.
  - apply write_cinfo_loop_returns. exact HI.
Qed.

Lemma write_footer_returns w0 footer_size pos w :
  Keeps w0 w ->
  returns (write_footer hdr env fuel footer_size pos) w (fun _ w' => Keeps w0 w').
Proof.
  intros HI. unfold write_footer. cbv zeta.
  apply returns_bind. eapply returns_weaken;
    [apply (lower_write_Keeps w0); exact HI|].
  intros [ret p] w2 HI2. cbv beta iota.
  destruct (ret <? 0).
  - wp1. wp_ret. auto with inv.
  - wp1. apply returns_bind.
    apply returns_weaken with (Q := fun _ w' => Keeps w0 w').
    + destruct (p <? lower_i_size w2).
      * wp1. wp1. apply returns_bind.
        eapply returns_done.
        { unfold mutex_lock. cbn [mutex_held lower_i_mutex with_lower_i_size emit].
          rewrite (proj1 (proj1 HI2)). reflexivity. }
        wp1. wp1.
        assert (HI3 : forall w3 : world,
                   lower_i_mutex w3 = false ->
                   log_grows w2 w3 ->
                   compressed (sii w3) = compressed (sii w2) -> Keeps w0 w3).
        { intros w3 Hm Hg Hc. destruct HI2 as [[_ Hlg] Hc2].
          split; [split; [exact Hm | eapply log_grows_trans; eauto]|].
          now rewrite Hc. }
        match goal with |- context [negb ?b] => destruct (negb b) end.
        -- wp1. wp_ret. apply HI3; [reflexivity | log_grows_by_cbn | reflexivity].
        -- wp_ret. apply HI3; [reflexivity | log_grows_by_cbn | reflexivity].
      * wp_ret. exact HI2.
    + intros r2 w3 HI3. destruct r2 as [ret2|].
      * wp_ret. exact HI3.
      * apply returns_bind.
        match goal with |- context [if ?b then _ else _] => destruct b end;
          wp_ret; wp_ret; auto with inv.
Qed.

Lemma write_index_and_footer_returns w0 w :
  Keeps w0 w ->
  cinfo_list (sii w) <> [] ->
  returns (write_index_and_footer hdr env fuel) w (fun _ w' => Keeps w0 w').
Proof.
  intros HI Hl. unfold write_index_and_footer. wp1. cbv zeta.
  destruct (compressed (sii w)) eqn:Ec.
  - apply returns_bind. eapply returns_weaken;
      [apply (scfs_write_cinfo_returns w0); assumption|].
    intros [ret pos] w2 HI2. cbv beta iota.
    destruct (ret <? 0); [wp_ret; exact HI2|].
    apply write_footer_returns. exact HI2.
  - apply write_footer_returns. exact HI.
Qed.

Lemma write_last_cluster_returns w0 w :
  Inv w0 w ->
  returns (write_last_cluster hdr env fuel) w
    (fun _ w' => Inv w0 w' /\ cinfo_list (sii w') <> []).
Proof.
  intros HI. unfold write_last_cluster. wp1. wp1.
  apply returns_bind. eapply returns_weaken; [apply scfs_compress_returns|].
  intros [ret sz] w1 (Hfr & _ & Hlg). cbv beta iota.
  assert (HI1 : Inv w0 w1) by (eapply Inv_frame; eauto).
  wp1.
  assert (Hne : forall (l : list cinfo_entry) x, l ++ [x] <> [])
    by (intros l x E; now apply app_eq_nil in E).
  destruct (negb (ret =? 0)).
  - wp_ret. split; [auto with inv0|]. cbn. apply Hne.
  - apply returns_bind.
    match goal with |- context [if ?b then _ else _] => destruct b end.
    + wp1. wp_ret. wp1.
      apply returns_bind. eapply returns_weaken;
        [apply (lower_write_Inv w0); unfold store_last; auto 10 with inv0|].
      intros [r p] w2 [HI2 Hs2]. cbv beta iota.
      destruct (r <? 0).
      * wp1. wp_ret. split; [auto with inv0|]. cbn. rewrite Hs2. cbn. apply Hne.
      * wp1. wp1. wp_ret. split; [auto with inv0|]. cbn. rewrite Hs2. cbn. apply Hne.
    + wp_ret. wp1.
      apply returns_bind. eapply returns_weaken;
        [apply (lower_write_Inv w0); unfold store_last; auto 10 with inv0|].
      intros [r p] w2 [HI2 Hs2]. cbv beta iota.
      destruct (r <? 0).
      * wp1. wp_ret. split; [auto with inv0|]. cbn. rewrite Hs2. cbn. apply Hne.
      * wp1. wp1. wp_ret. split; [auto with inv0|]. cbn. rewrite Hs2. cbn. apply Hne.
Qed.

Lemma write_meta_body_returns w0 w :
  Inv w0 w ->
  cinfo_list (sii w) <> [] ->
  returns (write_meta_body hdr env fuel) w (fun _ w' => Inv w0 w').
Proof.
  intros HI Hl. unfold write_meta_body. wp1.
  destruct (data_compressable (sii w)).
  - apply returns_bind.
    apply returns_weaken with (Q := fun _ w' => Inv w0 w' /\ cinfo_list (sii w') <> []).
    + destruct (original_size (cluster_buffer (sii w)) >? 0).
      * apply write_last_cluster_returns. exact HI.
      * wp_ret. auto.
    + intros r1 w1 [HI1 Hl1]. destruct r1 as [ret|].
      * wp_ret. exact HI1.
      * eapply returns_weaken;
          [apply (write_index_and_footer_returns w1);
           [apply Keeps_refl; apply HI1 | exact Hl1]|].
        intros a w' HK. eapply Inv_trans; [exact HI1 | apply HK].
  - cbv zeta. wp1. wp1.
    match goal with |- returns _ ?wc _ =>
      eapply returns_weaken;
        [apply (write_footer_returns wc); apply Keeps_refl; apply HI|];
      intros a w' HK; apply (Inv_trans w0 wc); [auto 10 with inv0 | apply HK]
    end.
Qed.

Lemma scfs_write_meta_returns w0 w :
  Inv w0 w ->
  cinfo_list_mutex (sii w) = false ->
  returns (scfs_write_meta hdr env fuel) w (fun _ w' => Inv w0 w').
Proof.
  intros HI Hm. unfold scfs_write_meta.
  apply returns_bind. eapply returns_done.
  { unfold mutex_lock. cbn [mutex_held]. rewrite Hm. reflexivity. }
  wp1. cbn [sii emit set_mutex with_sii set_cinfo_list_mutex cinfo_list].
  destruct (cinfo_list (sii w)) as [|e l] eqn:El; cbn [list_empty].
  - wp1.
    match goal with |- returns _ ?wc _ =>
      eapply returns_weaken;
        [apply (buf_free_out_returns wc); apply Keeps_refl; apply HI|];
      intros a w' [_ HK]; apply (Inv_trans w0 wc);
        [unfold set_mutex; auto 10 with inv0 | apply HK]
    end.
  - apply returns_bind. eapply returns_weaken;
      [apply (write_meta_body_returns w0); unfold set_mutex; auto 10 with inv0|].
    + cbn. rewrite El. discriminate.
    + intros ret w1 HI1. cbv beta. eapply returns_weaken;
        [apply (free_out_returns w1); apply Keeps_refl; apply HI1|].
      intros a w' [_ HK]. eapply Inv_trans; [exact HI1 | apply HK].
Qed.

(** Once the staged cluster is finalized, in [w2], the commit runs to its
    end and leaves [sii->compressed] as the finalization left it. *)
Lemma scfs_write_meta_after_cluster w r1 w2 :
  cinfo_list_mutex (sii w) = false ->
  cinfo_list (sii w) <> [] ->
  data_compressable (sii w) = true ->
  0 < original_size (cluster_buffer (sii w)) ->
  write_last_cluster hdr env fuel
    (emit (set_mutex CINFO_LIST_MUTEX true w) (ev_mutex_lock CINFO_LIST_MUTEX))
  = Done r1 w2 ->
  lower_i_mutex w = false ->
  returns (scfs_write_meta hdr env fuel) w (fun _ w' => Keeps w2 w').
Proof.
  intros Hm Hl Hc Ho Hw Hi.
  set (lw := emit (set_mutex CINFO_LIST_MUTEX true w) (ev_mutex_lock CINFO_LIST_MUTEX))
    in *.
  destruct (write_last_cluster_returns lw lw) as (r1' & w2' & Hw' & HI2 & Hl2).
  { apply Inv_refl. exact Hi. }
  rewrite Hw in Hw'. apply Done_inv in Hw'. destruct Hw' as [<- <-].
  unfold scfs_write_meta.
  apply returns_bind. eapply returns_done.
  { unfold mutex_lock. cbn [mutex_held]. rewrite Hm. reflexivity. }
  fold lw. wp1.
  change (cinfo_list (sii lw)) with (cinfo_list (sii w)).
  destruct (cinfo_list (sii w)) as [|e l] eqn:El; [congruence|]. cbn [list_empty].
  apply returns_bind.
  apply returns_weaken with (Q := fun _ w' => Keeps w2 w').
  - unfold write_meta_body. wp1.
    change (data_compressable (sii lw)) with (data_compressable (sii w)). rewrite Hc.
    change (original_size (cluster_buffer (sii lw)))
      with (original_size (cluster_buffer (sii w))).
    replace (original_size (cluster_buffer (sii w)) >? 0) with true
      by (symmetry; rewrite Z.gtb_ltb; now apply Z.ltb_lt).
    apply returns_bind. eapply returns_done; [exact Hw|]. cbv beta.
    destruct r1 as [ret|].
    + wp_ret. apply Keeps_refl. apply HI2.
    + apply write_index_and_footer_returns; [apply Keeps_refl; apply HI2 | exact Hl2].
  - intros ret w3 HK. cbv beta. eapply returns_weaken;
      [apply (free_out_returns w2); exact HK|].
    intros a w' [_ HK']. exact HK'.
Qed.

End Commit.

(** ** The threshold *)

(** The threshold test on what [scfs_compress] left in the descriptor.
    When the commit finalizes the staged last cluster and
    [scfs_compress] has put length [c] in its descriptor, the compressed
    form is kept exactly when [c < original_size * comp_threshold / 100] (C
    integer arithmetic): then the cluster is written from [c_buffer], the
    descriptor keeps size [c] and the commit ends with [sii->compressed]
    set; otherwise, and so when [c] equals the bound, the cluster is written
    from [u_buffer], the descriptor gets [original_size] as its size and the
    commit ends with [sii->compressed] as it found it.  [w2] is the state in
    which the cluster is finalized, [w'] the one in which the commit
    returns. *)
Lemma scfs_write_meta_threshold hdr env fuel w c w1 :
  let s := sii w in
  let orig := original_size (cluster_buffer s) in
  let last := List.last (cinfo_list s) dummy_entry in
  let limit := Z.quot (orig * comp_threshold (sbi w)) 100 in
  let pad_c := ALIGN c (SCFS_CLUSTER_ALIGN_BYTE hdr) - c in
  let lw := emit (set_mutex CINFO_LIST_MUTEX true w) (ev_mutex_lock CINFO_LIST_MUTEX) in
  cinfo_list_mutex s = false ->
  lower_i_mutex w = false ->
  cinfo_list s <> [] ->
  data_compressable s = true ->
  0 < orig ->
  scfs_compress env (sii_comp_type s) orig (size (cinfo last)) lw = Done (0, c) w1 ->
  no_transient (vfs_write env) ->
  0 <= SCFS_IO_MAX_RETRY hdr ->
  (Z.to_nat (SCFS_IO_MAX_RETRY hdr + 1) <= fuel)%nat ->
  exists r1 w2 ret w',
    write_last_cluster hdr env fuel lw = Done r1 w2 /\
    scfs_write_meta hdr env fuel w = Done ret w' /\
    log_grows w2 w' /\
    let last' := List.last (cinfo_list (sii w2)) dummy_entry in
    (c < limit ->
     size (cinfo last') = c /\ compressed (sii w') = true /\
     stored_from C_BUFFER (c + pad_c) (offset (cinfo last)) w1 w2) /\
    (limit <= c ->
     size (cinfo last') = orig /\ compressed (sii w') = compressed s /\
     stored_from U_BUFFER (orig + pad_c) (offset (cinfo last)) w1 w2).
Proof.
  intros s orig last limit pad_c lw Hm Hi Hl Hc Ho Hcomp Hnt Hmax Hf.
  destruct (write_last_cluster_decides hdr env fuel lw c w1 Hcomp Hnt Hmax Hf)
    as (r1 & w2 & Hw & Hkeep & Hraw).
  destruct (scfs_write_meta_after_cluster hdr env fuel Hnt Hmax Hf w r1 w2
              Hm Hl Hc Ho Hw Hi) as (ret & w' & Hd & [[_ Hlg] Hflag]).
  exists r1, w2, ret, w'. split; [exact Hw|]. split; [exact Hd|].
  split; [exact Hlg|]. cbv zeta. split.
  - intros Hlt. destruct (Hkeep Hlt) as (Hs & Hcm & Hst).
    split; [exact Hs|]. split; [|exact Hst]. now rewrite Hflag.
  - intros Hge. destruct (Hraw Hge) as (Hs & Hcm & Hst).
    split; [exact Hs|]. split; [|exact Hst]. rewrite Hflag. exact Hcm.
Qed.

(** Through LZO, 1808 staged bytes compress to 1808 at a threshold of 100
    percent: the bound is met, not beaten; the cluster is stored raw and the
    commit ends with the file not compressed. *)
Lemma scfs_write_meta_threshold_witness :
  let w := world0 (sii0 [entry 0 0 4096; entry 1 4096 4096; entry 2 8192 4096] 1808) in
  exists ret w',
    scfs_write_meta hdr0 (env_codec (0, 1808) (0, 0)) 11 w = Done ret w' /\
    compressed (sii w') = false /\
    In (ev_vfs_write U_BUFFER 1808 8192 1808) (log w').
Proof.
  cbv zeta.
  edestruct (scfs_write_meta_threshold hdr0 (env_codec (0, 1808) (0, 0)) 11
               (world0 (sii0 [entry 0 0 4096; entry 1 4096 4096; entry 2 8192 4096] 1808))
               1808)
    as (r1 & w2 & ret & w' & _ & Hd & _ & _ & Hraw).
  - reflexivity.
  - reflexivity.
  - discriminate.
  - reflexivity.
  - vm_compute. reflexivity.
  - vm_compute. reflexivity.
  - intros t c Hc. cbn. unfold EINTR, EAGAIN. lia.
  - vm_compute. discriminate.
  - vm_compute. lia.
  - destruct Hraw as (_ & Hc & _); [vm_compute; discriminate|].
    exists ret, w'. split; [exact Hd|]. split; [exact Hc|].
    vm_compute in Hd. apply Done_inv in Hd. destruct Hd as [_ <-].
    vm_compute. auto 10.
Defined.

(** For an algorithm of the crypto API whose transform is there or can be
    allocated, a compression that succeeds leaves [*actual] as it was and
    has asked the codec, which produced [out] bytes. *)
Lemma scfs_compress_crypto_stale env algo len actual out w :
  algo <> LZO ->
  (tfm_handles w algo = false -> alloc_ok env (clock w) = true) ->
  crypto_comp_compress env (if tfm_handles w algo then clock w else S (clock w)) algo len
  = (0, out) ->
  exists w1,
    scfs_compress env algo len actual w = Done (0, actual) w1 /\
    In (ev_codec true algo len 0 out) (log w1).
Proof.
  intros Hne Halloc Hcodec.
  destruct algo; [congruence | | | ];
    unfold scfs_compress; run;
    (destruct (tfm_handles w _) eqn:Eh; rewrite ?Eh in Hcodec;
     [ cbv beta iota; cbn [negb]; rewrite Hcodec; cbn [fst snd negb Z.eqb];
       eexists; split; [reflexivity|];
       cbn [log tick]; apply in_or_app; right; left; reflexivity
     | cbv beta iota; rewrite (Halloc eq_refl);
       cbn [negb clock tick with_tfm_handle];
       rewrite Hcodec; cbn [fst snd negb Z.eqb];
       eexists; split; [reflexivity|];
       cbn [log tick with_tfm_handle]; apply in_or_app; right; left; reflexivity ]).
Qed.

(** C2 does not hold of the code for the algorithms of the crypto API.
    For them [scfs_compress] hands back in [last->cinfo.size] the value it
    found there (C4), not the [out] bytes the codec produced, and it is this
    stale size that line 847 holds against
    [original_size * comp_threshold / 100].  So the length of the compressed
    form has no part in the decision: with a stale size at or above the
    bound the cluster is stored raw however small [out] is, and with a stale
    size below the bound [c_buffer] is written and the file marked
    compressed however large [out] is, the descriptor recording the stale
    size and not the length of what [c_buffer] holds.  This is stated for
    sizes, and a product [original_size * comp_threshold], that fit an
    [int], so that the C arithmetic of line 847 is the arithmetic of [Z].
    [w2] is the state in which the cluster is finalized, [w'] the one in
    which the commit returns. *)
Theorem scfs_write_meta_threshold_on_stale_size hdr env fuel w out :
  let s := sii w in
  let algo := sii_comp_type s in
  let orig := original_size (cluster_buffer s) in
  let last := List.last (cinfo_list s) dummy_entry in
  let stale := size (cinfo last) in
  let limit := Z.quot (orig * comp_threshold (sbi w)) 100 in
  let pad := ALIGN stale (SCFS_CLUSTER_ALIGN_BYTE hdr) - stale in
  let lw := emit (set_mutex CINFO_LIST_MUTEX true w) (ev_mutex_lock CINFO_LIST_MUTEX) in
  cinfo_list_mutex s = false ->
  lower_i_mutex w = false ->
  cinfo_list s <> [] ->
  data_compressable s = true ->
  0 < orig ->
  0 <= stale < 2 ^ 31 ->
  0 <= comp_threshold (sbi w) ->
  orig * comp_threshold (sbi w) < 2 ^ 31 ->
  algo <> LZO ->
  (tfm_handles w algo = false -> alloc_ok env (clock w) = true) ->
  crypto_comp_compress env (if tfm_handles w algo then clock w else S (clock w)) algo orig
  = (0, out) ->
  no_transient (vfs_write env) ->
  0 <= SCFS_IO_MAX_RETRY hdr ->
  (Z.to_nat (SCFS_IO_MAX_RETRY hdr + 1) <= fuel)%nat ->
  exists w1 r1 w2 ret w',
    scfs_compress env algo orig stale lw = Done (0, stale) w1 /\
    In (ev_codec true algo orig 0 out) (log w1) /\
    write_last_cluster hdr env fuel lw = Done r1 w2 /\
    scfs_write_meta hdr env fuel w = Done ret w' /\
    In (ev_codec true algo orig 0 out) (log w') /\
    let last' := List.last (cinfo_list (sii w2)) dummy_entry in
    (limit <= stale ->
     size (cinfo last') = orig /\ compressed (sii w') = compressed s /\
     stored_from U_BUFFER (orig + pad) (offset (cinfo last)) w1 w2) /\
    (stale < limit ->
     size (cinfo last') = stale /\ compressed (sii w') = true /\
     stored_from C_BUFFER (stale + pad) (offset (cinfo last)) w1 w2).
Proof.
  intros s algo orig last stale limit pad lw Hm Hi Hl Hc Ho _ _ _ Hne Halloc Hcodec
         Hnt Hmax Hf.
  destruct (scfs_compress_crypto_stale env algo orig stale out lw Hne Halloc Hcodec)
    as (w1 & Hcomp & Hin).
  destruct (scfs_write_meta_threshold hdr env fuel w stale w1
              Hm Hi Hl Hc Ho Hcomp Hnt Hmax Hf)
    as (r1 & w2 & ret & w' & Hw & Hd & (evs2 & Hlg) & Hkeep & Hraw).
  exists w1, r1, w2, ret, w'.
  split; [exact Hcomp|]. split; [exact Hin|]. split; [exact Hw|]. split; [exact Hd|].
  fold s last stale orig limit pad in Hkeep, Hraw.
  assert (Hin2 : In (ev_codec true algo orig 0 out) (log w2)).
  { destruct (Z.lt_ge_cases stale limit) as [Hlt | Hge].
    - destruct (Hkeep Hlt) as (_ & _ & (evs & He & _)).
      rewrite He. apply in_or_app. now left.
    - destruct (Hraw Hge) as (_ & _ & (evs & He & _)).
      rewrite He. apply in_or_app. now left. }
  split; [rewrite Hlg; apply in_or_app; now left|].
  cbv zeta. split; [exact Hraw | exact Hkeep].
Qed.

(** A file that compresses with zlib, 4096 staged bytes at a threshold of
    100 percent, and zlib turns the cluster into 100 bytes, far below the
    bound of 4096.  With a last descriptor that holds 4096 when the commit
    begins, the commit compares the stale 4096, writes the 4096 raw bytes
    from [u_buffer] and leaves the file not compressed.  With a last
    descriptor that holds 0, as [scfs_alloc_cinfo_entry] leaves it, the
    commit takes the cluster for compressed to 0 bytes: it marks the file
    compressed and writes nothing from [c_buffer]. *)
Lemma scfs_write_meta_threshold_on_stale_size_witness :
  (exists ret w',
     scfs_write_meta hdr0 (env_codec (0, 100) (0, 0)) 11 (world0 (sii_zlib 4096 4096))
     = Done ret w' /\
     In (ev_codec true ZLIB 4096 0 100) (log w') /\
     In (ev_vfs_write U_BUFFER 4096 8192 4096) (log w') /\
     compressed (sii w') = false) /\
  (exists ret w',
     scfs_write_meta hdr0 (env_codec (0, 100) (0, 0)) 11 (world0 (sii_zlib 0 4096))
     = Done ret w' /\
     In (ev_codec true ZLIB 4096 0 100) (log w') /\
     compressed (sii w') = true /\
     Forall (fun e => forall c q x, e <> ev_vfs_write C_BUFFER c q x) (log w')).
Proof.
  split.
  - destruct (scfs_write_meta_threshold_on_stale_size hdr0 (env_codec (0, 100) (0, 0)) 11
                (world0 (sii_zlib 4096 4096)) 100)
      as (w1 & r1 & w2 & ret & w' & _ & _ & _ & Hd & Hin & Hraw & _).
    + reflexivity.
    + reflexivity.
    + discriminate.
    + reflexivity.
    + vm_compute. reflexivity.
    + vm_compute. split; [discriminate | reflexivity].
    + vm_compute. discriminate.
    + vm_compute. reflexivity.
    + discriminate.
    + reflexivity.
    + reflexivity.
    + intros t c Hc. cbn. unfold EINTR, EAGAIN. lia.
    + vm_compute. discriminate.
    + vm_compute. lia.
    + destruct Hraw as (_ & Hc & _); [vm_compute; discriminate|].
      exists ret, w'. split; [exact Hd|]. split; [exact Hin|]. split; [|exact Hc].
      vm_compute in Hd. apply Done_inv in Hd. destruct Hd as [_ <-].
      vm_compute. auto 10.
  - destruct (scfs_write_meta_threshold_on_stale_size hdr0 (env_codec (0, 100) (0, 0)) 11
                (world0 (sii_zlib 0 4096)) 100)
      as (w1 & r1 & w2 & ret & w' & _ & _ & _ & Hd & Hin & _ & Hkeep).
    + reflexivity.
    + reflexivity.
    + discriminate.
    + reflexivity.
    + vm_compute. reflexivity.
    + vm_compute. split; [discriminate | reflexivity].
    + vm_compute. discriminate.
    + vm_compute. reflexivity.
    + discriminate.
    + reflexivity.
    + reflexivity.
    + intros t c Hc. cbn. unfold EINTR, EAGAIN. lia.
    + vm_compute. discriminate.
    + vm_compute. lia.
    + destruct Hkeep as (_ & Hc & _); [vm_compute; reflexivity|].
      exists ret, w'. split; [exact Hd|]. split; [exact Hin|]. split; [exact Hc|].
      vm_compute in Hd. apply Done_inv in Hd. destruct Hd as [_ <-].
      vm_compute. repeat constructor; discriminate.
Defined.

(** ** Lower-file session *)

(** C8: a release that takes the count from 1 to 0 flushes the dirty pages,
    runs [scfs_write_meta], then drops the lower file ([fput]) and clears
    [sii->lower_file], in this order and whatever the commit returned; with
    a lower file system that gives no transient errors it does return.  An
    acquire that takes the count from 0 to 1 opens the lower file; when the
    open fails the count is back at 0, the handle is NULL and the error of
    the open is returned. *)
Theorem scfs_lower_file_session hdr env fuel w :
  lower_file_mutex (sii w) = false ->
  (lower_file_count (sii w) = 1 ->
   (log (release_start w)
    = log w ++ [ev_mutex_lock LOWER_FILE_MUTEX; ev_filemap_write_and_wait] /\
    lower_file_count (sii (release_start w)) = 0) /\
   (forall ret w1,
       scfs_write_meta hdr env fuel (release_start w) = Done ret w1 ->
       exists w2,
         scfs_put_lower_file hdr env fuel w = Done tt w2 /\
         log w2 = log w1 ++ [ev_fput; ev_mutex_unlock LOWER_FILE_MUTEX] /\
         lower_file (sii w2) = None /\
         lower_file_mutex (sii w2) = false) /\
   (no_transient (vfs_write env) ->
    0 <= SCFS_IO_MAX_RETRY hdr ->
    (Z.to_nat (SCFS_IO_MAX_RETRY hdr + 1) <= fuel)%nat ->
    cinfo_list_mutex (sii w) = false ->
    lower_i_mutex w = false ->
    exists w2 evs,
      scfs_put_lower_file hdr env fuel w = Done tt w2 /\
      log w2 = log w ++ [ev_mutex_lock LOWER_FILE_MUTEX; ev_filemap_write_and_wait]
                     ++ evs ++ [ev_fput; ev_mutex_unlock LOWER_FILE_MUTEX] /\
      lower_file (sii w2) = None)) /\
  (lower_file_count (sii w) = 0 ->
   let r := scfs_privileged_open env (clock w) in
   exists w',
     scfs_get_lower_file env w = Done r w' /\
     lower_file_mutex (sii w') = false /\
     (r <> 0 -> lower_file_count (sii w') = 0 /\ lower_file (sii w') = None) /\
     (r = 0 -> lower_file_count (sii w') = 1 /\ lower_file (sii w') <> None)).
Proof.
  intros Hm. split.
  - intros Hc.
    assert (Hput : forall ret w1,
               scfs_write_meta hdr env fuel (release_start w) = Done ret w1 ->
               scfs_put_lower_file hdr env fuel w
               = Done tt (emit (set_mutex LOWER_FILE_MUTEX false
                                  (with_sii (emit w1 ev_fput)
                                            (set_lower_file (sii (emit w1 ev_fput)) None)))
                               (ev_mutex_unlock LOWER_FILE_MUTEX))).
    { intros ret w1 H.
      unfold scfs_put_lower_file, atomic_dec_and_mutex_lock, mutex_lock, mutex_unlock.
      run. rewrite Hc. cbn [Z.eqb Pos.eqb mutex_held]. rewrite Hm.
      unfold release_start in H.
      cbn [sii emit set_mutex with_sii] in H |- *. rewrite H. reflexivity. }
    split; [|split].
    + unfold release_start. cbn. now rewrite <- app_assoc.
    + intros ret w1 H. eexists. split; [exact (Hput ret w1 H)|].
      cbn. rewrite <- app_assoc. repeat split.
    + intros Hnt Hmax Hfuel Hcm Him.
      destruct (scfs_write_meta_returns hdr env fuel Hnt Hmax Hfuel
                  (release_start w) (release_start w))
        as (ret & w1 & Hd & _ & evs & Hl).
      * apply Inv_refl. exact Him.
      * exact Hcm.
      * eexists _, evs. split; [exact (Hput ret w1 Hd)|].
        cbn [log emit with_sii set_mutex set_lower_file set_lower_file_mutex sii
             lower_file lower_file_count].
        rewrite Hl. unfold release_start. cbn [log emit with_sii set_mutex].
        rewrite <- !app_assoc. cbn [app]. repeat split.
  - intros Hc r.
    unfold scfs_get_lower_file, scfs_initialize_lower_file, mutex_lock, mutex_unlock.
    run. cbn [mutex_held]. rewrite Hm.
    cbn [sii emit set_mutex with_sii set_lower_file_mutex set_lower_file_count
         lower_file_count].
    rewrite Hc. change (0 + 1) with 1. change (1 <? 1) with false.
    change (1 =? 1) with true. cbv beta iota.
    cbn [clock emit with_sii]. fold r.
    destruct (r =? 0) eqn:Er; cbn [negb]; cbv beta iota; rewrite Er; cbn [negb].
    + apply Z.eqb_eq in Er. eexists. split; [reflexivity|].
      cbn. split; [reflexivity|]. split; [intros Hx; now elim Hx|].
      intros _. split; [reflexivity | discriminate].
    + apply Z.eqb_neq in Er. eexists. split; [reflexivity|].
      cbn. split; [reflexivity|]. split; [intros _; split; reflexivity|].
      intros Hx. now elim Er.
Qed.

(** The codec fails, the commit returns [-EIO], and the release still drops
    the lower file and clears the handle after it. *)
Lemma scfs_lower_file_session_witness :
  let w := world0 (sii0 [entry 0 0 4096; entry 1 4096 4096; entry 2 8192 4096] 1808) in
  exists w2,
    scfs_put_lower_file hdr0 (env_codec (-1, 0) (0, 0)) 11 w = Done tt w2 /\
    lower_file (sii w2) = None /\
    log w2 = [ev_mutex_lock LOWER_FILE_MUTEX; ev_filemap_write_and_wait;
              ev_mutex_lock CINFO_LIST_MUTEX; ev_alloc true;
              ev_codec true LZO 1808 (-1) 0; ev_mutex_unlock CINFO_LIST_MUTEX;
              ev_fput; ev_mutex_unlock LOWER_FILE_MUTEX].
Proof.
  cbv zeta.
  destruct (scfs_lower_file_session hdr0 (env_codec (-1, 0) (0, 0)) 11
              (world0 (sii0 [entry 0 0 4096; entry 1 4096 4096; entry 2 8192 4096] 1808))
              eq_refl) as [Hrel _].
  destruct (Hrel eq_refl) as (_ & Hany & _).
  edestruct (Hany (- EIO)) as (w2 & Hp & Hl & Hf & _).
  - vm_compute. reflexivity.
  - exists w2. split; [exact Hp|]. split; [exact Hf|]. rewrite Hl. reflexivity.
Defined.

(** ** A failed compression *)

(** C3 fails on the code, at every input of this kind: when the pending list is not empty,
    the file is compressible, bytes are staged and [scfs_compress] returns
    an error [ret], [scfs_write_meta] returns [ret] to its caller; after the
    codec call it does nothing to the lower file (neither cluster nor index
    nor footer is written), and the pending descriptors are dropped. *)
Theorem scfs_write_meta_aborts_on_compress_failure hdr env fuel w ret sz w1 :
  cinfo_list_mutex (sii w) = false ->
  cinfo_list (sii w) <> [] ->
  data_compressable (sii w) = true ->
  0 < original_size (cluster_buffer (sii w)) ->
  scfs_compress env (sii_comp_type (sii w)) (original_size (cluster_buffer (sii w)))
    (size (cinfo (List.last (cinfo_list (sii w)) dummy_entry)))
    (emit (set_mutex CINFO_LIST_MUTEX true w) (ev_mutex_lock CINFO_LIST_MUTEX))
  = Done (ret, sz) w1 ->
  ret <> 0 ->
  exists w',
    scfs_write_meta hdr env fuel w = Done ret w' /\
    log w' = log w1 ++ [ev_mutex_unlock CINFO_LIST_MUTEX] /\
    cinfo_list (sii w') = [] /\
    lower_i_size w' = lower_i_size w.
Proof.
  intros Hm Hl Hc Ho Hcomp Hret.
  set (lw := emit (set_mutex CINFO_LIST_MUTEX true w) (ev_mutex_lock CINFO_LIST_MUTEX))
    in *.
  destruct (scfs_compress_returns env (sii_comp_type (sii w))
              (original_size (cluster_buffer (sii w)))
              (size (cinfo (List.last (cinfo_list (sii w)) dummy_entry))) lw)
    as (a & w1' & Hd & _ & Hsz & _).
  rewrite Hcomp in Hd. apply Done_inv in Hd. destruct Hd as [_ <-].
  assert (Hlock : mutex_lock CINFO_LIST_MUTEX w = Done tt lw).
  { unfold mutex_lock. cbn [mutex_held]. rewrite Hm. reflexivity. }
  assert (Hbody : write_meta_body hdr env fuel lw
                  = Done ret (with_sii w1
                       (set_cinfo_list (sii w1)
                          (removelast (cinfo_list (sii w1))
                           ++ [set_entry_size
                                 (List.last (cinfo_list (sii w)) dummy_entry) sz])))).
  { unfold write_meta_body, write_last_cluster, store_last. run.
    change (sii lw) with (set_cinfo_list_mutex (sii w) true).
    cbn [data_compressable cluster_buffer sii_comp_type cinfo_list set_cinfo_list_mutex].
    rewrite Hc.
    replace (original_size (cluster_buffer (sii w)) >? 0) with true
      by (symmetry; rewrite Z.gtb_ltb; now apply Z.ltb_lt).
    cbv beta iota.
    change (sii lw) with (set_cinfo_list_mutex (sii w) true).
    cbn [data_compressable cluster_buffer sii_comp_type cinfo_list set_cinfo_list_mutex].
    rewrite Hcomp. cbv beta iota.
    replace (ret =? 0) with false by (symmetry; now apply Z.eqb_neq).
    reflexivity. }
  unfold scfs_write_meta. unfold bind at 1. rewrite Hlock.
  unfold bind at 1. unfold get_sii at 1.
  change (cinfo_list (sii lw)) with (cinfo_list (sii w)).
  destruct (cinfo_list (sii w)) as [|e l] eqn:El; [congruence|]. cbn [list_empty].
  unfold bind at 1. rewrite Hbody.
  unfold free_out, buf_free_out, mutex_unlock. run.
  cases_goal; (eexists; split; [reflexivity|]);
    (split; [cbn; reflexivity|]); (split; [reflexivity|]); exact Hsz.
Qed.

(** The last cluster (index 2) holds 1808 staged bytes and the codec fails:
    the commit returns [-EIO] and its whole trace is the mutex, the
    allocation of the LZO work memory and the codec call. *)
Lemma scfs_write_meta_aborts_on_compress_failure_witness :
  let env := env_codec (-1, 0) (0, 0) in
  let w := world0 (sii0 [entry 0 0 4096; entry 1 4096 4096; entry 2 8192 4096] 1808) in
  exists w',
    scfs_write_meta hdr0 env 11 w = Done (- EIO) w' /\
    log w' = [ev_mutex_lock CINFO_LIST_MUTEX; ev_alloc true;
              ev_codec true LZO 1808 (-1) 0; ev_mutex_unlock CINFO_LIST_MUTEX].
Proof.
  cbv zeta.
  edestruct (scfs_write_meta_aborts_on_compress_failure hdr0 (env_codec (-1, 0) (0, 0)) 11
               (world0 (sii0 [entry 0 0 4096; entry 1 4096 4096; entry 2 8192 4096] 1808))
               (- EIO)) as (w' & Hd & Hlog & _).
  - reflexivity.
  - discriminate.
  - reflexivity.
  - reflexivity.
  - vm_compute. reflexivity.
  - discriminate.
  - exists w'. split; [exact Hd|]. rewrite Hlog. reflexivity.
Defined.

(** * Further properties *)

(** ** Lower I/O at its edges *)

(** A primitive that moves every byte it is asked for. *)
Lemma lower_io_loop_full hdr io ev grows fuel count pos w :
  (forall t c, 0 < c -> io t c = c) ->
  0 < count ->
  1 <= SCFS_IO_MAX_RETRY hdr ->
  lower_io_loop hdr io ev grows (S fuel) count 0 0 pos w
  = Done (count, pos + count)
      (let w1 := tick w (ev count pos count) in
       if grows then with_lower_i_size w1 (Z.max (lower_i_size w1) (pos + count)) else w1).
Proof.
  intros Hio Hc Hmax.
  assert (E1 : (1 >? SCFS_IO_MAX_RETRY hdr) = false)
    by (rewrite Z.gtb_ltb; apply Z.ltb_ge; lia).
  assert (E2 : (count <? 0) = false) by (apply Z.ltb_ge; lia).
  assert (E3 : (0 <? count) = true) by (now apply Z.ltb_lt).
  simpl. rewrite E3. run. rewrite Z.sub_0_r, (Hio _ _ Hc), E2.
  cbn [Z.add]. rewrite E1.
  destruct fuel; simpl; rewrite Z.ltb_irrefl; reflexivity.
Qed.

(** A read leaves the size of the lower file alone. *)
Lemma lower_io_loop_read_size hdr io ev fuel :
  forall count done retry pos w a w',
    lower_io_loop hdr io ev false fuel count done retry pos w = Done a w' ->
    lower_i_size w' = lower_i_size w.
Proof.
  induction fuel as [|fuel IH]; intros count done retry pos w a w' H; simpl in H.
  - branch H; run; now inversion H.
  - branch H; run; [|now inversion H].
    repeat branch H; try (apply IH in H; exact H); now inversion H.
Qed.

(** While the primitive moves nothing, every call counts against the
    ceiling: [n] calls remain and the loop ends in [-EIO] after them. *)
Lemma lower_io_loop_stalls hdr io ev grows :
  (forall t c, io t c = 0) ->
  forall n fuel count done retry pos w,
    done < count ->
    retry + Z.of_nat (S n) = SCFS_IO_MAX_RETRY hdr + 1 ->
    (S n <= fuel)%nat ->
    exists w',
      lower_io_loop hdr io ev grows fuel count done retry pos w = Done (- EIO, pos) w' /\
      log w' = log w ++ repeat (ev (count - done) pos 0) (S n) /\
      clock w' = (clock w + S n)%nat.
Proof.
  intros Hio. induction n as [|n IH]; intros fuel count done retry pos w Hlt Hr Hf;
    (destruct fuel as [|fuel]; [lia|]); simpl;
    (replace (done <? count) with true by (symmetry; now apply Z.ltb_lt));
    run; rewrite Hio; cbn [Z.ltb Z.compare]; rewrite !Z.add_0_r.
  - replace (retry + 1 >? SCFS_IO_MAX_RETRY hdr) with true
      by (symmetry; rewrite Z.gtb_ltb; apply Z.ltb_lt; lia).
    eexists. split; [reflexivity|].
    destruct grows; cbn; split; try reflexivity; lia.
  - replace (retry + 1 >? SCFS_IO_MAX_RETRY hdr) with false
      by (symmetry; rewrite Z.gtb_ltb; apply Z.ltb_ge; lia).
    match goal with |- context [lower_io_loop _ _ _ _ _ _ _ _ _ ?w1] =>
      destruct (IH fuel count done (retry + 1) pos w1 Hlt) as (w' & Hd & Hl & Hc);
        [lia | lia |] end.
    exists w'. split; [exact Hd|].
    rewrite Hl, Hc. destruct grows; cbn; rewrite <- app_assoc; split; try reflexivity; lia.
Qed.

(** X1: at the end of the lower file.  When [vfs_read] delivers nothing (a
    read at or past the end of the lower file returns 0), [scfs_lower_read]
    of a positive count asks [SCFS_IO_MAX_RETRY + 1] times for the same
    bytes at the same position and then returns [-EIO]; it never returns a
    short count or 0. *)
Theorem scfs_lower_read_at_end_of_file hdr env fuel buf count pos w :
  0 < count ->
  0 <= SCFS_IO_MAX_RETRY hdr ->
  (forall t c, vfs_read env t c = 0) ->
  (Z.to_nat (SCFS_IO_MAX_RETRY hdr + 1) <= fuel)%nat ->
  exists w',
    scfs_lower_read hdr env fuel buf count pos w = Done (- EIO, pos) w' /\
    log w' = log w ++ repeat (ev_vfs_read buf count pos 0)
                             (Z.to_nat (SCFS_IO_MAX_RETRY hdr + 1)) /\
    sii w' = sii w /\ lower_i_size w' = lower_i_size w.
Proof.
  intros Hc Hmax Hio Hf. unfold scfs_lower_read.
  destruct (Z.to_nat (SCFS_IO_MAX_RETRY hdr + 1)) as [|n] eqn:En; [lia|].
  destruct (lower_io_loop_stalls hdr (vfs_read env) (ev_vfs_read buf) false Hio
              n fuel count 0 0 pos w) as (w' & Hd & Hl & _); [lia | lia | exact Hf |].
  exists w'. split; [exact Hd|]. rewrite Z.sub_0_r in Hl. split; [exact Hl|].
  destruct (lower_io_loop_frame _ _ _ _ _ _ _ _ _ _ _ _ _ Hd) as [(Hs & _ & _) _].
  split; [exact Hs|]. exact (lower_io_loop_read_size _ _ _ _ _ _ _ _ _ _ _ Hd).
Qed.

(** 100 bytes wanted at offset 5000 of a lower file that ends there: eleven
    reads of nothing, then [-EIO]. *)
Lemma scfs_lower_read_at_end_of_file_witness :
  exists w',
    scfs_lower_read hdr0 env_eof 11 U_BUFFER 100 5000 (world0 (sii0 [] 0))
    = Done (- EIO, 5000) w' /\
    log w' = repeat (ev_vfs_read U_BUFFER 100 5000 0) 11.
Proof.
  destruct (scfs_lower_read_at_end_of_file hdr0 env_eof 11 U_BUFFER 100 5000
              (world0 (sii0 [] 0))) as (w' & Hd & Hl & _).
  - lia.
  - simpl; lia.
  - reflexivity.
  - simpl; lia.
  - exists w'. split; [exact Hd | exact Hl].
Defined.

(** A transfer that returns a count has moved all of it: the position is
    behind the last byte, and a write has extended the lower file that far. *)
Lemma lower_io_loop_position hdr io ev grows fuel :
  forall count done retry pos w r p w',
    (forall t c, 0 < c -> io t c <= c) ->
    done <= count ->
    lower_io_loop hdr io ev grows fuel count done retry pos w = Done (r, p) w' ->
    0 <= r ->
    r = count /\ p = pos + (count - done) /\
    lower_i_size w' = if grows && (done <? count)
                      then Z.max (lower_i_size w) p else lower_i_size w.
Proof.
  induction fuel as [|fuel IH]; intros count done retry pos w r p w' Hio Hle H Hr;
    simpl in H.
  - branch H; run; inversion H; subst.
    apply Z.ltb_ge in Heqb. rewrite andb_false_r. repeat split; lia.
  - branch H; run.
    + branch H.
      * branch H.
        -- apply IH in H; auto. rewrite Heqb in *. exact H.
        -- inversion H; subst. apply Z.ltb_lt in Heqb0. lia.
      * branch H.
        -- inversion H; subst. unfold EIO in Hr. lia.
        -- apply Z.ltb_lt in Heqb. apply Z.ltb_ge in Heqb0.
           pose proof (Hio (clock w) (count - done) ltac:(lia)) as Hc.
           apply IH in H; [|exact Hio|lia|exact Hr].
           destruct H as (-> & -> & Hs). split; [reflexivity|]. split; [lia|].
           rewrite Hs. destruct grows; cbn [andb]; [|reflexivity].
           replace (done <? count) with true by (symmetry; apply Z.ltb_lt; lia).
           cbn [lower_i_size with_lower_i_size tick].
           destruct (done + io (clock w) (count - done) <? count) eqn:E.
           ++ apply Z.ltb_lt in E. lia.
           ++ apply Z.ltb_ge in E. f_equal. lia.
    + inversion H; subst. apply Z.ltb_ge in Heqb. rewrite andb_false_r.
      repeat split; lia.
Qed.

(** X2: where a lower transfer ends.  When [scfs_lower_write] returns a
    value that is not negative, that value is [count], [*pos] has advanced
    by [count], and the lower file reaches at least to the new position;
    when [scfs_lower_read] does, [*pos] has advanced by [count] and the size
    of the lower file is as before.  Neither touches the inode or superblock
    information. *)
Theorem scfs_lower_io_position hdr env fuel buf count pos w r p w' :
  0 < count ->
  (forall t c, 0 < c -> vfs_read env t c <= c) ->
  (forall t c, 0 < c -> vfs_write env t c <= c) ->
  0 <= r ->
  (scfs_lower_write hdr env fuel buf count pos w = Done (r, p) w' ->
   r = count /\ p = pos + count /\
   lower_i_size w' = Z.max (lower_i_size w) (pos + count) /\
   sii w' = sii w /\ sbi w' = sbi w) /\
  (scfs_lower_read hdr env fuel buf count pos w = Done (r, p) w' ->
   r = count /\ p = pos + count /\
   lower_i_size w' = lower_i_size w /\
   sii w' = sii w /\ sbi w' = sbi w).
Proof.
  intros Hc Hrd Hwr Hr. unfold scfs_lower_write, scfs_lower_read. split; intros H.
  - destruct (lower_io_loop_frame _ _ _ _ _ _ _ _ _ _ _ _ _ H) as [(Hs & Hb & _) _].
    apply lower_io_loop_position in H; [|exact Hwr|lia|exact Hr].
    destruct H as (-> & Hp & Hsz). rewrite Z.sub_0_r in Hp. subst p.
    replace (0 <? count) with true in Hsz by (symmetry; now apply Z.ltb_lt).
    repeat split; assumption.
  - destruct (lower_io_loop_frame _ _ _ _ _ _ _ _ _ _ _ _ _ H) as [(Hs & Hb & _) _].
    apply lower_io_loop_position in H; [|exact Hrd|lia|exact Hr].
    destruct H as (-> & Hp & Hsz). rewrite Z.sub_0_r in Hp. subst p.
    repeat split; assumption.
Qed.

(** 100 bytes written at offset 50 of an empty lower file: the position and
    the size of the file are 150. *)
Lemma scfs_lower_io_position_witness :
  exists p w',
    scfs_lower_write hdr0 (env_ok 0 0) 11 U_BUFFER 100 50 (world0 (sii0 [] 0))
    = Done (100, p) w' /\
    p = 150 /\ lower_i_size w' = 150.
Proof.
  assert (H : exists p w',
             scfs_lower_write hdr0 (env_ok 0 0) 11 U_BUFFER 100 50 (world0 (sii0 [] 0))
             = Done (100, p) w') by (vm_compute; eauto).
  destruct H as (p & w' & H). exists p, w'. split; [exact H|].
  destruct (scfs_lower_io_position hdr0 (env_ok 0 0) 11 U_BUFFER 100 50
              (world0 (sii0 [] 0)) 100 p w') as [Hw _].
  - lia.
  - intros t c Hc; simpl; lia.
  - intros t c Hc; simpl; lia.
  - lia.
  - destruct (Hw H) as (_ & Hp & Hs & _). split; [exact Hp | exact Hs].
Defined.

(** A primitive that moves one byte a call, with as many bytes left as
    calls: the call that completes the transfer is the one that exceeds the
    ceiling. *)
Lemma lower_io_loop_bytewise hdr io ev :
  (forall t c, 0 < c -> io t c = 1) ->
  forall k fuel count done retry pos w,
    count - done = Z.of_nat (S k) ->
    retry + Z.of_nat (S k) = SCFS_IO_MAX_RETRY hdr + 1 ->
    (S k <= fuel)%nat ->
    exists w',
      lower_io_loop hdr io ev true fuel count done retry pos w
      = Done (- EIO, pos + Z.of_nat (S k)) w' /\
      lower_i_size w' = Z.max (lower_i_size w) (pos + Z.of_nat (S k)) /\
      clock w' = (clock w + S k)%nat.
Proof.
  intros Hio. induction k as [|k IH]; intros fuel count done retry pos w Hk Hr Hf;
    (destruct fuel as [|fuel]; [lia|]); simpl lower_io_loop;
    (replace (done <? count) with true by (symmetry; apply Z.ltb_lt; lia));
    run; (rewrite Hio by lia); change (1 <? 0) with false; cbv iota.
  - replace (retry + 1 >? SCFS_IO_MAX_RETRY hdr) with true
      by (symmetry; rewrite Z.gtb_ltb; apply Z.ltb_lt; lia).
    eexists. split; [reflexivity|]. cbn [lower_i_size with_lower_i_size tick clock].
    split; [reflexivity | lia].
  - replace (retry + 1 >? SCFS_IO_MAX_RETRY hdr) with false
      by (symmetry; rewrite Z.gtb_ltb; apply Z.ltb_ge; lia).
    match goal with |- context [lower_io_loop _ _ _ _ _ _ _ _ ?p1 ?w1] =>
      destruct (IH fuel count (done + 1) (retry + 1) p1 w1) as (w' & Hd & Hs & Hc);
        [lia | lia | lia |] end.
    exists w'. rewrite Hd, Hs, Hc.
    cbn [lower_i_size with_lower_i_size tick clock].
    split; [f_equal; f_equal; lia|]. split; lia.
Qed.

(** X3: the ceiling counts the call that completes the transfer.  With
    a lower file system that takes one byte a call, a [scfs_lower_write] of
    [SCFS_IO_MAX_RETRY + 1] bytes returns [-EIO] although every byte has been
    written: [*pos] and the size of the lower file are behind the last of
    them. *)
Theorem scfs_lower_write_ceiling_counts_last_call hdr env fuel buf pos w :
  0 <= SCFS_IO_MAX_RETRY hdr ->
  (forall t c, 0 < c -> vfs_write env t c = 1) ->
  (Z.to_nat (SCFS_IO_MAX_RETRY hdr + 1) <= fuel)%nat ->
  let count := SCFS_IO_MAX_RETRY hdr + 1 in
  exists w',
    scfs_lower_write hdr env fuel buf count pos w = Done (- EIO, pos + count) w' /\
    lower_i_size w' = Z.max (lower_i_size w) (pos + count) /\
    Z.of_nat (clock w') = Z.of_nat (clock w) + count.
Proof.
  intros Hmax Hio Hf count. unfold scfs_lower_write.
  destruct (Z.to_nat (SCFS_IO_MAX_RETRY hdr + 1)) as [|k] eqn:Ek; [lia|].
  assert (Hc : count = Z.of_nat (S k)) by (unfold count; lia).
  destruct (lower_io_loop_bytewise hdr (vfs_write env) (ev_vfs_write buf) Hio
              k fuel count 0 0 pos w) as (w' & Hd & Hs & Hcl); [lia | lia | exact Hf |].
  exists w'. rewrite Hd, Hs, Hcl, <- Hc. repeat split. lia.
Qed.

(** With a ceiling of 10 retries, 11 bytes that go out one by one are all
    written, and the write returns [-EIO]. *)
Lemma scfs_lower_write_ceiling_counts_last_call_witness :
  exists w',
    scfs_lower_write hdr0 env_bytewise 11 U_BUFFER 11 0 (world0 (sii0 [] 0))
    = Done (- EIO, 11) w' /\
    lower_i_size w' = 11.
Proof.
  destruct (scfs_lower_write_ceiling_counts_last_call hdr0 env_bytewise 11 U_BUFFER 0
              (world0 (sii0 [] 0))) as (w' & Hd & Hs & _).
  - simpl; lia.
  - reflexivity.
  - simpl; lia.
  - exists w'. split; [exact Hd | exact Hs].
Defined.

(** ** The commit at its exits *)

(** [buf_free_out]: both page pointers are NULL behind it, and the count of
    files with buffers has gone down by one if there was a [u_page]. *)
Lemma buf_free_out_post ret w :
  exists w',
    buf_free_out ret w = Done ret w' /\
    c_page (cluster_buffer (sii w')) = false /\
    u_page (cluster_buffer (sii w')) = false /\
    cinfo_list (sii w') = cinfo_list (sii w) /\
    cinfo_list_mutex (sii w') = cinfo_list_mutex (sii w) /\
    lower_i_mutex w' = lower_i_mutex w /\
    lower_i_size w' = lower_i_size w /\
    log w' = log w /\
    sbi w' = (if u_page (cluster_buffer (sii w))
              then add_current_file_count (sbi w) (- 1) else sbi w) /\
    data_compressable (sii w') = data_compressable (sii w) /\
    meta_invalid (sii w') = meta_invalid (sii w) /\
    compressed (sii w') = compressed (sii w).
Proof.
  unfold buf_free_out. run.
  destruct (c_page (cluster_buffer (sii w))) eqn:Ec;
    cbn [sii with_sii cluster_buffer set_cluster_buffer u_page];
    destruct (u_page (cluster_buffer (sii w))) eqn:Eu;
    (eexists; split; [reflexivity|]); cbn; rewrite ?Ec, ?Eu; repeat split.
Qed.

Lemma free_out_post ret w :
  exists w',
    free_out ret w = Done ret w' /\
    c_page (cluster_buffer (sii w')) = false /\
    u_page (cluster_buffer (sii w')) = false /\
    cinfo_list (sii w') = [] /\
    cinfo_list_mutex (sii w') = false /\
    lower_i_mutex w' = lower_i_mutex w /\
    lower_i_size w' = lower_i_size w /\
    log w' = log w ++ [ev_mutex_unlock CINFO_LIST_MUTEX] /\
    sbi w' = (if u_page (cluster_buffer (sii w))
              then add_current_file_count (sbi w) (- 1) else sbi w) /\
    data_compressable (sii w') = data_compressable (sii w) /\
    meta_invalid (sii w') = meta_invalid (sii w) /\
    compressed (sii w') = compressed (sii w).
Proof.
  unfold free_out, mutex_unlock. run.
  match goal with |- context [buf_free_out ret ?w1] =>
    destruct (buf_free_out_post ret w1)
      as (w' & Hd & Hc & Hu & Hl & Hm & Hi & Hs & Hlog & Hb & Hdc & Hmi & Hcm) end.
  exists w'. split; [exact Hd|]. rewrite Hl, Hm, Hi, Hs, Hlog, Hb, Hdc, Hmi, Hcm.
  repeat split; assumption.
Qed.

(** X4: however the commit goes, it ends the same way.  With
    [cinfo_list_mutex] free on entry and a lower file system that gives no
    transient errors, [scfs_write_meta] returns; behind it the pending list
    is empty, [cinfo_list_mutex] and the lower inode's mutex are free and
    both staging pages are released.  On an empty pending list it returns 0
    and has asked nothing of the lower file: it takes and releases the
    mutex, and releases the pages. *)
Theorem scfs_write_meta_releases hdr env fuel w :
  no_transient (vfs_write env) ->
  0 <= SCFS_IO_MAX_RETRY hdr ->
  (Z.to_nat (SCFS_IO_MAX_RETRY hdr + 1) <= fuel)%nat ->
  cinfo_list_mutex (sii w) = false ->
  lower_i_mutex w = false ->
  exists ret w',
    scfs_write_meta hdr env fuel w = Done ret w' /\
    cinfo_list (sii w') = [] /\
    cinfo_list_mutex (sii w') = false /\
    lower_i_mutex w' = false /\
    c_page (cluster_buffer (sii w')) = false /\
    u_page (cluster_buffer (sii w')) = false /\
    (cinfo_list (sii w) = [] ->
     ret = 0 /\
     log w' = log w ++ [ev_mutex_lock CINFO_LIST_MUTEX; ev_mutex_unlock CINFO_LIST_MUTEX] /\
     lower_i_size w' = lower_i_size w /\
     sbi w' = (if u_page (cluster_buffer (sii w))
               then add_current_file_count (sbi w) (- 1) else sbi w)).
Proof.
  intros Hnt Hmax Hf Hm Hi.
  set (lw := emit (set_mutex CINFO_LIST_MUTEX true w) (ev_mutex_lock CINFO_LIST_MUTEX)).
  assert (Hlock : mutex_lock CINFO_LIST_MUTEX w = Done tt lw).
  { unfold mutex_lock. cbn [mutex_held]. rewrite Hm. reflexivity. }
  unfold scfs_write_meta. unfold bind at 1. rewrite Hlock.
  unfold bind at 1. unfold get_sii at 1.
  change (cinfo_list (sii lw)) with (cinfo_list (sii w)).
  destruct (cinfo_list (sii w)) as [|e l] eqn:El; cbn [list_empty].
  - unfold mutex_unlock. run.
    match goal with |- context [buf_free_out 0 ?w1] =>
      destruct (buf_free_out_post 0 w1)
        as (w' & Hd & Hc & Hu & Hl & Hmx & Him & Hs & Hlog & Hb & _) end.
    exists 0, w'. split; [exact Hd|]. rewrite Hl, Hmx, Him, Hs, Hlog, Hb.
    cbn. rewrite El, <- app_assoc.
    repeat split; try assumption.
  - destruct (write_meta_body_returns hdr env fuel Hnt Hmax Hf lw lw)
      as (ret & w1 & Hbody & Hi1 & _).
    { apply Inv_refl. exact Hi. }
    { change (cinfo_list (sii lw)) with (cinfo_list (sii w)). rewrite El. discriminate. }
    unfold bind. rewrite Hbody.
    destruct (free_out_post ret w1)
      as (w' & Hd & Hc & Hu & Hl & Hmx & Him & _).
    exists ret, w'. split; [exact Hd|].
    repeat split; try assumption; try congruence.
Qed.

(** A commit with nothing pending. *)
Lemma scfs_write_meta_releases_witness :
  exists w',
    scfs_write_meta hdr0 (env_ok 0 0) 11 (world0 (sii0 [] 0)) = Done 0 w' /\
    u_page (cluster_buffer (sii w')) = false /\
    log w' = [ev_mutex_lock CINFO_LIST_MUTEX; ev_mutex_unlock CINFO_LIST_MUTEX].
Proof.
  destruct (scfs_write_meta_releases hdr0 (env_ok 0 0) 11 (world0 (sii0 [] 0)))
    as (ret & w' & Hd & _ & _ & _ & _ & Hu & Hempty).
  - intros t c Hc. cbn. unfold EINTR, EAGAIN. lia.
  - simpl; lia.
  - simpl; lia.
  - reflexivity.
  - reflexivity.
  - destruct (Hempty eq_refl) as (Hr & Hl & _). subst ret.
    exists w'. split; [exact Hd|]. split; [exact Hu | exact Hl].
Defined.

(** With a lower file system that writes all it is asked to, a lower write
    is one transfer. *)
Lemma scfs_lower_write_full hdr env fuel buf count pos w :
  (forall t c, 0 < c -> vfs_write env t c = c) ->
  1 <= SCFS_IO_MAX_RETRY hdr ->
  (1 <= fuel)%nat ->
  0 < count ->
  scfs_lower_write hdr env fuel buf count pos w
  = Done (count, pos + count)
      (with_lower_i_size (tick w (ev_vfs_write buf count pos count))
                         (Z.max (lower_i_size w) (pos + count))).
Proof.
  intros Hio Hmax Hf Hc. destruct fuel as [|fuel]; [lia|].
  unfold scfs_lower_write. now rewrite lower_io_loop_full.
Qed.

(** The footer block when every write succeeds in full: the footer lands at
    [pos], the lower file ends behind it, and the flags are settled by the
    result of the resize and by [footer_size]. *)
Lemma write_footer_full hdr env fuel footer_size pos w :
  (forall t c, 0 < c -> vfs_write env t c = c) ->
  1 <= SCFS_IO_MAX_RETRY hdr ->
  (1 <= fuel)%nat ->
  0 < CF_SIZE hdr ->
  lower_i_mutex w = false ->
  let eof := pos + CF_SIZE hdr in
  let r := notify_change env (S (clock w)) eof in
  exists w',
    write_footer hdr env fuel footer_size pos w
    = Done (if eof <? lower_i_size w then r else 0) w' /\
    log w' = log w
      ++ [ev_vfs_write COMP_FOOTER (CF_SIZE hdr) pos (CF_SIZE hdr)]
      ++ (if eof <? lower_i_size w
          then [ev_truncate_setsize LOWER eof; ev_mutex_lock LOWER_I_MUTEX;
                ev_notify_change eof r; ev_mutex_unlock LOWER_I_MUTEX]
          else []) /\
    lower_i_size w' = eof /\
    lower_i_mutex w' = false /\
    sbi w' = sbi w /\
    sii w' = (if (eof <? lower_i_size w) && negb (r =? 0)
              then set_meta_invalid (sii w) true
              else if footer_size + CF_SIZE hdr >? CF_SIZE hdr
                   then set_meta_invalid (sii w) true
                   else set_data_compressable (sii w) false).
Proof.
  intros Hio Hmax Hf Hcf Hi eof r.
  unfold write_footer. cbv zeta. unfold bind at 1.
  rewrite (scfs_lower_write_full hdr env fuel COMP_FOOTER (CF_SIZE hdr) pos w Hio Hmax Hf Hcf).
  cbv beta iota.
  replace (CF_SIZE hdr <? 0) with false by (symmetry; apply Z.ltb_ge; lia).
  fold eof. unfold mutex_lock, mutex_unlock. run. run.
  cbn [lower_i_size with_lower_i_size tick].
  destruct (eof <? lower_i_size w) eqn:E.
  - replace (eof <? Z.max (lower_i_size w) eof) with true
      by (symmetry; apply Z.ltb_lt; apply Z.ltb_lt in E; lia).
    cbv beta iota.
    cbn [mutex_held lower_i_mutex with_lower_i_size emit tick clock set_mutex
         with_lower_i_mutex].
    rewrite Hi. cbv beta iota.
    cbn [mutex_held lower_i_mutex with_lower_i_size emit tick clock set_mutex
         with_lower_i_mutex].
    fold r. cbn [andb].
    destruct (r =? 0) eqn:Er; cbn [negb]; cbv beta iota.
    + assert (Hr0 : r = 0) by (now apply Z.eqb_eq).
      destruct (footer_size + CF_SIZE hdr >? CF_SIZE hdr);
        (eexists; split;
         [apply (f_equal2 (@Done Z)); [symmetry; exact Hr0 | reflexivity]|]);
        cbn; rewrite <- ?app_assoc; repeat split.
    + eexists; split; [reflexivity|]; cbn; rewrite <- ?app_assoc; repeat split.
  - replace (eof <? Z.max (lower_i_size w) eof) with false
      by (symmetry; apply Z.ltb_ge; apply Z.ltb_ge in E; lia).
    cbn [andb]. cbv beta iota.
    destruct (footer_size + CF_SIZE hdr >? CF_SIZE hdr);
      (eexists; split; [reflexivity|]); cbn; rewrite <- ?app_assoc; repeat split;
      try assumption; apply Z.ltb_ge in E; lia.
Qed.

(** X5: the commit of a file that is not compressible.  With a lower
    file system that writes all it is asked to, [scfs_write_meta] drops the
    last pending descriptor (counting it off [total_cluster_count]), writes
    the fixed footer of [CF_SIZE] bytes at the upper file size and nothing
    else, and leaves the lower file ending right behind the footer: a lower
    file that was longer is cut back ([r] is the result of that resize, and
    the value returned; a failed resize marks the metadata invalid).  The
    file stays not compressible. *)
Theorem scfs_write_meta_uncompressed hdr env fuel w :
  (forall t c, 0 < c -> vfs_write env t c = c) ->
  1 <= SCFS_IO_MAX_RETRY hdr ->
  (1 <= fuel)%nat ->
  0 < CF_SIZE hdr ->
  cinfo_list_mutex (sii w) = false ->
  lower_i_mutex w = false ->
  cinfo_list (sii w) <> [] ->
  data_compressable (sii w) = false ->
  let pos := i_size (sii w) in
  let eof := pos + CF_SIZE hdr in
  let r := notify_change env (S (clock w)) eof in
  exists w',
    scfs_write_meta hdr env fuel w
    = Done (if eof <? lower_i_size w then r else 0) w' /\
    log w' = log w
      ++ [ev_mutex_lock CINFO_LIST_MUTEX;
          ev_vfs_write COMP_FOOTER (CF_SIZE hdr) pos (CF_SIZE hdr)]
      ++ (if eof <? lower_i_size w
          then [ev_truncate_setsize LOWER eof; ev_mutex_lock LOWER_I_MUTEX;
                ev_notify_change eof r; ev_mutex_unlock LOWER_I_MUTEX]
          else [])
      ++ [ev_mutex_unlock CINFO_LIST_MUTEX] /\
    lower_i_size w' = eof /\
    total_cluster_count (sbi w') = total_cluster_count (sbi w) - 1 /\
    data_compressable (sii w') = false /\
    meta_invalid (sii w') =
      (if (eof <? lower_i_size w) && negb (r =? 0) then true else meta_invalid (sii w)).
Proof.
  intros Hio Hmax Hf Hcf Hm Hi Hl Hc pos eof r.
  set (lw := emit (set_mutex CINFO_LIST_MUTEX true w) (ev_mutex_lock CINFO_LIST_MUTEX)).
  assert (Hlock : mutex_lock CINFO_LIST_MUTEX w = Done tt lw).
  { unfold mutex_lock. cbn [mutex_held]. rewrite Hm. reflexivity. }
  unfold scfs_write_meta. unfold bind at 1. rewrite Hlock.
  unfold bind at 1. unfold get_sii at 1.
  change (cinfo_list (sii lw)) with (cinfo_list (sii w)).
  destruct (cinfo_list (sii w)) as [|e l] eqn:El; [congruence|]. cbn [list_empty].
  set (lw2 := with_sbi
                (with_sii lw (set_cinfo_list (sii lw) (removelast (cinfo_list (sii lw)))))
                (add_total_cluster_count (sbi lw) (- 1))).
  assert (Hbody : write_meta_body hdr env fuel lw = write_footer hdr env fuel 0 pos lw2).
  { unfold write_meta_body. run.
    change (data_compressable (sii lw)) with (data_compressable (sii w)).
    rewrite Hc. reflexivity. }
  destruct (write_footer_full hdr env fuel 0 pos lw2 Hio Hmax Hf Hcf Hi)
    as (w1 & Hd1 & Hlog1 & Hs1 & _ & Hb1 & Hsii1).
  change (clock lw2) with (clock w) in Hd1, Hlog1, Hsii1.
  change (lower_i_size lw2) with (lower_i_size w) in Hd1, Hlog1, Hsii1.
  fold eof in Hd1, Hlog1, Hs1, Hsii1. fold r in Hd1, Hlog1, Hsii1.
  unfold bind. rewrite Hbody, Hd1.
  match goal with |- context [free_out ?ret w1] =>
    destruct (free_out_post ret w1)
      as (w' & Hd & _ & _ & _ & _ & _ & Hs & Hlog & Hb & Hdc & Hmi & _) end.
  exists w'. split; [exact Hd|].
  rewrite Hs, Hlog, Hdc, Hmi, Hlog1, Hs1, Hsii1.
  split; [cbn; now rewrite <- !app_assoc|].
  split; [reflexivity|].
  split.
  { rewrite Hb, Hb1.
    destruct (u_page (cluster_buffer (sii w1))); cbn; lia. }
  replace (0 + CF_SIZE hdr >? CF_SIZE hdr) with false
    by (symmetry; rewrite Z.gtb_ltb; apply Z.ltb_ge; lia).
  destruct ((eof <? lower_i_size w) && negb (r =? 0)); cbn; auto.
Qed.

(** A file of 10000 bytes that is not compressible: the footer of 24 bytes
    goes to offset 10000 and the lower file ends at 10024. *)
Lemma scfs_write_meta_uncompressed_witness :
  exists w',
    scfs_write_meta hdr0 (env_ok 0 0) 11 (world0 sii_plain) = Done 0 w' /\
    log w' = [ev_mutex_lock CINFO_LIST_MUTEX; ev_vfs_write COMP_FOOTER 24 10000 24;
              ev_mutex_unlock CINFO_LIST_MUTEX] /\
    lower_i_size w' = 10024.
Proof.
  destruct (scfs_write_meta_uncompressed hdr0 (env_ok 0 0) 11 (world0 sii_plain))
    as (w' & Hd & Hl & Hs & _).
  - intros t c Hc; reflexivity.
  - simpl; lia.
  - lia.
  - simpl; lia.
  - reflexivity.
  - reflexivity.
  - discriminate.
  - reflexivity.
  - exists w'. split; [exact Hd|]. split; [exact Hl | exact Hs].
Defined.

(** ** The index *)

(** One round of the flush loop. *)
Lemma write_cinfo_loop_cons hdr env fuel e rest buf_pos written pos :
  write_cinfo_loop hdr env fuel (e :: rest) buf_pos written pos
  = (let cinfo_size := sizeof_scfs_cinfo hdr in
     let buf_pos := buf_pos + cinfo_size in
     modify_sii (fun s => set_cinfo_list s rest) ;;
     s <- get_sii ;;
     if (buf_pos >? cluster_size s * 2 - cinfo_size) || list_empty rest then
       '(ret, pos) <- scfs_lower_write hdr env fuel U_BUFFER buf_pos pos ;;
       if ret <? 0 then
         make_meta_invalid ;; Return (ret, pos)
       else
         let written := written + ret in
         modify_sbi (fun b =>
           add_total_cluster_count b (- Z.quot ret (sizeof_scfs_cinfo hdr))) ;;
         write_cinfo_loop hdr env fuel rest 0 written pos
     else write_cinfo_loop hdr env fuel rest buf_pos written pos).
Proof. reflexivity. Qed.

(** The flush loop when every write succeeds in full; [k] descriptors are
    in the buffer already. *)
Lemma write_cinfo_loop_full hdr env fuel :
  (forall t c, 0 < c -> vfs_write env t c = c) ->
  1 <= SCFS_IO_MAX_RETRY hdr ->
  (1 <= fuel)%nat ->
  0 < sizeof_scfs_cinfo hdr ->
  let sz := sizeof_scfs_cinfo hdr in
  forall l e k written pos w,
    0 <= k ->
    let n := k + Z.of_nat (length (e :: l)) in
    exists w',
      write_cinfo_loop hdr env fuel (e :: l) (sz * k) written pos w
      = Done (written + sz * n, pos + sz * n) w' /\
      sii w' = set_cinfo_list (sii w) [] /\
      total_cluster_count (sbi w') = total_cluster_count (sbi w) - n /\
      current_file_count (sbi w') = current_file_count (sbi w) /\
      current_data_size (sbi w') = current_data_size (sbi w) /\
      comp_threshold (sbi w') = comp_threshold (sbi w) /\
      lower_i_size w' = Z.max (lower_i_size w) (pos + sz * n) /\
      lower_i_mutex w' = lower_i_mutex w /\
      exists evs, log w' = log w ++ evs /\ write_chain pos evs (pos + sz * n).
Proof.
  intros Hio Hmax Hf Hsz sz. fold sz in Hsz.
  induction l as [|x l IH]; intros e k written pos w Hk n.
  - subst n. change (Z.of_nat (length [e])) with 1. rewrite write_cinfo_loop_cons.
    run. fold sz. cbn [list_empty]. rewrite orb_true_r.
    replace (sz * k + sz) with (sz * (k + 1)) by lia.
    rewrite (scfs_lower_write_full hdr env fuel U_BUFFER (sz * (k + 1)) pos _ Hio Hmax Hf)
      by nia.
    cbv beta iota.
    replace (sz * (k + 1) <? 0) with false by (symmetry; apply Z.ltb_ge; nia).
    eexists. split; [reflexivity|].
    cbn. rewrite Z.mul_comm, Z.quot_mul by lia.
    repeat split; try lia.
    eexists. split; [reflexivity|].
    replace (pos + (k + 1) * sz) with (pos + sz * (k + 1) + 0) at 1 by lia.
    replace ((k + 1) * sz) with (sz * (k + 1)) by lia.
    constructor; [nia|]. rewrite Z.add_0_r. constructor.
  - subst n.
    replace (Z.of_nat (length (e :: x :: l))) with (Z.of_nat (length (x :: l)) + 1)
      by (cbn [length]; lia).
    rewrite write_cinfo_loop_cons. run. fold sz. cbn [list_empty]. rewrite orb_false_r.
    replace (sz * k + sz) with (sz * (k + 1)) by lia.
    cbn [sii with_sii cluster_size set_cinfo_list].
    destruct (sz * (k + 1) >? cluster_size (sii w) * 2 - sz).
    + rewrite (scfs_lower_write_full hdr env fuel U_BUFFER (sz * (k + 1)) pos _ Hio Hmax Hf)
        by nia.
      cbv beta iota.
      replace (sz * (k + 1) <? 0) with false by (symmetry; apply Z.ltb_ge; nia).
      match goal with |- context [write_cinfo_loop _ _ _ _ 0 ?wr ?p ?w1] =>
        destruct (IH x 0 wr p w1) as (w' & Hd & Hs & Ht & Hc & Hds & Hth & Hl & Hm & Hg);
          [lia|] end.
      rewrite Z.mul_0_r in Hd. rewrite Hd.
      set (m := Z.of_nat (length (x :: l))) in *.
      assert (Hm0 : 0 <= m) by (unfold m; lia). clearbody m.
      exists w'. split; [f_equal; f_equal; lia|].
      rewrite Hs, Ht, Hc, Hds, Hth, Hl, Hm.
      cbn. rewrite Z.mul_comm, Z.quot_mul by lia.
      repeat split; try lia; try nia.
      destruct Hg as (evs & Hlog & Hch). rewrite Hlog. cbn. rewrite <- app_assoc.
      eexists. split; [reflexivity|]. cbn.
      replace ((k + 1) * sz) with (sz * (k + 1)) by lia.
      constructor; [nia|].
      replace (pos + sz * (k + (m + 1))) with (pos + sz * (k + 1) + sz * (0 + m)) by lia.
      exact Hch.
    + match goal with |- context [write_cinfo_loop _ _ _ _ _ ?wr ?p ?w1] =>
        destruct (IH x (k + 1) wr p w1) as (w' & Hd & Hs & Ht & Hc & Hds & Hth & Hl & Hm & Hg);
          [lia|] end.
      rewrite Hd.
      set (m := Z.of_nat (length (x :: l))) in *.
      assert (Hm0 : 0 <= m) by (unfold m; lia). clearbody m.
      exists w'. split; [f_equal; f_equal; lia|].
      rewrite Hs, Ht, Hc, Hds, Hth, Hl, Hm. cbn.
      repeat split; try lia.
      destruct Hg as (evs & Hlog & Hch). exists evs. split; [exact Hlog|].
      replace (pos + sz * (k + (m + 1))) with (pos + sz * (k + 1 + m)) by lia.
      exact Hch.
Qed.

(** [scfs_write_cinfo] when every write succeeds in full. *)
Lemma scfs_write_cinfo_full hdr env fuel pos w e l :
  (forall t c, 0 < c -> vfs_write env t c = c) ->
  1 <= SCFS_IO_MAX_RETRY hdr ->
  (1 <= fuel)%nat ->
  0 < sizeof_scfs_cinfo hdr ->
  compressed (sii w) = true ->
  cinfo_list (sii w) = e :: l ->
  0 <= current_cluster_idx e ->
  let sz := sizeof_scfs_cinfo hdr in
  let committed := if cinfo_array_size (sii w) =? 0 then 0 else current_cluster_idx e in
  let pending := Z.of_nat (length (e :: l)) in
  exists w',
    scfs_write_cinfo hdr env fuel pos w
    = Done (sz * (committed + pending), pos + sz * (committed + pending)) w' /\
    sii w' = set_cinfo_list (sii w) [] /\
    total_cluster_count (sbi w') = total_cluster_count (sbi w) - pending /\
    lower_i_size w' = Z.max (lower_i_size w) (pos + sz * (committed + pending)) /\
    lower_i_mutex w' = lower_i_mutex w /\
    exists evs,
      log w' = log w ++ evs /\
      write_chain pos evs (pos + sz * (committed + pending)).
Proof.
  intros Hio Hmax Hf Hsz Hc Hl Hidx sz committed pending.
  unfold scfs_write_cinfo, ASSERT. run. rewrite Hc, Hl. cbn [negb list_empty].
  cbv beta iota. fold sz.
  assert (Hp : 0 < pending) by (unfold pending; cbn [length]; lia).
  destruct (cinfo_array_size (sii w) =? 0) eqn:Ea; cbn [negb]; cbv beta iota.
  - destruct (write_cinfo_loop_full hdr env fuel Hio Hmax Hf Hsz l e 0 0 pos w)
      as (w' & Hd & Hs & Ht & _ & _ & _ & Hsize & Hmx & Hg); [lia|].
    cbv zeta in Hd, Ht, Hsize. fold sz in Hd, Hsize. fold pending in Hd, Ht, Hsize.
    rewrite Z.mul_0_r in Hd. cbn [Z.add] in Hd, Ht, Hsize.
    exists w'. subst committed. rewrite Hd, Hs, Ht, Hsize, Hmx. cbn [Z.add].
    repeat split; try assumption. 
  - subst committed. destruct (Z.eq_dec (current_cluster_idx e) 0) as [E0 | E0].
    + rewrite E0. rewrite Z.mul_0_r.
      assert (Hz : scfs_lower_write hdr env fuel CINFO_ARRAY 0 pos w = Done (0, pos) w).
      { unfold scfs_lower_write. destruct fuel; reflexivity. }
      rewrite Hz. cbv beta iota. cbn [Z.ltb Z.compare].
      destruct (write_cinfo_loop_full hdr env fuel Hio Hmax Hf Hsz l e 0 0 pos w)
        as (w' & Hd & Hs & Ht & _ & _ & _ & Hsize & Hmx & Hg); [lia|].
      cbv zeta in Hd, Ht, Hsize. fold sz in Hd, Hsize. fold pending in Hd, Ht, Hsize.
      rewrite Z.mul_0_r in Hd. cbn [Z.add] in Hd, Ht, Hsize.
      exists w'. rewrite Hd, Hs, Ht, Hsize, Hmx. cbn [Z.add].
      repeat split; try assumption.
    + rewrite (scfs_lower_write_full hdr env fuel CINFO_ARRAY _ pos w Hio Hmax Hf) by nia.
      cbv beta iota.
      replace (sz * current_cluster_idx e <? 0) with false
        by (symmetry; apply Z.ltb_ge; nia).
      match goal with |- context [write_cinfo_loop _ _ _ _ 0 ?wr ?p ?w1] =>
        destruct (write_cinfo_loop_full hdr env fuel Hio Hmax Hf Hsz l e 0 wr p w1)
          as (w' & Hd & Hs & Ht & _ & _ & _ & Hsize & Hmx & Hg); [lia|] end.
      cbv zeta in Hd, Ht, Hsize. fold sz in Hd, Hsize. fold pending in Hd, Ht, Hsize.
      rewrite Z.mul_0_r in Hd. cbn [Z.add] in Hd, Ht, Hsize.
      exists w'. rewrite Hd, Hs, Ht, Hsize, Hmx.
      cbn [sii sbi with_lower_i_size tick lower_i_size lower_i_mutex].
      split; [f_equal; f_equal; ring|].
      split; [reflexivity|]. split; [reflexivity|].
      split; [rewrite <- Z.max_assoc; f_equal; rewrite Z.max_r by nia; ring|].
      split; [reflexivity|].
      destruct Hg as (evs & Hlog & Hch). rewrite Hlog. cbn [log tick with_lower_i_size].
      rewrite <- app_assoc. eexists. split; [reflexivity|]. cbn [app].
      constructor; [nia|].
      replace (pos + sz * (current_cluster_idx e + pending))
        with (pos + sz * current_cluster_idx e + sz * (0 + pending)) by ring.
      exact Hch.
Qed.

(** X6: the index that [scfs_write_cinfo] writes.  With a lower file
    system that writes all it is asked to, the function returns the number of
    bytes of the index: one descriptor for every cluster in front of the
    first pending one when a committed array exists, and one for every
    pending descriptor.  [*pos] is behind the index, the pending list is
    empty, and [total_cluster_count] has gone down by the number of pending
    descriptors; the rest of the inode information is untouched.  The writes
    follow one another without a gap from [*pos] on. *)
Theorem scfs_write_cinfo_total hdr env fuel pos w e l :
  (forall t c, 0 < c -> vfs_write env t c = c) ->
  1 <= SCFS_IO_MAX_RETRY hdr ->
  (1 <= fuel)%nat ->
  0 < sizeof_scfs_cinfo hdr ->
  compressed (sii w) = true ->
  cinfo_list (sii w) = e :: l ->
  0 <= current_cluster_idx e ->
  let sz := sizeof_scfs_cinfo hdr in
  let committed := if cinfo_array_size (sii w) =? 0 then 0 else current_cluster_idx e in
  let pending := Z.of_nat (length (e :: l)) in
  exists w',
    scfs_write_cinfo hdr env fuel pos w
    = Done (sz * (committed + pending), pos + sz * (committed + pending)) w' /\
    sii w' = set_cinfo_list (sii w) [] /\
    total_cluster_count (sbi w') = total_cluster_count (sbi w) - pending /\
    lower_i_size w' = Z.max (lower_i_size w) (pos + sz * (committed + pending)) /\
    exists evs,
      log w' = log w ++ evs /\
      write_chain pos evs (pos + sz * (committed + pending)).
Proof.
  intros Hio Hmax Hf Hsz Hc Hl Hidx sz committed pending.
  destruct (scfs_write_cinfo_full hdr env fuel pos w e l Hio Hmax Hf Hsz Hc Hl Hidx)
    as (w' & Hd & Hs & Ht & Hsize & _ & Hch).
  exists w'. repeat split; assumption.
Qed.

(** Three pending descriptors of 8 bytes each, no committed array: an index
    of 24 bytes. *)
Lemma scfs_write_cinfo_total_witness :
  exists w',
    scfs_write_cinfo hdr0 (env_ok 0 0) 11 6000 (world0 sii_pending3)
    = Done (24, 6024) w' /\
    cinfo_list (sii w') = [] /\
    total_cluster_count (sbi w') = 0.
Proof.
  destruct (scfs_write_cinfo_total hdr0 (env_ok 0 0) 11 6000 (world0 sii_pending3)
              (entry 0 0 4096) [entry 1 4096 1000; entry 2 5096 900])
    as (w' & Hd & Hs & Ht & _).
  - intros t c Hc; reflexivity.
  - simpl; lia.
  - lia.
  - simpl; lia.
  - reflexivity.
  - reflexivity.
  - simpl; lia.
  - exists w'. split; [exact Hd|]. rewrite Hs. split; [reflexivity | exact Ht].
Defined.


(** The commit of a compressed file with nothing staged, when every write
    succeeds in full. *)
Lemma scfs_write_meta_compressed_full hdr env fuel w e l :
  (forall t c, 0 < c -> vfs_write env t c = c) ->
  1 <= SCFS_IO_MAX_RETRY hdr ->
  (1 <= fuel)%nat ->
  0 < sizeof_scfs_cinfo hdr ->
  0 < CF_SIZE hdr ->
  cinfo_list_mutex (sii w) = false ->
  lower_i_mutex w = false ->
  data_compressable (sii w) = true ->
  compressed (sii w) = true ->
  original_size (cluster_buffer (sii w)) <= 0 ->
  cinfo_list (sii w) = e :: l ->
  0 <= current_cluster_idx e ->
  let last := List.last (e :: l) dummy_entry in
  let committed := if cinfo_array_size (sii w) =? 0 then 0 else current_cluster_idx e in
  let index_at := index_pos hdr last in
  let index_size := sizeof_scfs_cinfo hdr * (committed + Z.of_nat (length (e :: l))) in
  let eof := index_at + index_size + CF_SIZE hdr in
  exists ret w',
    scfs_write_meta hdr env fuel w = Done ret w' /\
    (exists index,
       log w' = log w
         ++ [ev_mutex_lock CINFO_LIST_MUTEX]
         ++ index
         ++ [ev_vfs_write COMP_FOOTER (CF_SIZE hdr) (index_at + index_size) (CF_SIZE hdr)]
         ++ (if eof <? lower_i_size w
             then [ev_truncate_setsize LOWER eof; ev_mutex_lock LOWER_I_MUTEX;
                   ev_notify_change eof ret; ev_mutex_unlock LOWER_I_MUTEX]
             else [])
         ++ [ev_mutex_unlock CINFO_LIST_MUTEX] /\
       write_chain index_at index (index_at + index_size)) /\
    lower_i_size w' = eof /\
    (lower_i_size w <= eof -> ret = 0) /\
    meta_invalid (sii w') = true /\
    data_compressable (sii w') = true /\
    cinfo_list (sii w') = [] /\
    total_cluster_count (sbi w')
    = total_cluster_count (sbi w) - Z.of_nat (length (e :: l)).
Proof.
  intros Hio Hmax Hf Hsz Hcf Hm Hi Hdc Hc Ho Hl Hidx last committed index_at index_size eof.
  set (lw := emit (set_mutex CINFO_LIST_MUTEX true w) (ev_mutex_lock CINFO_LIST_MUTEX)).
  assert (Hlock : mutex_lock CINFO_LIST_MUTEX w = Done tt lw).
  { unfold mutex_lock. cbn [mutex_held]. rewrite Hm. reflexivity. }
  destruct (scfs_write_cinfo_full hdr env fuel index_at lw e l Hio Hmax Hf Hsz Hc Hl Hidx)
    as (w2 & Hd2 & Hs2 & Ht2 & Hsize2 & Hmx2 & index & Hlog2 & Hch2).
  cbv zeta in Hd2, Ht2, Hsize2, Hch2.
  change (cinfo_array_size (sii lw)) with (cinfo_array_size (sii w)) in Hd2, Hsize2, Hch2.
  fold committed in Hd2, Hsize2, Hch2. fold index_size in Hd2, Hsize2, Hch2.
  assert (Hlog2' : log w2 = log w ++ [ev_mutex_lock CINFO_LIST_MUTEX] ++ index).
  { rewrite Hlog2. unfold lw. cbn. now rewrite <- app_assoc. }
  change (lower_i_size lw) with (lower_i_size w) in Hsize2.
  change (lower_i_mutex lw) with (lower_i_mutex w) in Hmx2. rewrite Hi in Hmx2.
  assert (Hpos : 0 < index_size) by (unfold index_size, committed;
    destruct (cinfo_array_size (sii w) =? 0); cbn [length]; nia).
  destruct (write_footer_full hdr env fuel index_size (index_at + index_size) w2
              Hio Hmax Hf Hcf Hmx2)
    as (w3 & Hd3 & Hlog3 & Hsize3 & _ & Hb3 & Hsii3).
  fold eof in Hd3, Hlog3, Hsize3, Hsii3.
  assert (Hlt : (eof <? lower_i_size w2) = (eof <? lower_i_size w)).
  { rewrite Hsize2. destruct (eof <? lower_i_size w) eqn:E.
    - apply Z.ltb_lt in E. apply Z.ltb_lt. lia.
    - apply Z.ltb_ge in E. apply Z.ltb_ge. unfold eof. lia. }
  rewrite Hlt in Hd3, Hlog3, Hsii3.
  assert (Hbody : write_meta_body hdr env fuel lw
                  = Done (if eof <? lower_i_size w
                          then notify_change env (S (clock w2)) eof else 0) w3).
  { unfold write_meta_body, write_index_and_footer. run.
    change (sii lw) with (set_cinfo_list_mutex (sii w) true).
    cbn [data_compressable cluster_buffer cinfo_list compressed set_cinfo_list_mutex].
    rewrite Hdc.
    replace (original_size (cluster_buffer (sii w)) >? 0) with false
      by (symmetry; rewrite Z.gtb_ltb; apply Z.ltb_ge; lia).
    cbv beta iota.
    change (sii lw) with (set_cinfo_list_mutex (sii w) true).
    cbn [data_compressable cluster_buffer cinfo_list compressed set_cinfo_list_mutex].
    rewrite Hc, Hl. fold last. fold index_at. rewrite Hd2. cbv beta iota.
    replace (index_size <? 0) with false by (symmetry; apply Z.ltb_ge; lia).
    exact Hd3. }
  unfold scfs_write_meta. unfold bind at 1. rewrite Hlock.
  unfold bind at 1. unfold get_sii at 1.
  change (cinfo_list (sii lw)) with (cinfo_list (sii w)). rewrite Hl. cbn [list_empty].
  unfold bind. rewrite Hbody.
  match goal with |- context [free_out ?ret w3] =>
    destruct (free_out_post ret w3)
      as (w' & Hd & _ & _ & Hl' & _ & _ & Hs & Hlog & Hb & Hdc' & Hmi & _) end.
  eexists _, w'. split; [exact Hd|].
  rewrite Hs, Hlog, Hdc', Hmi, Hl', Hlog3, Hsize3, Hsii3.
  replace (index_size + CF_SIZE hdr >? CF_SIZE hdr) with true
    by (symmetry; rewrite Z.gtb_ltb; apply Z.ltb_lt; lia).
  rewrite Hs2.
  assert (Hcount : total_cluster_count (sbi w')
                   = total_cluster_count (sbi w) - Z.of_nat (length (e :: l))).
  { rewrite Hb, Hb3. destruct (u_page _); cbn; rewrite Ht2; reflexivity. }
  destruct (eof <? lower_i_size w) eqn:E.
  - split; [exists index; split; [rewrite Hlog2', <- !app_assoc; reflexivity | exact Hch2]|].
    split; [reflexivity|].
    split; [intros Hle; apply Z.ltb_lt in E; lia|].
    split; [now destruct (_ && _)|].
    split; [destruct (_ && _); cbn; exact Hdc|].
    split; [reflexivity | exact Hcount].
  - split; [exists index; split; [rewrite Hlog2', <- !app_assoc; reflexivity | exact Hch2]|].
    split; [reflexivity|].
    split; [reflexivity|].
    split; [reflexivity|].
    split; [exact Hdc|].
    split; [reflexivity | exact Hcount].
Qed.

(** X7: what the commit of a compressed file leaves on the lower
    file.  With nothing staged, [sii->compressed] set and a lower file system
    that writes all it is asked to, the writes of [scfs_write_meta] follow
    one another without a gap from [index_pos] to the end of the lower file:
    first the index, then the footer of [CF_SIZE] bytes right behind it.
    [index_pos] is the aligned end of the last pending cluster as line 871
    computes it, in the 32 bits of the descriptor's fields: for a cluster
    that ends at or past 4 GiB the index goes to the low 32 bits of that
    position, into the data of the lower file.  The index is taken to fit
    the [int] that counts its bytes.  The function returns 0 unless a longer
    lower file had to be cut back and that failed.  The
    metadata is marked invalid, so the next resolve reads the index back,
    and the file stays compressible. *)
Theorem scfs_write_meta_compressed_layout hdr env fuel w e l :
  (forall t c, 0 < c -> vfs_write env t c = c) ->
  1 <= SCFS_IO_MAX_RETRY hdr ->
  (1 <= fuel)%nat ->
  0 < sizeof_scfs_cinfo hdr ->
  0 < CF_SIZE hdr ->
  cinfo_list_mutex (sii w) = false ->
  lower_i_mutex w = false ->
  data_compressable (sii w) = true ->
  compressed (sii w) = true ->
  original_size (cluster_buffer (sii w)) <= 0 ->
  cinfo_list (sii w) = e :: l ->
  0 <= current_cluster_idx e ->
  let last := List.last (e :: l) dummy_entry in
  let committed := if cinfo_array_size (sii w) =? 0 then 0 else current_cluster_idx e in
  let index_at := index_pos hdr last in
  let index_size := sizeof_scfs_cinfo hdr * (committed + Z.of_nat (length (e :: l))) in
  let eof := index_at + index_size + CF_SIZE hdr in
  index_size < 2 ^ 31 ->
  exists ret w',
    scfs_write_meta hdr env fuel w = Done ret w' /\
    (exists index,
       log w' = log w
         ++ [ev_mutex_lock CINFO_LIST_MUTEX]
         ++ index
         ++ [ev_vfs_write COMP_FOOTER (CF_SIZE hdr) (index_at + index_size) (CF_SIZE hdr)]
         ++ (if eof <? lower_i_size w
             then [ev_truncate_setsize LOWER eof; ev_mutex_lock LOWER_I_MUTEX;
                   ev_notify_change eof ret; ev_mutex_unlock LOWER_I_MUTEX]
             else [])
         ++ [ev_mutex_unlock CINFO_LIST_MUTEX] /\
       write_chain index_at index (index_at + index_size)) /\
    lower_i_size w' = eof /\
    (lower_i_size w <= eof -> ret = 0) /\
    meta_invalid (sii w') = true /\
    data_compressable (sii w') = true /\
    cinfo_list (sii w') = [] /\
    total_cluster_count (sbi w')
    = total_cluster_count (sbi w) - Z.of_nat (length (e :: l)).
Proof.
  intros Hio Hmax Hf Hsz Hcf Hm Hi Hdc Hc Ho Hl Hidx last committed index_at index_size
         eof _.
  exact (scfs_write_meta_compressed_full hdr env fuel w e l
           Hio Hmax Hf Hsz Hcf Hm Hi Hdc Hc Ho Hl Hidx).
Qed.

(** Clusters 0, 1 and 2 pending, the last one ending at byte 5996: the index
    of 24 bytes goes to 5996, the footer to 6020, and the lower file ends at
    6044.  And one pending cluster of 4096 bytes at offset 4294967000: it
    ends at 4294971096, the index of 8 bytes goes to 3800 and the footer to
    3808. *)
Lemma scfs_write_meta_compressed_layout_witness :
  (exists w',
     scfs_write_meta hdr0 (env_ok 0 0) 11 (world0 sii_pending3) = Done 0 w' /\
     lower_i_size w' = 6044 /\
     meta_invalid (sii w') = true /\
     In (ev_vfs_write COMP_FOOTER 24 6020 24) (log w')) /\
  (exists w',
     scfs_write_meta hdr0 (env_ok 0 0) 11 (world0 sii_pending_high) = Done 0 w' /\
     lower_i_size w' = 3832 /\
     In (ev_vfs_write U_BUFFER 8 3800 8) (log w') /\
     In (ev_vfs_write COMP_FOOTER 24 3808 24) (log w')).
Proof.
  split.
  - destruct (scfs_write_meta_compressed_layout hdr0 (env_ok 0 0) 11 (world0 sii_pending3)
                (entry 0 0 4096) [entry 1 4096 1000; entry 2 5096 900])
      as (ret & w' & Hd & (index & Hl & _) & Hs & Hr & Hm & _).
    + intros t c Hc; reflexivity.
    + simpl; lia.
    + lia.
    + simpl; lia.
    + simpl; lia.
    + reflexivity.
    + reflexivity.
    + reflexivity.
    + reflexivity.
    + simpl; lia.
    + reflexivity.
    + simpl; lia.
    + vm_compute; reflexivity.
    + rewrite Hr in Hd by (vm_compute; discriminate).
      exists w'. split; [exact Hd|]. split; [exact Hs|]. split; [exact Hm|].
      rewrite Hl. apply in_or_app. right. apply in_or_app. right.
      apply in_or_app. right. left. reflexivity.
  - destruct (scfs_write_meta_compressed_layout hdr0 (env_ok 0 0) 11
                (world0 sii_pending_high) (entry 0 4294967000 4096) [])
      as (ret & w' & Hd & (index & Hl & Hch) & Hs & Hr & _).
    + intros t c Hc; reflexivity.
    + simpl; lia.
    + lia.
    + simpl; lia.
    + simpl; lia.
    + reflexivity.
    + reflexivity.
    + reflexivity.
    + reflexivity.
    + simpl; lia.
    + reflexivity.
    + simpl; lia.
    + vm_compute; reflexivity.
    + rewrite Hr in Hd by (vm_compute; discriminate).
      exists w'. split; [exact Hd|]. split; [exact Hs|].
      vm_compute in Hd. apply Done_inv in Hd. destruct Hd as [_ <-].
      split; vm_compute; auto 10.
Defined.

(** ** The session on an open file *)

Lemma lower_file_mutex_cycle s c :
  lower_file_mutex s = false ->
  set_lower_file_mutex (set_lower_file_count (set_lower_file_mutex s true) c) false
  = set_lower_file_count s c.
Proof. destruct s; cbn; intros ->; reflexivity. Qed.

Lemma lower_file_count_back s c :
  set_lower_file_count (set_lower_file_count s (c + 1)) (c + 1 - 1)
  = set_lower_file_count s c.
Proof. unfold set_lower_file_count. cbn. f_equal. lia. Qed.

Lemma set_lower_file_count_same s :
  set_lower_file_count s (lower_file_count s) = s.
Proof. destruct s; reflexivity. Qed.

(** An acquire on a file that is open already only counts. *)
Lemma scfs_get_lower_file_open env w :
  lower_file_mutex (sii w) = false ->
  1 <= lower_file_count (sii w) ->
  scfs_get_lower_file env w
  = Done 0 (emit (emit (with_sii w (set_lower_file_count (sii w)
                                      (lower_file_count (sii w) + 1)))
                       (ev_mutex_lock LOWER_FILE_MUTEX))
                 (ev_mutex_unlock LOWER_FILE_MUTEX)).
Proof.
  intros Hm Hc. unfold scfs_get_lower_file, mutex_lock, mutex_unlock. run.
  cbn [mutex_held]. rewrite Hm.
  cbn [sii emit set_mutex with_sii set_lower_file_mutex lower_file_count].
  replace (lower_file_count (sii w) + 1 <? 1) with false
    by (symmetry; apply Z.ltb_ge; lia).
  replace (lower_file_count (sii w) + 1 =? 1) with false
    by (symmetry; apply Z.eqb_neq; lia).
  cbv beta iota. cbn [sii emit set_mutex with_sii].
  rewrite <- (lower_file_mutex_cycle (sii w) (lower_file_count (sii w) + 1) Hm).
  reflexivity.
Qed.

(** A release that is not the last one only counts. *)
Lemma scfs_put_lower_file_open hdr env fuel w :
  lower_file_count (sii w) <> 1 ->
  scfs_put_lower_file hdr env fuel w
  = Done tt (with_sii w (set_lower_file_count (sii w) (lower_file_count (sii w) - 1))).
Proof.
  intros Hc. unfold scfs_put_lower_file, atomic_dec_and_mutex_lock. run.
  replace (lower_file_count (sii w) =? 1) with false by (symmetry; now apply Z.eqb_neq).
  reflexivity.
Qed.

(** X8: acquire and release on an open file.  When the lower file is
    open already (the count is at least 1), [scfs_get_lower_file] returns 0
    without opening anything and [scfs_put_lower_file] after it neither
    commits nor drops the file: together they take and release
    [lower_file_mutex] and leave the inode information, the superblock
    counters and the lower file exactly as they were.  On a count below 0
    the acquire returns [-EINVAL], opens nothing and leaves the count
    incremented. *)
Theorem scfs_lower_file_nested hdr env fuel w :
  lower_file_mutex (sii w) = false ->
  (1 <= lower_file_count (sii w) ->
   exists w1 w2,
     scfs_get_lower_file env w = Done 0 w1 /\
     lower_file_count (sii w1) = lower_file_count (sii w) + 1 /\
     scfs_put_lower_file hdr env fuel w1 = Done tt w2 /\
     sii w2 = sii w /\ sbi w2 = sbi w /\ lower_i_size w2 = lower_i_size w /\
     clock w2 = clock w /\
     log w2 = log w ++ [ev_mutex_lock LOWER_FILE_MUTEX; ev_mutex_unlock LOWER_FILE_MUTEX]) /\
  (lower_file_count (sii w) < 0 ->
   exists w1,
     scfs_get_lower_file env w = Done (- EINVAL) w1 /\
     lower_file_count (sii w1) = lower_file_count (sii w) + 1 /\
     lower_file (sii w1) = lower_file (sii w) /\
     lower_file_mutex (sii w1) = false /\
     log w1 = log w ++ [ev_mutex_lock LOWER_FILE_MUTEX; ev_mutex_unlock LOWER_FILE_MUTEX]).
Proof.
  intros Hm. split; intros Hc.
  - eexists _, _.
    split; [apply scfs_get_lower_file_open; assumption|].
    split; [reflexivity|].
    split; [apply scfs_put_lower_file_open; cbn; lia|].
    cbn [sii with_sii emit lower_file_count set_lower_file_count sbi lower_i_size clock log].
    rewrite lower_file_count_back, set_lower_file_count_same, <- app_assoc.
    repeat split.
  - unfold scfs_get_lower_file, mutex_lock, mutex_unlock. run.
    cbn [mutex_held]. rewrite Hm.
    cbn [sii emit set_mutex with_sii set_lower_file_mutex lower_file_count].
    replace (lower_file_count (sii w) + 1 <? 1) with true
      by (symmetry; apply Z.ltb_lt; lia).
    cbv beta iota. eexists. split; [reflexivity|].
    cbn. rewrite <- app_assoc. repeat split.
Qed.

(** A second user of a file that is open once. *)
Lemma scfs_lower_file_nested_witness :
  exists w1 w2,
    scfs_get_lower_file (env_ok 0 0) (world0 (sii0 [] 0)) = Done 0 w1 /\
    lower_file_count (sii w1) = 2 /\
    scfs_put_lower_file hdr0 (env_ok 0 0) 11 w1 = Done tt w2 /\
    sii w2 = sii0 [] 0.
Proof.
  destruct (scfs_lower_file_nested hdr0 (env_ok 0 0) 11 (world0 (sii0 [] 0)) eq_refl)
    as [Hopen _].
  destruct Hopen as (w1 & w2 & Hg & Hc & Hp & Hs & _).
  - simpl; lia.
  - exists w1, w2. split; [exact Hg|]. split; [exact Hc|]. split; [exact Hp | exact Hs].
Defined.

(** ** Reloading the index *)

(** The first transfer of a lower read asks for all of [count] at [pos]. *)
Lemma scfs_lower_read_first hdr env fuel buf count pos w r p w' :
  0 < count ->
  scfs_lower_read hdr env fuel buf count pos w = Done (r, p) w' ->
  exists x rest, log w' = log w ++ ev_vfs_read buf count pos x :: rest.
Proof.
  intros Hc H. unfold scfs_lower_read in H.
  destruct fuel as [|fuel]; simpl in H;
    replace (0 <? count) with true in H by (symmetry; now apply Z.ltb_lt).
  - discriminate.
  - run. rewrite Z.sub_0_r in H.
    assert (Hlog : forall w1 evs,
               log w1 = log (tick w (ev_vfs_read buf count pos (vfs_read env (clock w) count)))
                        ++ evs ->
               exists x rest, log w1 = log w ++ ev_vfs_read buf count pos x :: rest).
    { intros w1 evs E. cbn in E. rewrite <- app_assoc in E. cbn in E. eauto. }
    branch H.
    + branch H.
      * apply lower_io_loop_frame in H. destruct H as [_ (evs & Hl & _)].
        eapply Hlog; eauto.
      * inversion H; subst. apply (Hlog _ []). now rewrite app_nil_r.
    + branch H.
      * inversion H; subst. apply (Hlog _ []). now rewrite app_nil_r.
      * apply lower_io_loop_frame in H. destruct H as [_ (evs & Hl & _)].
        eapply Hlog; eauto.
Qed.

(** A lower read returns when the lower file system gives no transient
    errors; it leaves everything but clock and log alone. *)
Lemma scfs_lower_read_returns hdr env fuel buf count pos w :
  no_transient (vfs_read env) ->
  0 <= SCFS_IO_MAX_RETRY hdr ->
  (Z.to_nat (SCFS_IO_MAX_RETRY hdr + 1) <= fuel)%nat ->
  exists r p w',
    scfs_lower_read hdr env fuel buf count pos w = Done (r, p) w' /\
    sii w' = sii w /\ sbi w' = sbi w /\ lower_i_mutex w' = lower_i_mutex w /\
    lower_i_size w' = lower_i_size w /\
    log_grows w w' /\
    (0 < count -> exists x rest, log w' = log w ++ ev_vfs_read buf count pos x :: rest).
Proof.
  intros Hnt Hmax Hf.
  destruct (lower_io_loop_returns hdr (vfs_read env) (ev_vfs_read buf) false fuel
              count 0 0 pos w Hnt) as (r & p & w' & Hd & _);
    [lia | now rewrite Z.sub_0_r |].
  exists r, p, w'. split; [exact Hd|].
  destruct (lower_io_loop_frame _ _ _ _ _ _ _ _ _ _ _ _ _ Hd) as [(Hs & Hb & Hm) (evs & Hl & _)].
  repeat split; try assumption.
  - exact (lower_io_loop_read_size _ _ _ _ _ _ _ _ _ _ _ Hd).
  - now exists evs.
  - intros Hc. exact (scfs_lower_read_first _ _ _ _ _ _ _ _ _ _ Hc Hd).
Qed.





(** ** Commit and reload *)



(** ** Resolving committed clusters *)

(** X11: clusters of the committed index.  With valid metadata and a
    committed array of [n] descriptors ([cinfo_array_size] is [n] times the
    size of one), [get_cluster_info] of a cluster below [n] copies the
    [cluster_idx]-th descriptor of the array and returns 0; it takes no
    mutex and changes nothing.  A cluster at or past CLUSTER_COUNT is
    refused with [-EINVAL], the caller's descriptor and the state
    untouched. *)
Theorem get_cluster_info_committed hdr env CLUSTER_COUNT fuel cluster_idx target w arr :
  data_compressable (sii w) = true ->
  meta_invalid (sii w) = false ->
  cinfo_array (sii w) = Some arr ->
  0 < sizeof_scfs_cinfo hdr ->
  cinfo_array_size (sii w) = sizeof_scfs_cinfo hdr * Z.of_nat (length arr) ->
  cinfo_array_size (sii w) < 2 ^ size_t_bits hdr ->
  (0 <= cluster_idx < Z.of_nat (length arr) ->
   cluster_idx + 1 <= CLUSTER_COUNT (sii w) ->
   get_cluster_info hdr env CLUSTER_COUNT fuel cluster_idx target w
   = Done (0, nth (Z.to_nat cluster_idx) arr (mk_cinfo 0 0)) w) /\
  (CLUSTER_COUNT (sii w) < cluster_idx + 1 ->
   get_cluster_info hdr env CLUSTER_COUNT fuel cluster_idx target w
   = Done (- EINVAL, target) w).
Proof.
  intros Hc Hm Ha Hsz Hsize Hfit. split.
  - intros Hidx Hcount.
    rewrite (get_cluster_info_lookup hdr env CLUSTER_COUNT fuel cluster_idx target w Hc Hm Hcount).
    unfold cluster_info_lookup. run.
    assert (Hp : past_cinfo_array hdr (sii w) cluster_idx = false).
    { unfold past_cinfo_array, to_size_t. apply negb_false_iff, Z.ltb_lt.
      rewrite !Z.mod_small; nia. }
    rewrite Hp, Ha. cbn [negb].
    assert (Hn : (Z.to_nat cluster_idx < length arr)%nat) by lia.
    rewrite (nth_error_nth' arr (mk_cinfo 0 0) Hn).
    destruct (nth (Z.to_nat cluster_idx) arr (mk_cinfo 0 0)); reflexivity.
  - intros Hout. unfold get_cluster_info, ASSERT. run.
    rewrite Hc, Hm. cbn [negb Z.eqb].
    replace (cluster_idx + 1 >? CLUSTER_COUNT (sii w)) with true
      by (symmetry; rewrite Z.gtb_ltb; apply Z.ltb_lt; lia).
    reflexivity.
Qed.

(** Cluster 1 of two committed clusters. *)
Lemma get_cluster_info_committed_witness :
  get_cluster_info hdr0 (env_ok 0 0) CLUSTER_COUNT0 11 1 (mk_cinfo 0 0)
                   (world0 sii_committed2)
  = Done (0, mk_cinfo 4096 1000) (world0 sii_committed2).
Proof.
  destruct (get_cluster_info_committed hdr0 (env_ok 0 0) CLUSTER_COUNT0 11 1 (mk_cinfo 0 0)
              (world0 sii_committed2) [mk_cinfo 0 4096; mk_cinfo 4096 1000])
    as [Hin _].
  - reflexivity.
  - reflexivity.
  - reflexivity.
  - simpl; lia.
  - reflexivity.
  - vm_compute; reflexivity.
  - apply Hin.
    + simpl; lia.
    + vm_compute; discriminate.
Defined.

(** ** Reading without the index *)



(** ** The estimate wraps *)

Lemma min_space_wraps hdr b k :
  min_space hdr (add_current_data_size b (k * 2 ^ size_t_bits hdr)) = min_space hdr b.
Proof.
  unfold min_space. cbn [total_cluster_count current_file_count current_data_size
                         add_current_data_size].
  replace (total_cluster_count b * sizeof_scfs_cinfo hdr
           + current_file_count b * sizeof_comp_footer hdr
           + (current_data_size b + k * 2 ^ size_t_bits hdr) + PAGE_SIZE hdr)
    with (total_cluster_count b * sizeof_scfs_cinfo hdr
          + current_file_count b * sizeof_comp_footer hdr
          + current_data_size b + PAGE_SIZE hdr + k * 2 ^ size_t_bits hdr) by ring.
  apply Z_mod_plus_full.
Qed.

(** X13: the estimate of [scfs_check_space] is a [size_t].  Buffered
    data that differs by a multiple of [2 ^ size_t_bits] bytes gives the same
    answer: on a 32-bit [size_t], 4 GiB of buffered data are not seen. *)
Theorem scfs_check_space_modulo_size_t hdr env w k :
  exists ret w1 w2,
    scfs_check_space hdr env w = Done ret w1 /\
    scfs_check_space hdr env
      (with_sbi w (add_current_data_size (sbi w) (k * 2 ^ size_t_bits hdr)))
    = Done ret w2.
Proof.
  unfold scfs_check_space. run. cbn [sbi with_sbi clock].
  rewrite min_space_wraps.
  destruct (statfs env (clock w)) as [ret buf]. cbn [fst snd].
  destruct (negb (ret =? 0)); [eexists _, _, _; split; reflexivity|].
  destruct (_ <? _); eexists _, _, _; split; reflexivity.
Qed.

(** ** Staging *)

(** X14: a fresh descriptor and its resolve.  [scfs_alloc_cinfo_entry]
    returns NULL and changes nothing when the allocation fails; otherwise it
    appends a zeroed descriptor for [cluster_index] at the tail of the
    pending list and counts it in [total_cluster_count].  A resolve of that
    cluster right after finds the fresh descriptor when every entry in front
    of it has a larger index (so, on a list that was empty); behind an entry
    with a smaller index it is not found, the resolve returns [-EINVAL]. *)
Theorem scfs_alloc_cinfo_entry_then_resolve
    hdr env CLUSTER_COUNT fuel cluster_index target w :
  let new_entry := mk_entry cluster_index (mk_cinfo 0 0) 0 in
  let w1 := with_sbi (with_sii (tick w (ev_alloc true))
                        (set_cinfo_list (sii w) (cinfo_list (sii w) ++ [new_entry])))
                     (add_total_cluster_count (sbi w) 1) in
  (alloc_ok env (clock w) = false ->
   scfs_alloc_cinfo_entry env cluster_index w = Done None (tick w (ev_alloc false))) /\
  (alloc_ok env (clock w) = true ->
   scfs_alloc_cinfo_entry env cluster_index w = Done (Some new_entry) w1 /\
   (data_compressable (sii w) = true ->
    meta_invalid (sii w) = false ->
    cinfo_list_mutex (sii w) = false ->
    past_cinfo_array hdr (sii w) cluster_index = true ->
    cluster_index + 1 <= CLUSTER_COUNT (sii w1) ->
    (Forall (above cluster_index) (cinfo_list (sii w)) ->
     exists w2,
       get_cluster_info hdr env CLUSTER_COUNT fuel cluster_index target w1
       = Done (0, mk_cinfo 0 0) w2 /\
       cinfo_list_mutex (sii w2) = false) /\
    (forall pre x rest,
        cinfo_list (sii w) = pre ++ x :: rest ->
        Forall (above cluster_index) pre ->
        current_cluster_idx x < cluster_index ->
        exists w2,
          get_cluster_info hdr env CLUSTER_COUNT fuel cluster_index target w1
          = Done (- EINVAL, target) w2))).
Proof.
  intros new_entry w1. split; intros Hal.
  - unfold scfs_alloc_cinfo_entry. run. rewrite Hal. reflexivity.
  - split.
    + unfold scfs_alloc_cinfo_entry. run. rewrite Hal. reflexivity.
    + intros Hc Hm Hmx Hp Hcount.
      rewrite (get_cluster_info_lookup hdr env CLUSTER_COUNT fuel cluster_index target w1
                 Hc Hm Hcount).
      destruct (cluster_info_lookup_pending hdr cluster_index target w1 Hp Hmx)
        as (w2 & Hs2 & Heq).
      rewrite Heq. clear Heq.
      change (cinfo_list (sii w1)) with (cinfo_list (sii w) ++ [new_entry]).
      split.
      * intros Hall.
        rewrite (scan_cinfo_list_found (cinfo_list (sii w)) new_entry [] cluster_index Hall)
          by reflexivity.
        destruct (cinfo_list (sii w) ++ [new_entry]) eqn:E;
          [now apply app_eq_nil in E|].
        eexists. split; reflexivity.
      * intros pre x rest El Hpre Hx. rewrite El, <- app_assoc. cbn [app].
        rewrite (scan_cinfo_list_below pre x (rest ++ [new_entry]) cluster_index Hpre Hx).
        destruct (pre ++ x :: rest ++ [new_entry]); eauto.
Qed.

(** ** Truncate and the counters *)

(** X15: what [scfs_truncate] does not give back.  With the two
    mutexes free it returns; whatever it returns, the superblock counters
    are as before: the pending descriptors it frees stay counted in
    [total_cluster_count] (which [scfs_write_cinfo] and the commit of an
    uncompressed file do count down), and so in the estimate of
    [scfs_check_space]. *)
Theorem scfs_truncate_keeps_counters hdr env size w :
  cinfo_list_mutex (sii w) = false ->
  lower_i_mutex w = false ->
  exists ret w',
    scfs_truncate env size w = Done ret w' /\
    sbi w' = sbi w /\
    min_space hdr (sbi w') = min_space hdr (sbi w) /\
    lower_i_mutex w' = false.
Proof.
  intros Hm Hi. unfold scfs_truncate.
  destruct (size =? 0) eqn:Es; cbn [negb andb].
  - unfold call_initialize_file, mutex_lock, mutex_unlock. run. run.
    cbn [mutex_held sii emit with_sii set_mutex cinfo_list_mutex set_i_size].
    rewrite Hm. cbv beta iota.
    cbn [mutex_held sii emit with_sii set_mutex lower_i_mutex cinfo_list_mutex set_i_size
         set_cinfo_list set_cinfo_list_mutex].
    rewrite Hi. cbv beta iota.
    cbn [clock emit with_sii set_mutex with_lower_i_mutex tick].
    destruct (notify_change env (clock w) size =? 0) eqn:Er; cbn [negb]; cbv beta iota.
    + match goal with |- context [scfs_initialize_file env ?c ?s] =>
        destruct (scfs_initialize_file env c s) as [r2 s2] end.
      destruct (r2 =? 0); cbn [negb]; cbv beta iota;
        (eexists _, _; split; [reflexivity|]); cbn; auto.
    + eexists _, _; split; [reflexivity|]. cbn. auto.
  - eexists _, _. split; [reflexivity|]. auto.
Qed.

(** Three descriptors are counted and one is pending when the file is
    truncated: three stay counted. *)
Lemma scfs_truncate_keeps_counters_witness :
  exists w',
    scfs_truncate (env_ok 0 0) 0 (world0 (sii0 [entry 2 5096 900] 0)) = Done 0 w' /\
    cinfo_list (sii w') = [] /\
    total_cluster_count (sbi w') = 3.
Proof.
  destruct (scfs_truncate_keeps_counters hdr0 (env_ok 0 0) 0
              (world0 (sii0 [entry 2 5096 900] 0)) eq_refl eq_refl)
    as (ret & w' & Hd & Hb & _).
  assert (Hret : ret = 0 /\ cinfo_list (sii w') = []).
  { vm_compute in Hd. apply Done_inv in Hd. destruct Hd as [<- <-]. split; reflexivity. }
  destruct Hret as [-> Hl].
  exists w'. split; [exact Hd|]. split; [exact Hl|]. rewrite Hb. reflexivity.
Defined.

(** [scfs_decompress] returns; it leaves everything but the codec handles,
    clock and log alone, and on success [*actual] is the length LZO produced
    or, for the other algorithms, what it was on entry. *)
Lemma scfs_decompress_result env algo len actual w :
  exists r a w',
    scfs_decompress env algo len actual w = Done (r, a) w' /\
    io_frame w w' /\ lower_i_size w' = lower_i_size w /\ log_grows w w' /\
    (algo <> LZO -> a = actual) /\
    (algo = LZO -> exists t, a = snd (lzo1x_decompress_safe env t len)).
Proof.
  destruct algo; unfold scfs_decompress; run; cases_goal;
    (eexists _, _, _; split; [reflexivity|]);
    (split; [repeat split|]); (split; [reflexivity|]);
    (split; [log_grows_by_cbn|]);
    (split; [intros Hx; try reflexivity; now elim Hx|]);
    intros Hx; try discriminate;
    match goal with
    | H : lzo1x_decompress_safe env ?t len = _ |- _ => exists t; now rewrite H
    end.
Qed.

(** X16: [scfs_get_cluster_from_lower].  With a lower file system
    that gives no transient errors it returns, and
    - a descriptor larger than a cluster is refused with [-EINVAL] before
      anything is read;
    - the cluster is taken as stored raw when the file is not compressible,
      when its stored size is the cluster size, or when its stored size is
      [i_size] modulo the cluster size, wherever the cluster lies in the
      file: then only [u_buffer] is read into and the staged byte count
      becomes the stored size;
    - otherwise it is read into [c_buffer] and decompressed, and the staged
      byte count becomes what [scfs_decompress] left in [len]: the length
      LZO produced, and for the other algorithms the cluster size;
    - on every error the inode information is untouched; the superblock
      counters and the size of the lower file always are. *)
Theorem scfs_get_cluster_from_lower_stages hdr env fuel clust_info w :
  no_transient (vfs_read env) ->
  0 <= SCFS_IO_MAX_RETRY hdr ->
  (Z.to_nat (SCFS_IO_MAX_RETRY hdr + 1) <= fuel)%nat ->
  let s := sii w in
  let raw := negb (data_compressable s && (size clust_info <? cluster_size s))
             || (Z.rem (i_size s) (cluster_size s) =? size clust_info) in
  exists ret w',
    scfs_get_cluster_from_lower hdr env fuel clust_info w = Done ret w' /\
    sbi w' = sbi w /\ lower_i_size w' = lower_i_size w /\
    (cluster_size s < size clust_info -> ret = - EINVAL /\ w' = w) /\
    (ret <> 0 -> sii w' = s) /\
    (ret = 0 ->
     exists n,
       sii w' = set_cluster_buffer s (set_original_size (cluster_buffer s) n) /\
       (raw = true -> n = size clust_info) /\
       (raw = false -> sii_comp_type s <> LZO -> n = cluster_size s) /\
       (raw = false -> sii_comp_type s = LZO ->
        exists t, n = snd (lzo1x_decompress_safe env t (size clust_info)))) /\
    (size clust_info <= cluster_size s -> raw = true ->
     exists evs,
       log w' = log w ++ evs /\
       Forall (fun e => exists c q x, e = ev_vfs_read U_BUFFER c q x) evs).
Proof.
  intros Hnt Hmax Hf s raw.
  assert (Hraw : forall w0 : world, sii w0 = s -> sbi w0 = sbi w ->
            lower_i_size w0 = lower_i_size w -> log w0 = log w ->
            size clust_info <= cluster_size s -> raw = true ->
            exists ret w',
              ('(ret, _) <- scfs_lower_read hdr env fuel U_BUFFER (size clust_info)
                                            (offset clust_info) ;;
               if ret <? 0 then Return ret
               else store_original_size (size clust_info) ;; Return 0) w0 = Done ret w' /\
              sbi w' = sbi w /\ lower_i_size w' = lower_i_size w /\
              (cluster_size s < size clust_info -> ret = - EINVAL /\ w' = w) /\
              (ret <> 0 -> sii w' = s) /\
              (ret = 0 ->
               exists n,
                 sii w' = set_cluster_buffer s (set_original_size (cluster_buffer s) n) /\
                 (raw = true -> n = size clust_info) /\
                 (raw = false -> sii_comp_type s <> LZO -> n = cluster_size s) /\
                 (raw = false -> sii_comp_type s = LZO ->
                  exists t, n = snd (lzo1x_decompress_safe env t (size clust_info)))) /\
              (size clust_info <= cluster_size s -> raw = true ->
               exists evs,
                 log w' = log w ++ evs /\
                 Forall (fun e => exists c q x, e = ev_vfs_read U_BUFFER c q x) evs)).
  { intros w0 Hs0 Hb0 Hz0 Hl0 Hle Hr.
    destruct (scfs_lower_read_returns hdr env fuel U_BUFFER (size clust_info)
                (offset clust_info) w0 Hnt Hmax Hf)
      as (r & p & w1 & Hd & Hs1 & Hb1 & _ & Hz1 & _ & _).
    destruct (lower_io_loop_frame _ _ _ _ _ _ _ _ _ _ _ _ _ Hd) as [_ (evs & Hl1 & Hall)].
    unfold bind at 1. rewrite Hd. cbv beta iota.
    destruct (r <? 0) eqn:Er.
    - exists r, w1. split; [reflexivity|].
      rewrite Hs1, Hb1, Hz1, Hs0, Hb0, Hz0, Hl1, Hl0. apply Z.ltb_lt in Er.
      repeat split; try lia; eauto.
    - unfold store_original_size. run. eexists _, _. split; [reflexivity|].
      cbn [sii sbi with_sii lower_i_size log].
      rewrite Hs1, Hb1, Hz1, Hs0, Hb0, Hz0, Hl1, Hl0.
      split; [reflexivity|]. split; [reflexivity|].
      split; [intros Hx; lia|].
      split; [intros Hx; now elim Hx|].
      split; [|intros _ _; eauto].
      intros _. exists (size clust_info). repeat split; congruence. }
  unfold scfs_get_cluster_from_lower. unfold bind at 1. unfold get_sii at 1. fold s.
  destruct (size clust_info >? cluster_size s) eqn:Ebig.
  - exists (- EINVAL), w. split; [reflexivity|].
    rewrite Z.gtb_ltb in Ebig. apply Z.ltb_lt in Ebig.
    repeat split; try lia; try discriminate.
  - rewrite Z.gtb_ltb in Ebig. apply Z.ltb_ge in Ebig. cbv zeta.
    destruct (data_compressable s && (size clust_info <? cluster_size s)) eqn:Ecomp.
    + destruct (Z.rem (i_size s) (cluster_size s) =? size clust_info) eqn:Erem.
      * apply Hraw; [reflexivity | reflexivity | reflexivity | reflexivity | exact Ebig |].
        reflexivity.
      * assert (Hr : raw = false) by reflexivity.
        destruct (scfs_lower_read_returns hdr env fuel C_BUFFER (size clust_info)
                    (offset clust_info) w Hnt Hmax Hf)
          as (r & p & w1 & Hd & Hs1 & Hb1 & _ & Hz1 & _ & _).
        unfold bind at 1. rewrite Hd. cbv beta iota.
        destruct (r <? 0) eqn:Er.
        -- exists r, w1. split; [reflexivity|].
           rewrite Hs1, Hb1, Hz1. apply Z.ltb_lt in Er.
           repeat split; try lia; try congruence.
        -- destruct (scfs_decompress_result env (sii_comp_type s) (size clust_info)
                       (cluster_size s) w1)
             as (r2 & a & w2 & Hd2 & (Hs2 & Hb2 & _) & Hz2 & _ & Hother & Hlzo).
           unfold bind at 1. rewrite Hd2. cbv beta iota.
           destruct (r2 =? 0) eqn:Er2; cbn [negb].
           ++ unfold store_original_size. run. eexists _, _. split; [reflexivity|].
              cbn [sii sbi with_sii lower_i_size].
              rewrite Hs2, Hb2, Hz2, Hs1, Hb1, Hz1. fold s.
              split; [reflexivity|]. split; [reflexivity|].
              split; [intros Hx; lia|].
              split; [intros Hx; now elim Hx|].
              split; [|intros _ Hx; congruence].
              intros _. exists a. repeat split; try congruence; auto.
           ++ exists (- EIO), w2. split; [reflexivity|].
              rewrite Hs2, Hb2, Hz2, Hs1, Hb1, Hz1.
              repeat split; try lia; try congruence; discriminate.
    + apply Hraw; [reflexivity | reflexivity | reflexivity | reflexivity | exact Ebig |].
      reflexivity.
Qed.

(** A cluster stored in 1000 bytes of a file of 10000 bytes in clusters of
    4096: it is decompressed, and LZO's length 4096 is staged. *)
Lemma scfs_get_cluster_from_lower_stages_witness :
  exists w',
    scfs_get_cluster_from_lower hdr0 (env_codec (0, 100) (0, 4096)) 11
      (mk_cinfo 4096 1000) (world0 (sii0 [] 0)) = Done 0 w' /\
    original_size (cluster_buffer (sii w')) = 4096 /\
    log w' = [ev_vfs_read C_BUFFER 1000 4096 1000; ev_codec false LZO 1000 0 4096].
Proof.
  destruct (scfs_get_cluster_from_lower_stages hdr0 (env_codec (0, 100) (0, 4096)) 11
              (mk_cinfo 4096 1000) (world0 (sii0 [] 0)))
    as (ret & w' & Hd & _).
  - intros t c Hc. cbn. unfold EINTR, EAGAIN. lia.
  - simpl; lia.
  - simpl; lia.
  - assert (H : ret = 0 /\ original_size (cluster_buffer (sii w')) = 4096 /\
                log w' = [ev_vfs_read C_BUFFER 1000 4096 1000;
                          ev_codec false LZO 1000 0 4096]).
    { vm_compute in Hd. apply Done_inv in Hd. destruct Hd as [<- <-].
      repeat split. }
    destruct H as (-> & Ho & Hl). exists w'. repeat split; assumption.
Defined.

(** ** The staging buffers *)

(** X17: [scfs_get_comp_buffer] is idempotent.  When it has
    returned 0 both buffers are there, and a second call returns 0 without
    allocating or changing anything. *)
Theorem scfs_get_comp_buffer_again env page_address w w1 :
  scfs_get_comp_buffer env page_address w = Done 0 w1 ->
  u_buffer (cluster_buffer (sii w1)) = true /\
  c_buffer (cluster_buffer (sii w1)) = true /\
  scfs_get_comp_buffer env page_address w1 = Done 0 w1.
Proof.
  intros H.
  assert (Hb : u_buffer (cluster_buffer (sii w1)) = true /\
               c_buffer (cluster_buffer (sii w1)) = true).
  { unfold scfs_get_comp_buffer, get_u_buffer, get_c_buffer, modify_cluster_buffer in H.
    run. run.
    repeat (step H; cbn [sii with_sii with_sbi set_cluster_buffer cluster_buffer c_buffer
                         u_buffer set_u_buffer set_u_page set_c_buffer set_c_page tick
                         clock] in H);
      try discriminate; apply Done_inv in H; destruct H as [H0 <-];
      try discriminate; cbn; rewrite ?negb_true_iff, ?negb_false_iff in *; auto. }
  destruct Hb as [Hu Hc]. split; [exact Hu|]. split; [exact Hc|].
  unfold scfs_get_comp_buffer, get_u_buffer, get_c_buffer. run.
  rewrite Hu. cbn [negb]. cbv beta iota. rewrite Hc. reflexivity.
Qed.

(** The first call gets both buffers, the second finds them. *)
Lemma scfs_get_comp_buffer_again_witness :
  exists w1,
    scfs_get_comp_buffer (env_ok 0 0) (fun _ => true) (world0 sii_unbuffered) = Done 0 w1 /\
    scfs_get_comp_buffer (env_ok 0 0) (fun _ => true) w1 = Done 0 w1 /\
    log w1 = [ev_alloc true; ev_alloc true].
Proof.
  assert (H : exists w1,
             scfs_get_comp_buffer (env_ok 0 0) (fun _ => true) (world0 sii_unbuffered)
             = Done 0 w1 /\ log w1 = [ev_alloc true; ev_alloc true])
    by (eexists; split; vm_compute; reflexivity).
  destruct H as (w1 & H & Hl). exists w1. split; [exact H|].
  destruct (scfs_get_comp_buffer_again (env_ok 0 0) (fun _ => true)
              (world0 sii_unbuffered) w1 H) as (_ & _ & Hagain).
  split; [exact Hagain | exact Hl].
Defined.

(** X18: the buffers and the count of files that hold them.
    When [page_address] does not fail and the buffer pointers agree with the
    page pointers, [scfs_get_comp_buffer] returns 0 or [-ENOMEM], keeps that
    agreement and counts the file in [current_file_count] exactly when it
    has given it a [u_buffer]; the release at the end of the commit
    ([buf_free_out]) takes that back whatever [scfs_get_comp_buffer]
    returned: after acquire and release the count is what it was for a file
    that had no [u_buffer], and both pages are gone. *)
Theorem scfs_get_comp_buffer_balanced env page_address ret0 w :
  (forall t, page_address t = true) ->
  let b := cluster_buffer (sii w) in
  u_page b = u_buffer b ->
  c_page b = c_buffer b ->
  exists ret w1 w2,
    scfs_get_comp_buffer env page_address w = Done ret w1 /\
    (ret = 0 \/ ret = - ENOMEM) /\
    u_page (cluster_buffer (sii w1)) = u_buffer (cluster_buffer (sii w1)) /\
    c_page (cluster_buffer (sii w1)) = c_buffer (cluster_buffer (sii w1)) /\
    current_file_count (sbi w1)
    = current_file_count (sbi w)
      + (if u_buffer (cluster_buffer (sii w1)) && negb (u_buffer b) then 1 else 0) /\
    buf_free_out ret0 w1 = Done ret0 w2 /\
    current_file_count (sbi w2)
    = current_file_count (sbi w) - (if u_buffer b then 1 else 0) /\
    u_page (cluster_buffer (sii w2)) = false /\
    c_page (cluster_buffer (sii w2)) = false.
Proof.
  intros Hpa b Hu Hc.
  assert (H1 : exists ret w1,
    scfs_get_comp_buffer env page_address w = Done ret w1 /\
    (ret = 0 \/ ret = - ENOMEM) /\
    u_page (cluster_buffer (sii w1)) = u_buffer (cluster_buffer (sii w1)) /\
    c_page (cluster_buffer (sii w1)) = c_buffer (cluster_buffer (sii w1)) /\
    current_file_count (sbi w1)
    = current_file_count (sbi w)
      + (if u_buffer (cluster_buffer (sii w1)) && negb (u_buffer b) then 1 else 0)).
  { unfold scfs_get_comp_buffer, get_u_buffer, get_c_buffer, modify_cluster_buffer.
    run. run. fold b.
    destruct (u_buffer b) eqn:Eu; destruct (c_buffer b) eqn:Ec;
      repeat (cbn [negb sii with_sii with_sbi set_cluster_buffer cluster_buffer c_buffer
                   set_u_buffer set_u_page tick clock];
              fold b; rewrite ?Eu, ?Ec, ?Hpa; cbn [negb]; cbv beta iota;
              try match goal with
                  | |- context [alloc_ok env ?t] => destruct (alloc_ok env t)
                  end);
      (eexists _, _; split; [reflexivity|]);
      cbn; fold b; rewrite ?Hu, ?Hc, ?Eu, ?Ec; cbn; repeat split; auto; lia. }
  destruct H1 as (ret & w1 & Hd & Hret & Hu1 & Hc1 & Hcount).
  destruct (buf_free_out_post ret0 w1)
    as (w2 & Hd2 & Hcp & Hup & _ & _ & _ & _ & _ & Hb2 & _).
  exists ret, w1, w2. repeat split; try assumption.
  rewrite Hb2, Hu1.
  destruct (u_buffer (cluster_buffer (sii w1))) eqn:E1; destruct (u_buffer b) eqn:E0;
    cbn [current_file_count add_current_file_count]; rewrite Hcount;
    cbn [andb negb]; try lia.
  (* a buffer once there stays *)
  exfalso. clear - Hd E1 E0.
  unfold scfs_get_comp_buffer, get_u_buffer, get_c_buffer, modify_cluster_buffer in Hd.
  run. run. fold b in Hd. rewrite E0 in Hd. cbn [negb] in Hd.
  repeat (step Hd; cbn [sii with_sii with_sbi set_cluster_buffer cluster_buffer c_buffer
                        u_buffer set_u_buffer set_u_page set_c_buffer set_c_page tick
                        clock] in Hd);
    try discriminate; apply Done_inv in Hd; destruct Hd as [_ <-];
    cbn in E1; fold b in E1; congruence.
Qed.

(** A file without buffers gets them and is counted; the release at the end
    of the commit takes both back. *)
Lemma scfs_get_comp_buffer_balanced_witness :
  exists w1 w2,
    scfs_get_comp_buffer (env_ok 0 0) (fun _ => true) (world0 sii_unbuffered) = Done 0 w1 /\
    current_file_count (sbi w1) = 2 /\
    buf_free_out 0 w1 = Done 0 w2 /\
    current_file_count (sbi w2) = 1.
Proof.
  destruct (scfs_get_comp_buffer_balanced (env_ok 0 0) (fun _ => true) 0
              (world0 sii_unbuffered))
    as (ret & w1 & w2 & Hd & _ & _ & _ & _ & Hf & Hc & _).
  - reflexivity.
  - reflexivity.
  - reflexivity.
  - assert (H : ret = 0 /\ current_file_count (sbi w1) = 2).
    { vm_compute in Hd. apply Done_inv in Hd. destruct Hd as [<- <-]. split; reflexivity. }
    destruct H as [-> Hc1]. exists w1, w2. repeat split; assumption.
Defined.

(** ** Pages in the cluster buffer *)

(** A list with [p] elements from offset [a] replaced by [m]. *)
Lemma splice_length {A} (l m : list A) a p :
  length m = p -> (a + p <= length l)%nat ->
  length (firstn a l ++ m ++ skipn (a + p) l) = length l.
Proof.
  intros Hm Hl. rewrite !length_app, length_firstn, length_skipn. lia.
Qed.

Lemma splice_inside {A} (l m : list A) a p :
  length m = p -> (a <= length l)%nat ->
  firstn p (skipn a (firstn a l ++ m ++ skipn (a + p) l)) = m.
Proof.
  intros Hm Hl. rewrite skipn_app, length_firstn.
  replace (Nat.min a (length l)) with a by lia.
  rewrite Nat.sub_diag. cbn [skipn].
  rewrite (skipn_all2 (firstn a l)) by (rewrite length_firstn; lia). cbn [app].
  rewrite firstn_app, Hm, Nat.sub_diag. cbn [firstn].
  rewrite app_nil_r. rewrite <- Hm. apply firstn_all.
Qed.

Lemma splice_before {A} (l m : list A) a p b q :
  (a <= length l)%nat -> (b + q <= a)%nat ->
  firstn q (skipn b (firstn a l ++ m ++ skipn (a + p) l)) = firstn q (skipn b l).
Proof.
  intros Hl Hb. rewrite skipn_app, length_firstn.
  replace (Nat.min a (length l)) with a by lia.
  replace (b - a)%nat with 0%nat by lia. cbn [skipn].
  rewrite firstn_app, length_skipn, length_firstn.
  replace (Nat.min a (length l)) with a by lia.
  replace (q - (a - b))%nat with 0%nat by lia. cbn [firstn]. rewrite app_nil_r.
  rewrite skipn_firstn_comm, firstn_firstn. f_equal. lia.
Qed.

Lemma splice_after {A} (l m : list A) a p b :
  length m = p -> (a + p <= length l)%nat -> (a + p <= b)%nat ->
  skipn b (firstn a l ++ m ++ skipn (a + p) l) = skipn b l.
Proof.
  intros Hm Hl Hb. rewrite !skipn_app, length_firstn, Hm.
  replace (Nat.min a (length l)) with a by lia.
  rewrite (skipn_all2 (firstn a l)) by (rewrite length_firstn; lia).
  rewrite (skipn_all2 m) by lia. cbn [app].
  rewrite skipn_skipn. f_equal. lia.
Qed.

(** X19: a page goes into the cluster buffer and comes back.  When
    [sync_page_to_buffer] has copied a page into its slot of the buffer, the
    buffer has kept its length, [sync_page_from_buffer] of the same page
    index yields the page again, and the slot of every page with another
    offset in the cluster reads as it did before. *)
Theorem sync_page_round_trip hdr PGOFF_IN_CLUSTER index s page page0 buffer buffer' :
  0 < PAGE_SIZE hdr ->
  Z.of_nat (length page) = PAGE_SIZE hdr ->
  Z.of_nat (length page0) = PAGE_SIZE hdr ->
  sync_page_to_buffer hdr PGOFF_IN_CLUSTER index s page buffer = Some buffer' ->
  length buffer' = length buffer /\
  sync_page_from_buffer hdr PGOFF_IN_CLUSTER index s page0 buffer' = Some page /\
  (forall j,
      PGOFF_IN_CLUSTER j s <> PGOFF_IN_CLUSTER index s ->
      sync_page_from_buffer hdr PGOFF_IN_CLUSTER j s page0 buffer'
      = sync_page_from_buffer hdr PGOFF_IN_CLUSTER j s page0 buffer).
Proof.
  intros HP Hpage Hpage0 H.
  unfold sync_page_to_buffer, memcpy in H. cbv zeta in H.
  set (off := PAGE_SIZE hdr * PGOFF_IN_CLUSTER index s) in *.
  destruct ((0 <=? PAGE_SIZE hdr) && (0 <=? off)
            && (off + PAGE_SIZE hdr <=? Z.of_nat (length buffer))
            && (0 <=? 0) && (0 + PAGE_SIZE hdr <=? Z.of_nat (length page))) eqn:E;
    [|discriminate].
  rewrite !andb_true_iff, !Z.leb_le in E. destruct E as [[[[_ Hoff] Hfit] _] _].
  injection H as Hb.
  change (Z.to_nat 0) with 0%nat in *. cbn [skipn] in *.
  replace (Z.to_nat (PAGE_SIZE hdr)) with (length page) in * by lia.
  rewrite firstn_all in *.
  replace (Z.to_nat (off + PAGE_SIZE hdr)) with (Z.to_nat off + length page)%nat in *
    by lia.
  assert (Hlen : length buffer' = length buffer).
  { subst buffer'. apply splice_length; [reflexivity | lia]. }
  split; [exact Hlen|]. split.
  - unfold sync_page_from_buffer, memcpy. cbv zeta. fold off.
    replace ((0 <=? PAGE_SIZE hdr) && (0 <=? 0)
             && (0 + PAGE_SIZE hdr <=? Z.of_nat (length page0))
             && (0 <=? off) && (off + PAGE_SIZE hdr <=? Z.of_nat (length buffer')))
      with true
      by (symmetry; rewrite !andb_true_iff, !Z.leb_le; lia).
    change (Z.to_nat 0) with 0%nat. cbn [firstn app].
    replace (Z.to_nat (0 + PAGE_SIZE hdr)) with (length page0) by lia.
    rewrite skipn_all, app_nil_r.
    replace (Z.to_nat (PAGE_SIZE hdr)) with (length page) by lia.
    subst buffer'. rewrite splice_inside; [reflexivity | reflexivity | lia].
  - intros j Hj. unfold sync_page_from_buffer, memcpy. cbv zeta.
    set (offj := PAGE_SIZE hdr * PGOFF_IN_CLUSTER j s).
    rewrite Hlen.
    destruct ((0 <=? PAGE_SIZE hdr) && (0 <=? 0)
              && (0 + PAGE_SIZE hdr <=? Z.of_nat (length page0))
              && (0 <=? offj) && (offj + PAGE_SIZE hdr <=? Z.of_nat (length buffer)))
      eqn:E; [|reflexivity].
    rewrite !andb_true_iff, !Z.leb_le in E. destruct E as [[[_ _] Hoffj] Hfitj].
    do 3 f_equal.
    replace (Z.to_nat (PAGE_SIZE hdr)) with (length page) by lia.
    subst buffer'.
    destruct (Z_lt_le_dec (PGOFF_IN_CLUSTER j s) (PGOFF_IN_CLUSTER index s)) as [Hlt | Hge].
    + apply splice_before; [lia|]. unfold offj, off in *. nia.
    + rewrite splice_after; [reflexivity | reflexivity | lia |].
      unfold offj, off in *. nia.
Qed.

(** The second page of a cluster of two pages. *)
Lemma sync_page_round_trip_witness :
  let page := repeat Byte.x2a 4096 in
  let blank := repeat Byte.x00 4096 in
  exists buffer',
    sync_page_to_buffer hdr0 PGOFF_IN_CLUSTER0 1 sii_two_pages page (blank ++ blank)
    = Some buffer' /\
    buffer' = blank ++ page /\
    sync_page_from_buffer hdr0 PGOFF_IN_CLUSTER0 1 sii_two_pages blank buffer' = Some page.
Proof.
  cbv zeta.
  assert (H : sync_page_to_buffer hdr0 PGOFF_IN_CLUSTER0 1 sii_two_pages
                (repeat Byte.x2a 4096) (repeat Byte.x00 4096 ++ repeat Byte.x00 4096)
              = Some (repeat Byte.x00 4096 ++ repeat Byte.x2a 4096))
    by (vm_compute; reflexivity).
  eexists. split; [exact H|]. split; [reflexivity|].
  destruct (sync_page_round_trip hdr0 PGOFF_IN_CLUSTER0 1 sii_two_pages
              (repeat Byte.x2a 4096) (repeat Byte.x00 4096)
              (repeat Byte.x00 4096 ++ repeat Byte.x00 4096)
              (repeat Byte.x00 4096 ++ repeat Byte.x2a 4096)) as (_ & Hback & _).
  - simpl; lia.
  - rewrite repeat_length. reflexivity.
  - rewrite repeat_length. reflexivity.
  - exact H.
  - exact Hback.
Defined.

(** ** Mount options *)

Section MountProperties.

Import Ascii String.

Variable match_token : string -> scfs_opt * string.
Variable match_int : string -> option Z.
Variable SCFS_CLUSTER_SIZE_MAX : Z.
Variable SCFS_CLUSTER_SIZE_MIN : Z.
Variable IS_POW2 : Z -> bool.
Variable CONFIG_CRYPTO_ZLIB : bool.
Variable CONFIG_CRYPTO_FASTLZO : bool.

(** The functions of the file at these parameters. *)
Local Abbreviation parse_option' :=
  (parse_option match_token match_int SCFS_CLUSTER_SIZE_MAX SCFS_CLUSTER_SIZE_MIN
                IS_POW2 CONFIG_CRYPTO_ZLIB CONFIG_CRYPTO_FASTLZO).
Local Abbreviation parse_loop' :=
  (parse_loop match_token match_int SCFS_CLUSTER_SIZE_MAX SCFS_CLUSTER_SIZE_MIN
              IS_POW2 CONFIG_CRYPTO_ZLIB CONFIG_CRYPTO_FASTLZO).
Local Abbreviation scfs_parse_options' :=
  (scfs_parse_options match_token match_int SCFS_CLUSTER_SIZE_MAX SCFS_CLUSTER_SIZE_MIN
                      IS_POW2 CONFIG_CRYPTO_ZLIB CONFIG_CRYPTO_FASTLZO).
Local Abbreviation valid :=
  (options_valid SCFS_CLUSTER_SIZE_MAX SCFS_CLUSTER_SIZE_MIN IS_POW2
                 CONFIG_CRYPTO_ZLIB CONFIG_CRYPTO_FASTLZO).

Lemma strsep_all_not_nil s : strsep_all s <> [].
Proof.
  destruct s as [|c s]; cbn; [discriminate|].
  destruct (Ascii.eqb c ","%char); [discriminate|].
  destruct (strsep_all s); discriminate.
Qed.

(** The tokens of two option strings joined by a comma. *)
Lemma strsep_all_app a b :
  strsep_all (a ++ String ","%char b) = (strsep_all a ++ strsep_all b)%list.
Proof.
  induction a as [|c a IH]; cbn.
  - reflexivity.
  - rewrite IH. destruct (Ascii.eqb c ","%char); [reflexivity|].
    destruct (strsep_all a) eqn:E; [now apply strsep_all_not_nil in E | reflexivity].
Qed.

Lemma parse_loop_skips_empty l1 l2 :
  forall o, parse_loop' o (l1 ++ EmptyString :: l2) = parse_loop' o (l1 ++ l2).
Proof.
  induction l1 as [|p l1 IH]; intros o; cbn.
  - reflexivity.
  - destruct p; [apply IH|].
    destruct (parse_option' o _); [apply IH | reflexivity].
Qed.

Lemma parse_loop_error_is_final l1 l2 :
  forall o r o1, parse_loop' o l1 = (r, o1) -> r <> 0 ->
                 parse_loop' o (l1 ++ l2) = (r, o1).
Proof.
  induction l1 as [|p l1 IH]; intros o r o1 H Hr; cbn in *.
  - inversion H. congruence.
  - destruct p; [now apply IH|].
    destruct (parse_option' o _); [now apply IH | exact H].
Qed.

Lemma parse_loop_stops_at_bad_number l1 p l2 :
  p <> EmptyString ->
  (forall o, parse_option' o p = switch_return 0) ->
  forall o o1, parse_loop' o l1 = (0, o1) ->
               parse_loop' o (l1 ++ p :: l2) = (0, o1).
Proof.
  intros Hp Hbad. induction l1 as [|q l1 IH]; intros o o1 H; cbn in *.
  - destruct p; [congruence|]. rewrite Hbad. exact H.
  - destruct q; [now apply IH|].
    destruct (parse_option' o _); [now apply IH | exact H].
Qed.

Lemma parse_option_valid o p :
  valid o ->
  match parse_option' o p with
  | switch_break o' => valid o'
  | switch_return ret => ret = 0 \/ ret = - EINVAL
  end.
Proof.
  intros (Hcs & Hpow & Hth & Hty).
  unfold parse_option, options_valid.
  destruct (match_token p) as [token arg]. destruct token.
  - cbn. auto.
  - destruct (match_int arg) as [n|]; [|now left].
    destruct ((n >? SCFS_CLUSTER_SIZE_MAX) || (n <? SCFS_CLUSTER_SIZE_MIN)) eqn:E;
      [now right|].
    destruct (IS_POW2 n) eqn:E2; cbn [negb]; [|now right].
    apply orb_false_iff in E. destruct E as [E1 E3].
    rewrite Z.gtb_ltb in E1. apply Z.ltb_ge in E1, E3.
    cbn. repeat split; try assumption; lia.
  - destruct (match_int arg) as [n|]; [|now left].
    destruct ((n >? 100) || (n <? 0)) eqn:E; [now right|].
    apply orb_false_iff in E. destruct E as [E1 E3].
    rewrite Z.gtb_ltb in E1. apply Z.ltb_ge in E1, E3.
    cbn. repeat split; try assumption; lia.
  - destruct (String.eqb arg "lzo"); [cbn; auto 6|].
    destruct (CONFIG_CRYPTO_ZLIB && String.eqb arg "zlib") eqn:Ez;
      [apply andb_true_iff in Ez; cbn; intuition auto|].
    destruct (CONFIG_CRYPTO_FASTLZO && String.eqb arg "fastlzo") eqn:Ef;
      [apply andb_true_iff in Ef; cbn; intuition auto|].
    now right.
  - now right.
Qed.

Lemma parse_loop_valid l :
  forall o, valid o ->
            (fst (parse_loop' o l) = 0 \/ fst (parse_loop' o l) = - EINVAL) /\
            valid (snd (parse_loop' o l)).
Proof.
  induction l as [|p l IH]; intros o Hv; cbn.
  - auto.
  - destruct p; [now apply IH|].
    pose proof (parse_option_valid o (String a p) Hv) as Hp.
    destruct (parse_option' o _); [now apply IH | cbn; auto].
Qed.

(** X20: empty options are skipped.  A doubled comma reads as one, a
    comma in front or at the end reads as none, and an empty option string
    reads as no options at all: in each case [scfs_parse_options] returns the
    same value and leaves the same options. *)
Theorem scfs_parse_options_skips_empty o a b :
  let parse :=
    scfs_parse_options match_token match_int SCFS_CLUSTER_SIZE_MAX SCFS_CLUSTER_SIZE_MIN
                       IS_POW2 CONFIG_CRYPTO_ZLIB CONFIG_CRYPTO_FASTLZO o in
  parse (Some (a ++ ",," ++ b)%string) = parse (Some (a ++ "," ++ b)%string) /\
  parse (Some ("," ++ b)%string) = parse (Some b) /\
  parse (Some (a ++ ",")%string) = parse (Some a) /\
  parse (Some EmptyString) = parse None.
Proof.
  intros parse. subst parse.
  unfold scfs_parse_options. cbn [String.append].
  split; [|split; [reflexivity|split; [|reflexivity]]].
  - rewrite !strsep_all_app.
    change (strsep_all (String ","%char b)) with (EmptyString :: strsep_all b).
    apply parse_loop_skips_empty.
  - rewrite strsep_all_app. cbn [strsep_all].
    rewrite parse_loop_skips_empty, app_nil_r. reflexivity.
Qed.

(** X21: what the parser lets through.  Starting from valid options,
    [scfs_parse_options] returns 0 or [-EINVAL], and the options it leaves
    are valid again, whatever the option string and whatever it returned: a
    cluster size is stored only when it is in range and a power of two, a
    threshold only when it is a percentage, an algorithm only when the
    kernel is configured for it.  [copy_mount_flags_to_inode_flags] then
    gives the inode that cluster size and algorithm (never bzip2), and only
    ever sets flag bits: an inode that is compressible stays so. *)
Theorem scfs_parse_options_keeps_valid o options s meta_xattr :
  valid o ->
  let ret := fst (scfs_parse_options' o options) in
  let o' := snd (scfs_parse_options' o options) in
  let s' := fst (copy_mount_flags_to_inode_flags s meta_xattr o') in
  let meta_xattr' := snd (copy_mount_flags_to_inode_flags s meta_xattr o') in
  (ret = 0 \/ ret = - EINVAL) /\
  valid o' /\
  SCFS_CLUSTER_SIZE_MIN <= cluster_size s' <= SCFS_CLUSTER_SIZE_MAX /\
  IS_POW2 (cluster_size s') = true /\
  sii_comp_type s' = opt_comp_type o' /\
  sii_comp_type s' <> BZIP2 /\
  data_compressable s' = data_compressable s || opt_data_compressable o' /\
  meta_xattr' = meta_xattr || opt_xattr_meta o'.
Proof.
  intros Hv ret o' s' meta_xattr'.
  assert (H : (ret = 0 \/ ret = - EINVAL) /\ valid o').
  { subst ret o'. unfold scfs_parse_options. destruct options as [opts|].
    - apply parse_loop_valid. exact Hv.
    - cbn. auto. }
  destruct H as [Hret Hv']. split; [exact Hret|]. split; [exact Hv'|].
  destruct Hv' as (Hcs & Hpow & _ & Hty).
  subst s' meta_xattr'. unfold copy_mount_flags_to_inode_flags.
  destruct (opt_data_compressable o'), (opt_xattr_meta o'); cbn;
    rewrite ?orb_true_r, ?orb_false_r;
    (repeat split; try assumption; try reflexivity; try lia);
    destruct Hty as [-> | [[-> _] | [-> _]]]; discriminate.
Qed.

(** X22: where the parser stops.  An option that is refused ends the
    parse: what follows it in the string is not looked at, and the options
    accepted in front of it stay applied.  An option [cluster_size=] or
    [comp_threshold=] whose number [match_int] cannot read ends the parse as
    well, and with success: the mount goes on with the options in front of
    it, and the options behind it are ignored without a word. *)
Theorem scfs_parse_options_stops o a p b ret o1 :
  scfs_parse_options' o (Some a) = (ret, o1) ->
  (ret <> 0 ->
   scfs_parse_options' o (Some (a ++ "," ++ b)%string) = (ret, o1)) /\
  (ret = 0 ->
   p <> EmptyString ->
   strsep_all p = [p] ->
   fst (match_token p) = scfs_opt_cluster_size
   \/ fst (match_token p) = scfs_opt_comp_threshold ->
   match_int (snd (match_token p)) = None ->
   scfs_parse_options' o (Some (a ++ "," ++ p ++ "," ++ b)%string) = (0, o1)).
Proof.
  unfold scfs_parse_options. cbn [String.append]. intros H. split.
  - intros Hr. rewrite strsep_all_app. now apply parse_loop_error_is_final.
  - intros -> Hp Hone Htok Hint.
    rewrite strsep_all_app, strsep_all_app, Hone. cbn [app].
    apply parse_loop_stops_at_bad_number; [exact Hp | | exact H].
    intros o0. unfold parse_option.
    destruct (match_token p) as [token arg]. cbn [fst snd] in Htok, Hint.
    destruct Htok as [-> | ->]; rewrite Hint; reflexivity.
Qed.

End MountProperties.

Section MountWitnesses.

Import Ascii String.

(** A cluster size that is no power of two is refused; the threshold in
    front of it stays, and [nocomp] behind it is not applied. *)
Lemma scfs_parse_options_keeps_valid_witness :
  scfs_parse_options0 options0 (Some "comp_threshold=40,cluster_size=3000,nocomp"%string)
  = (- EINVAL, set_opt_comp_threshold options0 40) /\
  options_valid 1048576 4096 IS_POW2_0 false false (set_opt_comp_threshold options0 40).
Proof.
  destruct (scfs_parse_options_keeps_valid match_token0 match_int0 1048576 4096 IS_POW2_0
              false false options0
              (Some "comp_threshold=40,cluster_size=3000,nocomp"%string)
              (sii0 [] 0) false) as (_ & Hv & _).
  - unfold options_valid. cbn. repeat split; try lia. now left.
  - split; [vm_compute; reflexivity | exact Hv].
Defined.

(** A cluster size too large for an [int]: the mount succeeds with the
    threshold in front of it, and [nocomp] behind it is ignored. *)
Lemma scfs_parse_options_stops_witness :
  scfs_parse_options0 options0
    (Some "comp_threshold=40,cluster_size=99999999999,nocomp"%string)
  = (0, set_opt_comp_threshold options0 40).
Proof.
  destruct (scfs_parse_options_stops match_token0 match_int0 1048576 4096 IS_POW2_0
              false false options0 "comp_threshold=40"%string
              "cluster_size=99999999999"%string "nocomp"%string
              0 (set_opt_comp_threshold options0 40)) as [_ Hstop].
  - vm_compute. reflexivity.
  - apply Hstop.
    + reflexivity.
    + discriminate.
    + reflexivity.
    + left. reflexivity.
    + vm_compute. reflexivity.
Defined.

End MountWitnesses.

(** ** Slab caches *)

Lemma scfs_cache_eqb_eq a b : scfs_cache_eqb a b = true <-> a = b.
Proof. destruct a, b; cbn; split; intros H; try reflexivity; discriminate. Qed.

Lemma scfs_cache_infos_NoDup : NoDup scfs_cache_infos.
Proof. unfold scfs_cache_infos. repeat constructor; cbn; intuition discriminate. Qed.

(** The free loop destroys the caches of its table whose pointer is set, in
    the order of the table, and leaves the pointers as they are. *)
Lemma free_caches_loop_log infos :
  forall st,
    free_caches_loop infos st
    = mk_caches (cache_ptr st)
                (cache_log st ++ map ev_kmem_cache_destroy (filter (cache_ptr st) infos)).
Proof.
  induction infos as [|c infos IH]; intros st; cbn [free_caches_loop filter].
  - cbn. rewrite app_nil_r. now destruct st.
  - rewrite IH. destruct (cache_ptr st c) eqn:E; cbn; [|reflexivity].
    now rewrite <- app_assoc.
Qed.

Lemma filter_prefix (ptr : scfs_cache -> bool) done rest :
  (forall c, ptr c = true <-> In c done) ->
  NoDup (done ++ rest) ->
  filter ptr (done ++ rest) = done.
Proof.
  intros Hptr Hnd. rewrite filter_app.
  assert (H1 : filter ptr done = done).
  { clear Hnd. assert (Hall : forall c, In c done -> ptr c = true) by (intros; now apply Hptr).
    clear Hptr. induction done as [|c done IH]; cbn; [reflexivity|].
    rewrite (Hall c) by now left. f_equal. apply IH. intros; apply Hall; now right. }
  assert (H2 : filter ptr rest = []).
  { assert (Hnone : forall c, In c rest -> ptr c = false).
    { intros c Hc. destruct (ptr c) eqn:E; [|reflexivity].
      apply Hptr in E. exfalso. revert Hnd E Hc. clear. intros Hnd.
      induction done as [|d done IH]; cbn; [tauto|].
      inversion Hnd; subst. intros [-> | Hin] Hc.
      - apply H1. apply in_or_app. now right.
      - now apply IH. }
    clear - Hnone. induction rest as [|c rest IH]; cbn; [reflexivity|].
    rewrite (Hnone c) by now left. apply IH. intros; apply Hnone; now right. }
  now rewrite H1, H2, app_nil_r.
Qed.

(** The init loop, with [done] set up already and [rest] still to come. *)
Lemma init_caches_loop_spec kmem_cache_create rest :
  forall done st,
    scfs_cache_infos = done ++ rest ->
    (forall c, cache_ptr st c = true <-> In c done) ->
    let r := init_caches_loop kmem_cache_create rest st in
    (fst r = 0 /\
     (forall c, cache_ptr (snd r) c = true <-> In c scfs_cache_infos) /\
     cache_log (snd r)
     = cache_log st ++ map (fun c => ev_kmem_cache_create c true) rest) \/
    (fst r = - ENOMEM /\
     exists made c rest',
       rest = made ++ c :: rest' /\
       (forall c', cache_ptr (snd r) c' = true <-> In c' (done ++ made)) /\
       cache_log (snd r)
       = cache_log st
           ++ map (fun c => ev_kmem_cache_create c true) made
           ++ [ev_kmem_cache_create c false]
           ++ map ev_kmem_cache_destroy (done ++ made)).
Proof.
  induction rest as [|c rest IH]; intros done st Htab Hptr; cbn [init_caches_loop].
  - left. cbn. rewrite app_nil_r in *. subst done. repeat split; apply Hptr.
  - cbv zeta.
    assert (Hnd : NoDup (done ++ c :: rest))
      by (rewrite <- Htab; apply scfs_cache_infos_NoDup).
    assert (Hc : ~ In c done).
    { intros Hin. apply NoDup_remove_2 in Hnd. apply Hnd. apply in_or_app. now left. }
    destruct (kmem_cache_create (length (cache_log st)) c) eqn:Ek; cbn [negb].
    + set (st1 := cache_emit (set_cache_ptr st c true) (ev_kmem_cache_create c true)).
      destruct (IH (done ++ [c]) st1) as [(Hr & Hp & Hl) | (Hr & made & x & rest' & Hrest & Hp & Hl)].
      { rewrite <- app_assoc. exact Htab. }
      { intros c'. cbn. destruct (scfs_cache_eqb c' c) eqn:E.
        - apply scfs_cache_eqb_eq in E. subst c'. split; [intros _|reflexivity].
          apply in_or_app. right. now left.
        - rewrite Hptr. split; intros H.
          + apply in_or_app. now left.
          + apply in_app_or in H. destruct H as [H | [H | []]]; [exact H|].
            subst c'. rewrite (proj2 (scfs_cache_eqb_eq c c) eq_refl) in E. discriminate. }
      * left. split; [exact Hr|]. split; [exact Hp|].
        rewrite Hl. cbn. now rewrite <- app_assoc.
      * right. split; [exact Hr|]. exists (c :: made), x, rest'.
        split; [cbn; now rewrite Hrest|].
        split.
        { intros c'. rewrite Hp, <- app_assoc. reflexivity. }
        rewrite Hl. cbn. rewrite <- !app_assoc. cbn. reflexivity.
    + right. split; [reflexivity|]. exists [], c, rest. split; [reflexivity|].
      cbn [snd]. unfold scfs_free_kmem_caches. rewrite free_caches_loop_log.
      cbn [cache_ptr cache_log cache_emit set_cache_ptr].
      assert (Hptr' : forall c', (if scfs_cache_eqb c' c then false else cache_ptr st c') = true
                                 <-> In c' done).
      { intros c'. destruct (scfs_cache_eqb c' c) eqn:E.
        - apply scfs_cache_eqb_eq in E. subst c'. split; [discriminate | tauto].
        - apply Hptr. }
      split.
      { intros c'. rewrite app_nil_r. apply Hptr'. }
      rewrite Htab, (filter_prefix _ done (c :: rest) Hptr' Hnd), app_nil_r.
      cbn. now rewrite <- app_assoc.
Qed.

(** X23: all caches or none.  From pointers that are all NULL,
    [scfs_init_kmem_caches] either creates the eight caches of
    [scfs_cache_infos] in order and returns 0, or returns [-ENOMEM] at the
    first cache the allocator refuses; then it has created only the caches
    in front of that one and has destroyed each of them, once, and creates
    none of those behind.  The pointers of the destroyed caches are still
    set when it returns. *)
Theorem scfs_init_kmem_caches_all_or_none kmem_cache_create st :
  (forall c, cache_ptr st c = false) ->
  let r := scfs_init_kmem_caches kmem_cache_create st in
  (fst r = 0 /\
   (forall c, cache_ptr (snd r) c = true) /\
   cache_log (snd r)
   = cache_log st ++ map (fun c => ev_kmem_cache_create c true) scfs_cache_infos) \/
  (fst r = - ENOMEM /\
   exists made c rest,
     scfs_cache_infos = made ++ c :: rest /\
     (forall c', cache_ptr (snd r) c' = true <-> In c' made) /\
     cache_log (snd r)
     = cache_log st
         ++ map (fun c => ev_kmem_cache_create c true) made
         ++ [ev_kmem_cache_create c false]
         ++ map ev_kmem_cache_destroy made).
Proof.
  intros Hnull r.
  destruct (init_caches_loop_spec kmem_cache_create scfs_cache_infos [] st eq_refl)
    as [(Hr & Hp & Hl) | (Hr & made & c & rest & Htab & Hp & Hl)].
  { intros c. rewrite Hnull. cbn. split; [discriminate | tauto]. }
  - left. split; [exact Hr|]. split; [|exact Hl].
    intros c. apply Hp. destruct c; cbn; tauto.
  - right. split; [exact Hr|]. exists made, c, rest. auto.
Qed.

(** The allocator refuses the third cache: the first two are created and
    destroyed again, the other five are never asked for. *)
Lemma scfs_init_kmem_caches_all_or_none_witness :
  fst (scfs_init_kmem_caches kmem_cache_create_third_fails caches0) = - ENOMEM /\
  cache_log (snd (scfs_init_kmem_caches kmem_cache_create_third_fails caches0))
  = [ev_kmem_cache_create scfs_file_info_cache true;
     ev_kmem_cache_create scfs_dentry_info_cache true;
     ev_kmem_cache_create scfs_inode_info_cache false;
     ev_kmem_cache_destroy scfs_file_info_cache;
     ev_kmem_cache_destroy scfs_dentry_info_cache].
Proof.
  destruct (scfs_init_kmem_caches_all_or_none kmem_cache_create_third_fails caches0)
    as [(Hr & _) | (Hr & _)].
  - reflexivity.
  - vm_compute in Hr. discriminate.
  - split; [exact Hr | vm_compute; reflexivity].
Defined.

(** ** Codec handles *)

(** Once its work memory or transform is there, a compression is the codec
    call and nothing else. *)
Lemma scfs_compress_ready env algo len actual w :
  codec_ready algo w = true ->
  exists r a w1 x y,
    scfs_compress env algo len actual w = Done (r, a) w1 /\
    (r = 0 \/ r = - EIO) /\
    log w1 = log w ++ [ev_codec true algo len x y] /\
    codec_ready algo w1 = true.
Proof.
  intros Hr. destruct algo; unfold scfs_compress; run; cbn [codec_ready] in Hr;
    rewrite Hr; cbn [negb]; cbv beta iota;
    match goal with |- context [let (_, _) := ?p in _] => destruct p as [r0 out] eqn:E end;
    (eexists _, _, _, _, _; split; [reflexivity|]);
    cbn [fst snd log tick codec_ready lzo_workmem tfm_handles];
    (split; [destruct (r0 =? 0); auto|]); (split; [reflexivity | exact Hr]).
Qed.

Lemma scfs_decompress_ready env algo len actual w :
  algo <> LZO ->
  codec_ready algo w = true ->
  exists r a w1 x y,
    scfs_decompress env algo len actual w = Done (r, a) w1 /\
    (r = 0 \/ r = - EIO) /\
    log w1 = log w ++ [ev_codec false algo len x y].
Proof.
  intros Hne Hr. destruct algo; [congruence| | |];
    unfold scfs_decompress; run; cbn [codec_ready] in Hr;
    rewrite Hr; cbn [negb]; cbv beta iota;
    match goal with |- context [let (_, _) := ?p in _] => destruct p as [r0 out] eqn:E end;
    (eexists _, _, _, _, _; split; [reflexivity|]);
    cbn [fst snd log tick];
    (split; [destruct (r0 =? 0); auto | reflexivity]).
Qed.

(** X24: work memory and transforms are allocated once.
    [scfs_compress] returns 0, [-EIO] or [-ENOMEM].  It returns [-ENOMEM]
    only when it had to allocate and the allocation failed; it has called no
    codec then, and the next call allocates again.  After any other return
    the work memory (LZO) or the transform (crypto API) is there: every later
    compression with that algorithm is the codec call alone, and for the
    algorithms of the crypto API so is every later decompression, which uses
    the same transform. *)
Theorem scfs_compress_allocates_once env algo len actual w :
  exists r a w1,
    scfs_compress env algo len actual w = Done (r, a) w1 /\
    (r = 0 \/ r = - EIO \/ r = - ENOMEM) /\
    (r = - ENOMEM ->
     codec_ready algo w = false /\ codec_ready algo w1 = false /\
     log w1 = log w ++ [ev_alloc false]) /\
    (r <> - ENOMEM ->
     codec_ready algo w1 = true /\
     (forall len2 actual2,
         exists r2 a2 w2 x y,
           scfs_compress env algo len2 actual2 w1 = Done (r2, a2) w2 /\
           (r2 = 0 \/ r2 = - EIO) /\
           log w2 = log w1 ++ [ev_codec true algo len2 x y]) /\
     (algo <> LZO ->
      forall len2 actual2,
        exists r2 a2 w2 x y,
          scfs_decompress env algo len2 actual2 w1 = Done (r2, a2) w2 /\
          (r2 = 0 \/ r2 = - EIO) /\
          log w2 = log w1 ++ [ev_codec false algo len2 x y])).
Proof.
  assert (Hlater : forall w1, codec_ready algo w1 = true ->
    codec_ready algo w1 = true /\
    (forall len2 actual2,
        exists r2 a2 w2 x y,
          scfs_compress env algo len2 actual2 w1 = Done (r2, a2) w2 /\
          (r2 = 0 \/ r2 = - EIO) /\
          log w2 = log w1 ++ [ev_codec true algo len2 x y]) /\
    (algo <> LZO ->
     forall len2 actual2,
       exists r2 a2 w2 x y,
         scfs_decompress env algo len2 actual2 w1 = Done (r2, a2) w2 /\
         (r2 = 0 \/ r2 = - EIO) /\
         log w2 = log w1 ++ [ev_codec false algo len2 x y])).
  { intros w1 Hr. split; [exact Hr|]. split.
    - intros len2 actual2.
      destruct (scfs_compress_ready env algo len2 actual2 w1 Hr)
        as (r2 & a2 & w2 & x & y & Hd & Hret & Hl & _).
      exists r2, a2, w2, x, y. auto.
    - intros Hne len2 actual2. now apply scfs_decompress_ready. }
  destruct (codec_ready algo w) eqn:Hr.
  - destruct (scfs_compress_ready env algo len actual w Hr)
      as (r & a & w1 & x & y & Hd & Hret & Hl & Hr1).
    exists r, a, w1. split; [exact Hd|]. split; [tauto|]. split.
    + intros ->. destruct Hret; discriminate.
    + intros _. now apply Hlater.
  - destruct (alloc_ok env (clock w)) eqn:Ea.
    + assert (H : exists r a w1,
                 scfs_compress env algo len actual w = Done (r, a) w1 /\
                 (r = 0 \/ r = - EIO) /\ codec_ready algo w1 = true).
      { destruct algo; unfold scfs_compress; run; cbn [codec_ready] in Hr;
          rewrite Hr, Ea; cbn [negb]; cbv beta iota;
          match goal with |- context [let (_, _) := ?p in _] =>
            destruct p as [r0 out] eqn:E end;
          (eexists _, _, _; split; [reflexivity|]);
          (split; [destruct (r0 =? 0); auto | reflexivity]). }
      destruct H as (r & a & w1 & Hd & Hret & Hr1).
      exists r, a, w1. split; [exact Hd|]. split; [tauto|]. split.
      * intros ->. destruct Hret; discriminate.
      * intros _. now apply Hlater.
    + exists (- ENOMEM), actual.
      destruct algo; unfold scfs_compress; run; cbn [codec_ready] in Hr |- *;
        rewrite Hr, Ea; cbn [negb]; cbv beta iota;
        (eexists; split; [reflexivity|]);
        (split; [auto|]);
        (split; [intros _; repeat split; exact Hr | intros Hx; now elim Hx]).
Qed.
